(** * Scoring engine of the psychodiagnostics CSV analyser

    A shallow embedding of the answer decoders, the category aggregators,
    the level classifiers and the row assembler of
    [src/app/app.component.ts], followed by the properties the
    specification states about them.

    Conventions of the embedding:
    - a JavaScript string is the list of its UTF-16 code units
      ([jsstring]); string literals of the source are written with [u],
      which decodes the UTF-8 bytes of a Rocq literal into code units;
    - a JavaScript [number] that holds an integer is a [Z]; the result of
      arithmetic that may involve a read past the end of an array
      ([undefined], hence [NaN]) has type [number];
    - the component's mutable fields [respondents] and [errorMessage] are
      threaded explicitly through [parseAndTransformCSV];
    - [console.warn] / [console.error] calls are diagnostics only: they do
      not influence any returned value and are left out;
    - the interfaces of the source share field names ([name], [score],
      [level], ...); a projection carries a prefix for its interface
      ([shtepa_score], [ryff_level], [pr_totalScore], ...);
    - [String.prototype.toLowerCase] is a variable of the section that
      holds the decoders, so every statement about them holds for the
      host's case mapping whatever it does on exotic scripts;
      [toLowerCaseUk] is the mapping on Basic Latin and Cyrillic, used to
      run the decoders on concrete questionnaire text. *)

From Stdlib Require Import ZArith NArith List String Ascii Bool Lia.
From Stdlib Require Import Permutation QArith.
Import ListNotations.

Local Open Scope Z_scope.

(* ================================================================== *)
(** ** JavaScript strings *)
(* ================================================================== *)

Module Js.

(** A string is a sequence of UTF-16 code units. *)
Definition jsstring := list N.

(** Value of a code point from its UTF-8 bytes, as UTF-16 code units
    (a surrogate pair above the Basic Multilingual Plane). *)
Definition units_of_code_point (cp : N) : list N :=
  if (cp <? 65536)%N then [cp]
  else let v := (cp - 65536)%N in
       [(55296 + N.shiftr v 10)%N; (56320 + N.land v 1023)%N].

Definition cont (b : N) : N := N.land b 63.

(** UTF-8 decoder over the bytes of a literal.  [fuel] bounds the
    recursion by the number of bytes. *)
Fixpoint utf8_units (fuel : nat) (bs : list N) : list N :=
  match fuel with
  | O => []
  | S fuel' =>
    match bs with
    | [] => []
    | b0 :: r0 =>
      if (b0 <? 128)%N then b0 :: utf8_units fuel' r0
      else if (b0 <? 224)%N then
        match r0 with
        | b1 :: r1 =>
          units_of_code_point (N.shiftl (N.land b0 31) 6 + cont b1)%N
            ++ utf8_units fuel' r1
        | _ => []
        end
      else if (b0 <? 240)%N then
        match r0 with
        | b1 :: b2 :: r2 =>
          units_of_code_point
            (N.shiftl (N.land b0 15) 12 + N.shiftl (cont b1) 6 + cont b2)%N
            ++ utf8_units fuel' r2
        | _ => []
        end
      else
        match r0 with
        | b1 :: b2 :: b3 :: r3 =>
          units_of_code_point
            (N.shiftl (N.land b0 7) 18 + N.shiftl (cont b1) 12
             + N.shiftl (cont b2) 6 + cont b3)%N
            ++ utf8_units fuel' r3
        | _ => []
        end
    end
  end.

Definition bytes_of (s : string) : list N :=
  map N_of_ascii (list_ascii_of_string s).

(** [u "text"] is the JavaScript string literal ['text']. *)
Definition u (s : string) : jsstring :=
  let bs := bytes_of s in utf8_units (List.length bs) bs.

(** The empty string. *)
Definition empty : jsstring := [].

(** [s.length] *)
Definition length (s : jsstring) : Z := Z.of_nat (List.length s).

(** [a === b] on strings *)
Fixpoint eqb (a b : jsstring) : bool :=
  match a, b with
  | [], [] => true
  | x :: a', y :: b' => N.eqb x y && eqb a' b'
  | _, _ => false
  end.

(** [s.startsWith(p)] *)
Fixpoint startsWith (s p : jsstring) {struct p} : bool :=
  match p with
  | [] => true
  | y :: p' =>
    match s with
    | [] => false
    | x :: s' => N.eqb x y && startsWith s' p'
    end
  end.

(** [s.endsWith(p)] *)
Definition endsWith (s p : jsstring) : bool := startsWith (rev s) (rev p).

(** [s.includes(p)] *)
Fixpoint includes (s p : jsstring) : bool :=
  startsWith s p ||
  match s with
  | [] => false
  | _ :: s' => includes s' p
  end.

(** WhiteSpace and LineTerminator code units of ECMAScript, the set
    removed by [trim] and skipped by [parseInt]. *)
Definition isWhiteSpace (c : N) : bool :=
  ((9 <=? c) && (c <=? 13) || (c =? 32) || (c =? 160) || (c =? 5760)
   || ((8192 <=? c) && (c <=? 8202)) || (c =? 8232) || (c =? 8233)
   || (c =? 8239) || (c =? 8287) || (c =? 12288) || (c =? 65279))%N.

Fixpoint trimStart (s : jsstring) : jsstring :=
  match s with
  | [] => []
  | c :: s' => if isWhiteSpace c then trimStart s' else s
  end.

Definition trimEnd (s : jsstring) : jsstring := rev (trimStart (rev s)).

(** [s.trim()] *)
Definition trim (s : jsstring) : jsstring := trimEnd (trimStart s).

(** The class [\d] of a regular expression without the [u] flag. *)
Definition isDigit (c : N) : bool := ((48 <=? c) && (c <=? 57))%N.

(** [s.replace(/[^\d]/g, '')] *)
Definition stripNonDigits (s : jsstring) : jsstring := filter isDigit s.

(** [s.split('\n')]: always at least one piece. *)
Fixpoint split_lines_aux (cur : jsstring) (s : jsstring) : list jsstring :=
  match s with
  | [] => [rev cur]
  | c :: s' =>
    if (c =? 10)%N then rev cur :: split_lines_aux [] s'
    else split_lines_aux (c :: cur) s'
  end.

Definition split_lines (s : jsstring) : list jsstring := split_lines_aux [] s.

(** Leading decimal digits of a string, as a number. *)
Fixpoint digits_value (acc : Z) (s : jsstring) : Z :=
  match s with
  | [] => acc
  | c :: s' =>
    if isDigit c then digits_value (10 * acc + (Z.of_N c - 48)) s' else acc
  end.

Definition starts_with_digit (s : jsstring) : bool :=
  match s with
  | c :: _ => isDigit c
  | [] => false
  end.

(** [parseInt(s, 10)]: leading white space is skipped, one sign is
    accepted, then the longest run of digits is read; [None] is [NaN]. *)
Definition parseInt (s : jsstring) : option Z :=
  let t := trimStart s in
  let '(neg, body) :=
    match t with
    | c :: t' =>
      if (c =? 45)%N then (true, t')
      else if (c =? 43)%N then (false, t')
      else (false, t)
    | [] => (false, t)
    end in
  if starts_with_digit body
  then Some (if neg then - digits_value 0 body else digits_value 0 body)
  else None.

(** Simple lower-case mapping of one code unit on Basic Latin and on the
    Cyrillic block (U+0400..U+042F, and the pairs of U+0460..U+052F the
    Ukrainian alphabet draws on, i.e. U+0490). *)
Definition lowerUnit (c : N) : N :=
  if ((65 <=? c) && (c <=? 90))%N then (c + 32)%N
  else if ((1024 <=? c) && (c <=? 1039))%N then (c + 80)%N
  else if ((1040 <=? c) && (c <=? 1071))%N then (c + 32)%N
  else if (c =? 1168)%N then 1169%N
  else c.

Definition toLowerCaseUk (s : jsstring) : jsstring := map lowerUnit s.

End Js.

Abbreviation jsstring := Js.jsstring.
Abbreviation u := Js.u.

(* ================================================================== *)
(** ** JavaScript numbers *)
(* ================================================================== *)

(** The decoders only produce small integers and the aggregators only add
    and subtract them, so a finite number is a [Z].  [NaN] is what the
    source gets when it adds [undefined], the value of a read past the
    end of an answer array. *)
Inductive number : Type :=
| Num (z : Z)
| NaN.

Definition nadd (a b : number) : number :=
  match a, b with
  | Num x, Num y => Num (x + y)
  | _, _ => NaN
  end.

Definition nsub (a b : number) : number :=
  match a, b with
  | Num x, Num y => Num (x - y)
  | _, _ => NaN
  end.

(** Comparisons with [NaN] are false. *)
Definition nltb (a b : number) : bool :=
  match a, b with
  | Num x, Num y => x <? y
  | _, _ => false
  end.

Definition nleb (a b : number) : bool :=
  match a, b with
  | Num x, Num y => x <=? y
  | _, _ => false
  end.

Definition ngtb (a b : number) : bool := nltb b a.

(** [arr[i]] for an integer index: [None] is [undefined]. *)
Definition at_index {A : Type} (arr : list A) (i : Z) : option A :=
  if i <? 0 then None else nth_error arr (Z.to_nat i).

(** [answers[i]] read as a number. *)
Definition num_at (answers : list Z) (i : Z) : number :=
  match at_index answers i with
  | Some v => Num v
  | None => NaN
  end.

(** [arr.includes(x)] on an array of integers. *)
Definition includesZ (arr : list Z) (x : Z) : bool := existsb (Z.eqb x) arr.

(* ================================================================== *)
(** ** Result records (the interfaces of the source) *)
(* ================================================================== *)

(** A value rounded to two decimals by
    [Math.round(x * 100) / 100]; [None] is [NaN]. *)
Definition average := option Q.

Record SanResult : Type := {
  wellbeing : average;
  activity : average;
  mood : average
}.

Record ShtepaCategory : Type := {
  shtepa_name : jsstring;
  shtepa_score : Z;
  shtepa_maxScore : Z
}.

Record ShtepaResult : Type := {
  shtepa_categories : list ShtepaCategory;
  shtepa_totalScore : Z;
  shtepa_totalLevel : jsstring;
  shtepa_totalLevelClass : jsstring
}.

Record BasicPhCategory : Type := {
  bph_code : jsstring;
  bph_name : jsstring;
  bph_score : number;
  bph_maxScore : Z
}.

Record BasicPhResult : Type := {
  bph_categories : list BasicPhCategory;
  bph_totalScore : number
}.

Record PersonalResourceCategory : Type := {
  pr_name : jsstring;
  pr_score : number;
  pr_maxScore : Z;
  pr_level : jsstring;
  pr_levelClass : jsstring
}.

Record PersonalResourceResult : Type := {
  sufficiency : PersonalResourceCategory;
  copingStrategies : PersonalResourceCategory;
  emotionalExhaustion : PersonalResourceCategory;
  pr_totalScore : number;
  pr_totalLevel : jsstring;
  pr_totalLevelClass : jsstring
}.

Record RyffCategory : Type := {
  ryff_name : jsstring;
  ryff_score : number;
  ryff_maxScore : Z;
  ryff_level : jsstring;
  ryff_levelClass : jsstring
}.

Record RyffResult : Type := {
  relationships : RyffCategory;
  autonomy : RyffCategory;
  environment : RyffCategory;
  growth : RyffCategory;
  purpose : RyffCategory;
  selfAcceptance : RyffCategory;
  ryff_totalScore : number;
  ryff_totalLevel : jsstring;
  ryff_totalLevelClass : jsstring
}.

Record Respondent : Type := {
  timestamp : jsstring;
  email : jsstring;
  age : jsstring;
  sanAnswers : list Z;
  san : SanResult;
  shtepaAnswers : list bool;
  shtepa : ShtepaResult;
  basicPhAnswers : list Z;
  basicPh : BasicPhResult;
  personalResourceAnswers : list Z;
  personalResource : PersonalResourceResult;
  ryffAnswers : list Z;
  ryff : RyffResult
}.

(** [{ level, class }] as returned by the level helpers. *)
Record Level : Type := {
  level : jsstring;
  class : jsstring
}.

(** Question slot of a Shtepa category: [{ num, expected }]. *)
Record ShtepaQuestion : Type := {
  sq_num : Z;
  expected : bool
}.

Record CategoryDefinition : Type := {
  cd_name : jsstring;
  cd_questions : list ShtepaQuestion
}.

Record BasicPhCategoryDefinition : Type := {
  bcd_code : jsstring;
  bcd_name : jsstring;
  bcd_questions : list Z
}.

(** Question slot of a Ryff category: [{ num, isReversed }]. *)
Record RyffQuestion : Type := {
  rq_num : Z;
  isReversed : bool
}.

Record RyffCategoryDefinition : Type := {
  rcd_name : jsstring;
  rcd_questions : list RyffQuestion;
  lowThreshold : Z;
  highThreshold : Z
}.

(* ================================================================== *)
(** ** Configuration tables *)
(* ================================================================== *)

(** САН questions with reversed scoring. *)
Definition reversedQuestions : list Z := [3; 4; 9; 10; 13; 15; 16; 21; 22; 27; 28].

Definition wellbeingQuestions : list Z := [1; 2; 7; 8; 13; 14; 19; 20; 25; 26].
Definition activityQuestions : list Z := [3; 4; 9; 10; 15; 16; 21; 22; 27; 28].
Definition moodQuestions : list Z := [5; 6; 11; 12; 17; 18; 23; 24; 29; 30].

(** Штепа: 14 categories of 8 question slots, each with its expected
    answer. *)
Definition sq (n : Z) (e : bool) : ShtepaQuestion :=
  {| sq_num := n; expected := e |}.

Definition shtepaCategories : list CategoryDefinition :=
  [
{| cd_name := u "Упевненість у собі";
       cd_questions :=
         [sq 2 true; sq 3 true; sq 9 false; sq 11 true;
          sq 12 false; sq 21 false; sq 22 false; sq 55 true] |};
    {| cd_name := u "Доброта до людей";
       cd_questions :=
         [sq 4 true; sq 5 true; sq 15 false; sq 16 false;
          sq 17 false; sq 26 false; sq 27 false; sq 28 true] |};
    {| cd_name := u "Допомога іншим";
       cd_questions :=
         [sq 4 true; sq 6 true; sq 10 false; sq 17 false;
          sq 18 false; sq 36 true; sq 37 true; sq 38 true] |};
    {| cd_name := u "Успіх";
       cd_questions :=
         [sq 1 true; sq 12 false; sq 14 true; sq 29 true;
          sq 34 true; sq 40 true; sq 42 false; sq 55 true] |};
    {| cd_name := u "Любов";
       cd_questions :=
         [sq 7 false; sq 8 false; sq 11 true; sq 30 true;
          sq 33 false; sq 51 true; sq 52 true; sq 53 true] |};
    {| cd_name := u "Творчість";
       cd_questions :=
         [sq 23 false; sq 24 false; sq 25 false; sq 31 true;
          sq 37 true; sq 40 true; sq 53 true; sq 54 true] |};
    {| cd_name := u "Віра у добро";
       cd_questions :=
         [sq 1 true; sq 6 true; sq 7 false; sq 13 false;
          sq 16 false; sq 28 true; sq 34 true; sq 35 true] |};
    {| cd_name := u "Прагнення до мудрості";
       cd_questions :=
         [sq 33 false; sq 36 true; sq 39 true; sq 45 false;
          sq 46 false; sq 47 false; sq 54 true; sq 55 true] |};
    {| cd_name := u "Робота над собою";
       cd_questions :=
         [sq 11 true; sq 41 true; sq 43 false; sq 48 false;
          sq 49 false; sq 50 false; sq 52 true; sq 54 true] |};
    {| cd_name := u "Самореалізація у професії";
       cd_questions :=
         [sq 11 true; sq 23 false; sq 24 false; sq 40 true;
          sq 42 false; sq 44 false; sq 47 false; sq 53 true] |};
    {| cd_name := u "Відповідальність";
       cd_questions :=
         [sq 8 false; sq 10 false; sq 19 false; sq 20 true;
          sq 22 false; sq 32 true; sq 51 true; sq 52 true] |};
    {| cd_name := u "Знання власних ресурсів";
       cd_questions :=
         [sq 57 false; sq 59 false; sq 60 true; sq 61 true;
          sq 62 false; sq 63 false; sq 66 false; sq 67 true] |};
    {| cd_name := u "Уміння оновлювати власні ресурси";
       cd_questions :=
         [sq 56 true; sq 58 true; sq 60 true; sq 61 true;
          sq 62 false; sq 63 false; sq 64 false; sq 66 false] |};
    {| cd_name := u "Уміння використовувати власні ресурси";
       cd_questions :=
         [sq 58 true; sq 59 false; sq 61 true; sq 63 false;
          sq 64 false; sq 65 true; sq 66 false; sq 67 true] |}].


(** Basic Ph: 6 categories of 6 question numbers. *)
Definition basicPhCategories : list BasicPhCategoryDefinition :=
  [{| bcd_code := u "B"; bcd_name := u "Віра, переконання";
      bcd_questions := [1; 7; 13; 19; 25; 31] |};
   {| bcd_code := u "A"; bcd_name := u "Емоції, почуття";
      bcd_questions := [2; 8; 14; 20; 26; 32] |};
   {| bcd_code := u "S"; bcd_name := u "Соціальні зв'язки";
      bcd_questions := [3; 9; 15; 21; 27; 33] |};
   {| bcd_code := u "I"; bcd_name := u "Уява, мрії";
      bcd_questions := [4; 10; 16; 22; 28; 34] |};
   {| bcd_code := u "C"; bcd_name := u "Когнітивні стратегії";
      bcd_questions := [5; 11; 17; 23; 29; 35] |};
   {| bcd_code := u "Ph"; bcd_name := u "Тілесні ресурси";
      bcd_questions := [6; 12; 18; 24; 30; 36] |}].

(** Особистісні ресурси: three categories. *)
Definition personalResourceSufficiencyQuestions : list Z := [1; 2; 4; 5; 9; 10].
Definition personalResourceCopingQuestions : list Z := [3; 6; 8; 12].
Definition personalResourceExhaustionQuestions : list Z := [7; 11; 13].

(** Ryff: 6 categories of 14 question slots with their reversal flag and
    the thresholds of the category. *)
Definition rq (n : Z) (r : bool) : RyffQuestion :=
  {| rq_num := n; isReversed := r |}.

Module ryffCategories.

Definition relationships : RyffCategoryDefinition :=
  {| rcd_name := u "Відносини";
     rcd_questions :=
       [rq 1 false; rq 7 true; rq 13 true; rq 19 false;
        rq 25 false; rq 31 true; rq 37 false; rq 43 true;
        rq 49 false; rq 55 true; rq 61 true; rq 67 false;
        rq 73 true; rq 79 false];
     lowThreshold := 53;
     highThreshold := 74 |}.

Definition autonomy : RyffCategoryDefinition :=
  {| rcd_name := u "Автономія";
     rcd_questions :=
       [rq 2 true; rq 8 false; rq 14 false; rq 20 true;
        rq 26 false; rq 32 true; rq 38 false; rq 44 true;
        rq 50 false; rq 56 true; rq 62 true; rq 68 false;
        rq 74 true; rq 80 false];
     lowThreshold := 48;
     highThreshold := 62 |}.

Definition environment : RyffCategoryDefinition :=
  {| rcd_name := u "Середовище";
     rcd_questions :=
       [rq 3 false; rq 9 true; rq 15 true; rq 21 false;
        rq 27 true; rq 33 false; rq 39 false; rq 45 true;
        rq 51 false; rq 57 false; rq 63 true; rq 69 false;
        rq 75 true; rq 81 false];
     lowThreshold := 51;
     highThreshold := 71 |}.

Definition growth : RyffCategoryDefinition :=
  {| rcd_name := u "Зростання";
     rcd_questions :=
       [rq 4 true; rq 10 false; rq 16 false; rq 22 true;
        rq 28 false; rq 34 true; rq 40 false; rq 46 false;
        rq 52 false; rq 58 true; rq 64 false; rq 70 false;
        rq 76 true; rq 82 true];
     lowThreshold := 53;
     highThreshold := 71 |}.

Definition purpose : RyffCategoryDefinition :=
  {| rcd_name := u "Цілі";
     rcd_questions :=
       [rq 5 false; rq 11 true; rq 17 true; rq 23 false;
        rq 29 true; rq 35 true; rq 41 true; rq 47 false;
        rq 53 false; rq 59 false; rq 65 true; rq 71 false;
        rq 77 false; rq 83 true];
     lowThreshold := 54;
     highThreshold := 75 |}.

Definition selfAcceptance : RyffCategoryDefinition :=
  {| rcd_name := u "Самосприйняття";
     rcd_questions :=
       [rq 6 false; rq 12 false; rq 18 true; rq 24 true;
        rq 30 false; rq 36 false; rq 42 true; rq 48 false;
        rq 54 true; rq 60 true; rq 66 true; rq 72 false;
        rq 78 false; rq 84 true];
     lowThreshold := 49;
     highThreshold := 71 |}.

End ryffCategories.


Definition ryffTotalLowThreshold : Z := 315.
Definition ryffTotalHighThreshold : Z := 413.

(** Keyword lists of [convertSanAnswer]. *)
Definition positiveKeywords : list jsstring :=
  [u "добре";
   u "сильним";
   u "активний";
   u "рухливий";
   u "веселий";
   u "гарний";
   u "працездатний";
   u "сповнений сил";
   u "швидкий";
   u "дієвий";
   u "щасливий";
   u "життєрадісний";
   u "розслаблений";
   u "здоровий";
   u "захоплений";
   u "схвильований";
   u "сповнений віри";
   u "радісний";
   u "добре відпочив";
   u "свіжий";
   u "збуджений";
   u "бажаю працювати";
   u "спокійний";
   u "оптимістичний";
   u "витривалий";
   u "бадьорий";
   u "розмірковувати легко";
   u "уважний";
   u "сповнений надій";
   u "задоволений"].

Definition negativeKeywords : list jsstring :=
  [u "погане";
   u "слабким";
   u "пасивний";
   u "малорухливий";
   u "сумний";
   u "поганий";
   u "малопрацездатний";
   u "знесилений";
   u "повільний";
   u "бездіяльний";
   u "нещасний";
   u "похмурий";
   u "напружений";
   u "хворий";
   u "безініціативний";
   u "байдужий";
   u "зневірений";
   u "стомлений";
   u "виснажений";
   u "сонливий";
   u "бажаю відпочити";
   u "стурбований";
   u "песимістичний";
   u "маловитривалий";
   u "млявий";
   u "розмірковувати важко";
   u "неуважний";
   u "розчарований";
   u "незадоволений"].


(** Full-text answers of [convertBasicPhAnswer], in the order of the
    object literal. *)
Definition answerMap : list (jsstring * Z) :=
  [(u "ніколи не користуюся цим способом, щоб впоратися зі складною ситуацією",
    0);
   (u "рідко користуюся цим способом, щоб впоратися зі складною ситуацією",
    1);
   (u "іноді користуюся цим способом, щоб впоратися зі складною ситуацією",
    2);
   (u "періодично користуюся цим способом, щоб впоратися зі складною ситуацією",
    3);
   (u "часто користуюся цим способом, щоб впоратися зі складною ситуацією",
    4);
   (u "майже завжди користуюся цим способом, щоб впоратися зі складною ситуацією",
    5);
   (u "завжди користуюся цим способом, щоб впоратися зі складною ситуацією",
    6)].

(** [answerMap.hasOwnProperty(key)] together with [answerMap[key]]. *)
Fixpoint ownProperty (m : list (jsstring * Z)) (key : jsstring) : option Z :=
  match m with
  | [] => None
  | (k, v) :: m' => if Js.eqb key k then Some v else ownProperty m' key
  end.

(* ================================================================== *)
(** ** Answer conversion methods *)
(* ================================================================== *)

Section Decoders.

(** [String.prototype.toLowerCase] of the host. *)
Variable toLowerCase : jsstring -> jsstring.

(** САН answer text to a score in 1..7. *)
Definition convertSanAnswer (rawValue : jsstring) (isReversed : bool)
    (questionNum : Z) (email : jsstring) : Z :=
  let normalized := Js.trim rawValue in
  if Js.startsWith normalized (u "3 (") || Js.startsWith normalized (u "3(")
  then
    let lowerValue := toLowerCase normalized in
    let isPositiveExtreme :=
      existsb (fun kw => Js.includes lowerValue kw) positiveKeywords in
    let isNegativeExtreme :=
      existsb (fun kw => Js.includes lowerValue kw) negativeKeywords in
    if isPositiveExtreme then 7
    else if isNegativeExtreme then 1
    else 4
  else
    let cleanValue := Js.stripNonDigits normalized in
    let hasSpecialChar :=
      (Js.length cleanValue <? Js.length normalized)
      && (0 <? Js.length cleanValue) in
    if Js.eqb cleanValue (u "0") then 4
    else if Js.eqb cleanValue (u "1") then
      if hasSpecialChar then (if isReversed then 3 else 5)
      else if isReversed then 5 else 3
    else if Js.eqb cleanValue (u "2") then
      if hasSpecialChar then (if isReversed then 2 else 6)
      else if isReversed then 6 else 2
    else if Js.eqb cleanValue (u "3") then 4
    else 4.

(** Штепа answer to a boolean; unrecognised text is [false]. *)
Definition convertShtepaAnswer (rawValue : jsstring) (questionNum : Z)
    (email : jsstring) : bool :=
  let normalized := toLowerCase (Js.trim rawValue) in
  if Js.eqb normalized (u "так") || Js.eqb normalized (u "+") then true
  else if Js.eqb normalized (u "ні") || Js.eqb normalized (u "-") then false
  else false.

(** The numeric fallback shared by the three frequency/agreement
    decoders: [!isNaN(numValue) && numValue >= lo && numValue <= hi]. *)
Definition numericAnswer (normalized : jsstring) (lo hi : Z) : option Z :=
  match Js.parseInt normalized with
  | Some numValue =>
    if (lo <=? numValue) && (numValue <=? hi) then Some numValue else None
  | None => None
  end.

(** Basic Ph answer to a score in 0..6. *)
Definition convertBasicPhAnswer (rawValue : jsstring) (questionNum : Z)
    (email : jsstring) : Z :=
  let normalized := toLowerCase (Js.trim rawValue) in
  match ownProperty answerMap normalized with
  | Some v => v
  | None =>
    if Js.includes normalized (u "ніколи") then 0
    else if Js.includes normalized (u "рідко") then 1
    else if Js.includes normalized (u "іноді") then 2
    else if Js.includes normalized (u "періодично") then 3
    else if Js.includes normalized (u "часто") then 4
    else if Js.includes normalized (u "майже завжди") then 5
    else if Js.includes normalized (u "завжди") then 6
    else
      match numericAnswer normalized 0 6 with
      | Some numValue => numValue
      | None => 0
      end
  end.

(** Personal Resources answer to a score in 1..5. *)
Definition convertPersonalResourceAnswer (rawValue : jsstring)
    (questionNum : Z) (email : jsstring) : Z :=
  let normalized := toLowerCase (Js.trim rawValue) in
  if Js.includes normalized (u "повністю не погоджуюсь")
     || Js.includes normalized (u "повністю не погоджуюся")
     || Js.includes normalized (u "майже ніколи")
  then 1
  else if Js.includes normalized (u "частково не погоджусь")
     || Js.includes normalized (u "частково не погоджуюся")
     || Js.includes normalized (u "рідко")
  then 2
  else if Js.includes normalized (u "важко визначитися")
     || Js.includes normalized (u "час від часу")
  then 3
  else if Js.includes normalized (u "частково погоджуюсь")
     || Js.includes normalized (u "частково погоджуюся")
     || Js.includes normalized (u "часто")
  then 4
  else if Js.includes normalized (u "повністю погоджуюсь")
     || Js.includes normalized (u "повністю погоджуюся")
     || Js.includes normalized (u "майже завжди")
  then 5
  else
    match numericAnswer normalized 1 5 with
    | Some numValue => numValue
    | None => 3
    end.

(** Ryff answer to a score in 1..6 (reversal is applied by the
    aggregator, not here). *)
Definition convertRyffAnswer (rawValue : jsstring) (questionNum : Z)
    (email : jsstring) : Z :=
  let normalized := toLowerCase (Js.trim rawValue) in
  if Js.includes normalized (u "повністю не згоден") then 1
  else if Js.includes normalized (u "здебільшого не згоден") then 2
  else if Js.includes normalized (u "де в чому не згоден") then 3
  else if Js.includes normalized (u "де в чому згоден") then 4
  else if Js.includes normalized (u "швидше згоден") then 5
  else if Js.includes normalized (u "повністю згоден") then 6
  else
    match numericAnswer normalized 1 6 with
    | Some numValue => numValue
    | None => 3
    end.

End Decoders.

(* ================================================================== *)
(** ** Score calculation methods *)
(* ================================================================== *)

(** The loop [for (const qNum of questions) score += answers[qNum - 1]]
    started from [score]. *)
Definition addAnswers (answers : list Z) (questions : list Z)
    (score : number) : number :=
  fold_left (fun score qNum => nadd score (num_at answers (qNum - 1)))
            questions score.

(** Inner loop of [calculateShtepaResults]: one point for each slot whose
    answer is strictly equal to the expected value. *)
Definition shtepaScore (answers : list bool) (questions : list ShtepaQuestion)
    : Z :=
  fold_left
    (fun score q =>
       let answerIndex := sq_num q - 1 in
       match at_index answers answerIndex with
       | Some actualAnswer =>
         if Bool.eqb actualAnswer (expected q) then score + 1 else score
       | None => score
       end)
    questions 0.

(** The five-way band of the Штепа total. *)
Definition shtepaTotalLevel (totalScore : Z) : Level :=
  if totalScore <=? 56 then
    {| level := u "Психологічна ресурсність не діагностується";
       class := u "not-diagnosed" |}
  else if totalScore <=? 69 then
    {| level := u "Низький рівень"; class := u "low" |}
  else if totalScore <=? 92 then
    {| level := u "Середній рівень"; class := u "medium" |}
  else if totalScore <=? 106 then
    {| level := u "Високий рівень"; class := u "high" |}
  else
    {| level := u "Сумнівні дані"; class := u "doubtful" |}.

Definition calculateShtepaResults (answers : list bool) : ShtepaResult :=
  let '(categories, totalScore) :=
    fold_left
      (fun '(categories, totalScore) catDef =>
         let score := shtepaScore answers (cd_questions catDef) in
         (categories ++
            [{| shtepa_name := cd_name catDef;
                shtepa_score := score;
                shtepa_maxScore := Z.of_nat (List.length (cd_questions catDef)) |}],
          totalScore + score))
      shtepaCategories ([], 0) in
  let l := shtepaTotalLevel totalScore in
  {| shtepa_categories := categories;
     shtepa_totalScore := totalScore;
     shtepa_totalLevel := level l;
     shtepa_totalLevelClass := class l |}.

Definition calculateBasicPhResults (answers : list Z) : BasicPhResult :=
  let '(categories, totalScore) :=
    fold_left
      (fun '(categories, totalScore) catDef =>
         let score := addAnswers answers (bcd_questions catDef) (Num 0) in
         (categories ++
            [{| bph_code := bcd_code catDef;
                bph_name := bcd_name catDef;
                bph_score := score;
                bph_maxScore := 36 |}],
          nadd totalScore score))
      basicPhCategories ([], Num 0) in
  {| bph_categories := categories; bph_totalScore := totalScore |}.

(** Level helpers local to [calculatePersonalResourceResults]. *)
Definition getSufficiencyLevel (score : number) : Level :=
  if nltb score (Num 13) then {| level := u "Низький"; class := u "low" |}
  else if nleb score (Num 21) then
    {| level := u "Середній"; class := u "medium" |}
  else {| level := u "Високий"; class := u "high" |}.

Definition getCopingLevel (score : number) : Level :=
  if nltb score (Num 13) then {| level := u "Низький"; class := u "low" |}
  else if nleb score (Num 18) then
    {| level := u "Середній"; class := u "medium" |}
  else {| level := u "Високий"; class := u "high" |}.

(** Inverted: for exhaustion the lower score is the better one, so the
    classes are flipped. *)
Definition getExhaustionLevel (score : number) : Level :=
  if nltb score (Num 8) then {| level := u "Низький"; class := u "high" |}
  else if nleb score (Num 12) then
    {| level := u "Середній"; class := u "medium" |}
  else {| level := u "Високий"; class := u "low" |}.

Definition personalResourceTotalLevel (totalScore : number) : Level :=
  if nltb totalScore (Num 15) then
    {| level := u "Низький"; class := u "low" |}
  else if nleb totalScore (Num 30) then
    {| level := u "Середній"; class := u "medium" |}
  else {| level := u "Високий"; class := u "high" |}.

Definition calculatePersonalResourceResults (answers : list Z)
    : PersonalResourceResult :=
  let sufficiencyScore :=
    addAnswers answers personalResourceSufficiencyQuestions (Num 0) in
  let copingScore :=
    addAnswers answers personalResourceCopingQuestions (Num 0) in
  let exhaustionScore :=
    addAnswers answers personalResourceExhaustionQuestions (Num 0) in
  let sufficiencyLevel := getSufficiencyLevel sufficiencyScore in
  let copingLevel := getCopingLevel copingScore in
  let exhaustionLevel := getExhaustionLevel exhaustionScore in
  let totalScore := nsub (nadd sufficiencyScore copingScore) exhaustionScore in
  let totalLevel := personalResourceTotalLevel totalScore in
  {| sufficiency :=
       {| pr_name := u "Достатність";
          pr_score := sufficiencyScore;
          pr_maxScore := 30;
          pr_level := level sufficiencyLevel;
          pr_levelClass := class sufficiencyLevel |};
     copingStrategies :=
       {| pr_name := u "Стратегії подолання";
          pr_score := copingScore;
          pr_maxScore := 20;
          pr_level := level copingLevel;
          pr_levelClass := class copingLevel |};
     emotionalExhaustion :=
       {| pr_name := u "Емоційна спустошеність";
          pr_score := exhaustionScore;
          pr_maxScore := 15;
          pr_level := level exhaustionLevel;
          pr_levelClass := class exhaustionLevel |};
     pr_totalScore := totalScore;
     pr_totalLevel := level totalLevel;
     pr_totalLevelClass := class totalLevel |}.

(** [q.isReversed ? 7 - rawAnswer : rawAnswer] *)
Definition finalAnswer (q : RyffQuestion) (rawAnswer : number) : number :=
  if isReversed q then nsub (Num 7) rawAnswer else rawAnswer.

(** The loop of [calculateCategoryScore], started from [score]. *)
Definition ryffScore (answers : list Z) (questions : list RyffQuestion)
    (score : number) : number :=
  fold_left
    (fun score q =>
       let rawAnswer := num_at answers (rq_num q - 1) in
       nadd score (finalAnswer q rawAnswer))
    questions score.

(** Three-way band from a pair of thresholds. *)
Definition getRyffCategoryLevel (score : number)
    (lowThreshold highThreshold : Z) : Level :=
  if nltb score (Num lowThreshold) then
    {| level := u "Низький"; class := u "low" |}
  else if ngtb score (Num highThreshold) then
    {| level := u "Високий"; class := u "high" |}
  else {| level := u "Середній"; class := u "medium" |}.

(** The closure [calculateCategoryScore] of [calculateRyffResults]; it
    repeats the three-way test of [getRyffCategoryLevel] inline. *)
Definition calculateCategoryScore (answers : list Z)
    (categoryDef : RyffCategoryDefinition) : RyffCategory :=
  let score := ryffScore answers (rcd_questions categoryDef) (Num 0) in
  let '(level, levelClass) :=
    if nltb score (Num (lowThreshold categoryDef)) then
      (u "Низький", u "low")
    else if ngtb score (Num (highThreshold categoryDef)) then
      (u "Високий", u "high")
    else (u "Середній", u "medium") in
  {| ryff_name := rcd_name categoryDef;
     ryff_score := score;
     ryff_maxScore := 84;
     ryff_level := level;
     ryff_levelClass := levelClass |}.

Definition calculateRyffResults (answers : list Z) : RyffResult :=
  let relationships :=
    calculateCategoryScore answers ryffCategories.relationships in
  let autonomy := calculateCategoryScore answers ryffCategories.autonomy in
  let environment :=
    calculateCategoryScore answers ryffCategories.environment in
  let growth := calculateCategoryScore answers ryffCategories.growth in
  let purpose := calculateCategoryScore answers ryffCategories.purpose in
  let selfAcceptance :=
    calculateCategoryScore answers ryffCategories.selfAcceptance in
  let totalScore :=
    nadd (nadd (nadd (nadd (nadd (ryff_score relationships)
                                 (ryff_score autonomy))
                           (ryff_score environment))
                     (ryff_score growth))
               (ryff_score purpose))
         (ryff_score selfAcceptance) in
  let '(totalLevel, totalLevelClass) :=
    if nltb totalScore (Num ryffTotalLowThreshold) then
      (u "Низький", u "low")
    else if ngtb totalScore (Num ryffTotalHighThreshold) then
      (u "Високий", u "high")
    else (u "Середній", u "medium") in
  {| relationships := relationships;
     autonomy := autonomy;
     environment := environment;
     growth := growth;
     purpose := purpose;
     selfAcceptance := selfAcceptance;
     ryff_totalScore := totalScore;
     ryff_totalLevel := totalLevel;
     ryff_totalLevelClass := totalLevelClass |}.

(** [Math.round((sum / n) * 100) / 100] for an integer [sum] and a
    positive count [n]: [Math.round] rounds halves up, so the rounded
    hundredths are [floor((200 * sum + n) / (2 * n))]. *)
Definition round2 (sum n : Z) : Q := Qmake ((200 * sum + n) / (2 * n)) 100.

(** Mean of the answers at [questionNumbers], rounded to two decimals;
    [0 / 0] and any sum over a missing answer are [NaN]. *)
Definition calculateAverage (answers : list Z) (questionNumbers : list Z)
    : average :=
  let values := map (fun qNum => num_at answers (qNum - 1)) questionNumbers in
  let sum := fold_left (fun acc val => nadd acc val) values (Num 0) in
  match sum with
  | Num s =>
    if Z.of_nat (List.length values) =? 0 then None
    else Some (round2 s (Z.of_nat (List.length values)))
  | NaN => None
  end.

(* ================================================================== *)
(** ** CSV parsing *)
(* ================================================================== *)

(** Loop state of [parseCSVLine]. *)
Record LineState : Type := {
  result : list jsstring;
  current : jsstring;
  inQuotes : bool
}.

Definition parseCSVStep (st : LineState) (char : N) : LineState :=
  if (char =? 34)%N then
    {| result := result st; current := current st;
       inQuotes := negb (inQuotes st) |}
  else if (char =? 44)%N && negb (inQuotes st) then
    {| result := result st ++ [Js.trim (current st)]; current := [];
       inQuotes := inQuotes st |}
  else
    {| result := result st; current := current st ++ [char];
       inQuotes := inQuotes st |}.

Definition parseCSVLine (line : jsstring) : list jsstring :=
  let st :=
    fold_left parseCSVStep line
              {| result := []; current := []; inQuotes := false |} in
  result st ++ [Js.trim (current st)].

(** The two fields of the component that [parseAndTransformCSV] writes. *)
Record AppComponent : Type := {
  respondents : list Respondent;
  errorMessage : jsstring
}.

(** Expected columns: 233. *)
Definition minColumns : Z := 3 + 30 + 67 + 36 + 13 + 84.

(** [columns[i]] on a row that passed the column-count test, where the
    index is always in range. *)
Definition column (columns : list jsstring) (i : nat) : jsstring :=
  nth i columns [].

(** The counted loop [for (let i = 0; i < n; i++) out.push(f(i))]. *)
Definition forEachIndex {A : Type} (n : nat) (f : nat -> A) : list A :=
  map f (seq 0 n).

Section Assembler.

Variable toLowerCase : jsstring -> jsstring.

(** Body of the row loop after the column-count test: decode the five
    answer blocks and score them. *)
Definition buildRespondent (columns : list jsstring) : Respondent :=
  let timestamp := column columns 0 in
  let email := column columns 1 in
  let age := column columns 2 in
  let sanAnswers :=
    forEachIndex 30 (fun i =>
      let questionNum := Z.of_nat i + 1 in
      let rawValue := column columns (3 + i) in
      let isReversed := includesZ reversedQuestions questionNum in
      convertSanAnswer toLowerCase rawValue isReversed questionNum email) in
  let san :=
    {| wellbeing := calculateAverage sanAnswers wellbeingQuestions;
       activity := calculateAverage sanAnswers activityQuestions;
       mood := calculateAverage sanAnswers moodQuestions |} in
  let shtepaAnswers :=
    forEachIndex 67 (fun i =>
      let questionNum := Z.of_nat i + 1 in
      let rawValue := column columns (33 + i) in
      convertShtepaAnswer toLowerCase rawValue questionNum email) in
  let shtepa := calculateShtepaResults shtepaAnswers in
  let basicPhAnswers :=
    forEachIndex 36 (fun i =>
      let questionNum := Z.of_nat i + 1 in
      let rawValue := column columns (100 + i) in
      convertBasicPhAnswer toLowerCase rawValue questionNum email) in
  let basicPh := calculateBasicPhResults basicPhAnswers in
  let personalResourceAnswers :=
    forEachIndex 13 (fun i =>
      let questionNum := Z.of_nat i + 1 in
      let rawValue := column columns (136 + i) in
      convertPersonalResourceAnswer toLowerCase rawValue questionNum email) in
  let personalResource :=
    calculatePersonalResourceResults personalResourceAnswers in
  let ryffAnswers :=
    forEachIndex 84 (fun i =>
      let questionNum := Z.of_nat i + 1 in
      let rawValue := column columns (149 + i) in
      convertRyffAnswer toLowerCase rawValue questionNum email) in
  let ryff := calculateRyffResults ryffAnswers in
  {| timestamp := timestamp;
     email := email;
     age := age;
     sanAnswers := sanAnswers;
     san := san;
     shtepaAnswers := shtepaAnswers;
     shtepa := shtepa;
     basicPhAnswers := basicPhAnswers;
     basicPh := basicPh;
     personalResourceAnswers := personalResourceAnswers;
     personalResource := personalResource;
     ryffAnswers := ryffAnswers;
     ryff := ryff |}.

(** One iteration of [for (const line of dataRows)]: a row with too few
    columns is skipped ([continue]), any other row pushes one record. *)
Definition processRow (respondents : list Respondent) (line : jsstring)
    : list Respondent :=
  let columns := parseCSVLine line in
  if Z.of_nat (List.length columns) <? minColumns then respondents
  else respondents ++ [buildRespondent columns].

(** [content.split('\n').filter((line) => line.trim() !== '')] *)
Definition nonBlankLines (content : jsstring) : list jsstring :=
  filter (fun line => negb (Js.eqb (Js.trim line) Js.empty))
         (Js.split_lines content).

Definition parseAndTransformCSV (content : jsstring) (this : AppComponent)
    : AppComponent :=
  let lines := nonBlankLines content in
  if Z.of_nat (List.length lines) <? 2 then
    {| respondents := respondents this;
       errorMessage :=
         u "CSV file must have a header and at least one data row" |}
  else
    let dataRows := tl lines in
    let respondents := fold_left processRow dataRows [] in
    if Z.of_nat (List.length respondents) =? 0 then
      {| respondents := respondents;
         errorMessage := u "No valid data rows found in CSV" |}
    else
      {| respondents := respondents; errorMessage := errorMessage this |}.

(** [handleFile] on the path where the reader delivers [content]: the
    file-name test, the reset of the message, then the [onload] callback.
    Reading the file itself is outside the embedding. *)
Definition handleFile (name content : jsstring) (this : AppComponent)
    : AppComponent :=
  if negb (Js.endsWith name (u ".csv")) then
    {| respondents := respondents this;
       errorMessage := u "Please upload a CSV file" |}
  else
    parseAndTransformCSV content
      {| respondents := respondents this; errorMessage := Js.empty |}.

End Assembler.

(** The component as constructed: no respondent, no message. *)
Definition initialComponent : AppComponent :=
  {| respondents := []; errorMessage := Js.empty |}.

(* ================================================================== *)
(** ** Ryff detail modal *)
(* ================================================================== *)

(** One row of the question-by-question breakdown.  [dq_rawAnswer] is
    [None] when the answer array has no entry for the question
    ([undefined]); [dq_finalAnswer] is then [NaN] as far as arithmetic
    goes. *)
Record RyffDetailQuestion : Type := {
  dq_num : Z;
  dq_rawAnswer : option Z;
  dq_finalAnswer : number;
  dq_isReversed : bool
}.

(** The four fields of the component that belong to the modal. *)
Record RyffDetail : Type := {
  showRyffDetailModal : bool;
  ryffDetailRespondent : option Respondent;
  ryffDetailCategory : jsstring;
  ryffDetailQuestions : list RyffDetailQuestion
}.

(** The modal as constructed. *)
Definition initialRyffDetail : RyffDetail :=
  {| showRyffDetailModal := false;
     ryffDetailRespondent := None;
     ryffDetailCategory := Js.empty;
     ryffDetailQuestions := [] |}.

(** The own properties of the [ryffCategories] object. *)
Definition ryffCategoriesEntries : list (jsstring * RyffCategoryDefinition) :=
  [(u "relationships", ryffCategories.relationships);
   (u "autonomy", ryffCategories.autonomy);
   (u "environment", ryffCategories.environment);
   (u "growth", ryffCategories.growth);
   (u "purpose", ryffCategories.purpose);
   (u "selfAcceptance", ryffCategories.selfAcceptance)].

(** The property names every object inherits from [Object.prototype]. *)
Definition objectPrototypeKeys : list jsstring :=
  [u "constructor"; u "__defineGetter__"; u "__defineSetter__";
   u "hasOwnProperty"; u "__lookupGetter__"; u "__lookupSetter__";
   u "isPrototypeOf"; u "propertyIsEnumerable"; u "toString"; u "valueOf";
   u "__proto__"; u "toLocaleString"].

Fixpoint entryOf {A : Type} (entries : list (jsstring * A)) (key : jsstring)
    : option A :=
  match entries with
  | [] => None
  | (k, v) :: entries' =>
    if Js.eqb key k then Some v else entryOf entries' key
  end.

(** What a call leaves behind: the component after a normal return, or
    an uncaught [TypeError]. *)
Inductive Outcome : Type :=
| Returned (this : RyffDetail)
| TypeError.

(** [openRyffDetail].  For a key that names an inherited property the
    lookup yields a value without [questions], and [.map] throws. *)
Definition openRyffDetail (respondent : Respondent) (categoryKey : jsstring)
    (this : RyffDetail) : Outcome :=
  match entryOf ryffCategoriesEntries categoryKey with
  | Some categoryDef =>
    Returned
      {| showRyffDetailModal := true;
         ryffDetailRespondent := Some respondent;
         ryffDetailCategory := rcd_name categoryDef;
         ryffDetailQuestions :=
           map (fun q =>
                  let rawAnswer :=
                    at_index (ryffAnswers respondent) (rq_num q - 1) in
                  let finalAnswer :=
                    finalAnswer q (num_at (ryffAnswers respondent)
                                          (rq_num q - 1)) in
                  {| dq_num := rq_num q;
                     dq_rawAnswer := rawAnswer;
                     dq_finalAnswer := finalAnswer;
                     dq_isReversed := isReversed q |})
               (rcd_questions categoryDef) |}
  | None =>
    if existsb (Js.eqb categoryKey) objectPrototypeKeys then TypeError
    else
      Returned
        {| showRyffDetailModal := showRyffDetailModal this;
           ryffDetailRespondent := Some respondent;
           ryffDetailCategory := ryffDetailCategory this;
           ryffDetailQuestions := ryffDetailQuestions this |}
  end.

Definition closeRyffDetail (this : RyffDetail) : RyffDetail :=
  {| showRyffDetailModal := false;
     ryffDetailRespondent := None;
     ryffDetailCategory := Js.empty;
     ryffDetailQuestions := [] |}.

(** The getter [ryffDetailTotal]. *)
Definition ryffDetailTotal (this : RyffDetail) : number :=
  fold_left (fun sum q => nadd sum (dq_finalAnswer q))
            (ryffDetailQuestions this) (Num 0).

(* ================================================================== *)
(** ** Vocabulary of the statements *)
(* ================================================================== *)

(** Sum of a list of integers. *)
Definition sumZ (l : list Z) : Z := fold_right Z.add 0 l.

(** The answer to question [qNum] of a complete answer array. *)
Definition answerTo (answers : list Z) (qNum : Z) : Z :=
  nth (Z.to_nat (qNum - 1)) answers 0.

(** Sum of the answers to the questions of a list. *)
Definition sumOver (answers : list Z) (questions : list Z) : Z :=
  sumZ (map (answerTo answers) questions).

(** Every question number of [questions] has a slot in [answers]. *)
Definition inRange (answers : list Z) (questions : list Z) : Prop :=
  Forall (fun qNum => 1 <= qNum <= Z.of_nat (List.length answers)) questions.

(** The six Ryff category definitions, in the order they are scored. *)
Definition ryffCategoryList : list RyffCategoryDefinition :=
  [ryffCategories.relationships; ryffCategories.autonomy;
   ryffCategories.environment; ryffCategories.growth;
   ryffCategories.purpose; ryffCategories.selfAcceptance].

(** Names of the three bands, lowest first: the level labels and the
    level classes. *)
Definition bandLabels : jsstring * jsstring * jsstring :=
  (u "Низький", u "Середній", u "Високий").

Definition bandClasses : jsstring * jsstring * jsstring :=
  (u "low", u "medium", u "high").

(** [name] is the band of [score] for the bounds [low] and [high], both
    bounds belonging to the middle band. *)
Definition threeWay (names : jsstring * jsstring * jsstring)
    (name : jsstring) (score low high : Z) : Prop :=
  let '(lowName, mediumName, highName) := names in
  (score = low -> name = mediumName)
  /\ (score = high -> name = mediumName)
  /\ (name = lowName <-> score < low)
  /\ (name = highName <-> high < score)
  /\ (name = mediumName <-> low <= score <= high).

(** A complete Ryff answer array whose "Відносини" subtotal is 53: every
    answer is 1 but those to questions 1, 19, 25 and 37, which are 2. *)
Definition ryffAnswersAtLowBound : list Z :=
  forEachIndex 84 (fun i =>
    if includesZ [1; 19; 25; 37] (Z.of_nat i + 1) then 2 else 1).

(** All the question numbers of the Basic Ph categories, category after
    category. *)
Definition basicPhQuestionNumbers : list Z :=
  List.concat (map bcd_questions basicPhCategories).

(** The question numbers 1..n. *)
Definition questionNumbers (n : nat) : list Z :=
  map (fun i => Z.of_nat i + 1) (seq 0 n).

(** Removes the first occurrence of [x]; [None] when there is none. *)
Fixpoint removeFirst (x : Z) (l : list Z) : option (list Z) :=
  match l with
  | [] => None
  | y :: l' =>
    if x =? y then Some l'
    else match removeFirst x l' with
         | Some r => Some (y :: r)
         | None => None
         end
  end.

(** Decides whether two lists hold the same numbers, each the same
    number of times. *)
Fixpoint samePartition (l l' : list Z) : bool :=
  match l with
  | [] => match l' with [] => true | _ => false end
  | x :: r =>
    match removeFirst x l' with
    | Some r' => samePartition r r'
    | None => false
    end
  end.

(** Number of Basic Ph categories that list question [qNum]. *)
Definition categoriesOf (qNum : Z) : nat :=
  List.length
    (filter (fun catDef => includesZ (bcd_questions catDef) qNum)
            basicPhCategories).

(** The column-count test of the row loop. *)
Definition hasEnoughColumns (line : jsstring) : bool :=
  minColumns <=? Z.of_nat (List.length (parseCSVLine line)).

(** A data line of 232 commas: 233 empty fields. *)
Definition emptyRow : jsstring := repeat 44%N 232.

(** A header, a 233-field row, a 3-field row and another 233-field row. *)
Definition sampleContent : jsstring :=
  u "Timestamp,Email,Age" ++ [10%N] ++ emptyRow ++ [10%N]
    ++ u "2024-01-01,a@b,30" ++ [10%N] ++ emptyRow.

(** A header line followed by a line break and nothing else. *)
Definition headerOnlyContent : jsstring := u "Timestamp,Email,Age" ++ [10%N].

(** The first Штепа category and the thirteen others. *)
Definition firstCategory : CategoryDefinition :=
  hd {| cd_name := Js.empty; cd_questions := [] |} shtepaCategories.

Definition otherCategories : list CategoryDefinition := tl shtepaCategories.

(** The slots of the other categories, category after category. *)
Definition otherSlots : list ShtepaQuestion :=
  List.concat (map cd_questions otherCategories).

(** The decoded answer to the question of slot [q] is the expected one,
    respectively the opposite one. *)
Definition matchesSlot (answers : list bool) (q : ShtepaQuestion) : Prop :=
  at_index answers (sq_num q - 1) = Some (expected q).

Definition mismatchesSlot (answers : list bool) (q : ShtepaQuestion) : Prop :=
  at_index answers (sq_num q - 1) = Some (negb (expected q)).

(** The question of slot [q] is one of the first category's questions. *)
Definition inFirstCategory (q : ShtepaQuestion) : bool :=
  existsb (fun q' => sq_num q' =? sq_num q) (cd_questions firstCategory).

(** The point a slot contributes to its category. *)
Definition slotPoint (answers : list bool) (q : ShtepaQuestion) : Z :=
  match at_index answers (sq_num q - 1) with
  | Some actualAnswer => if Bool.eqb actualAnswer (expected q) then 1 else 0
  | None => 0
  end.

(** Answers that give the first category its 8 expected values and give
    every other question the opposite of the value its slots expect
    (questions that no category lists are answered "Ні"). *)
Definition scenarioAnswers : list bool :=
  forEachIndex 67 (fun i =>
    let qNum := Z.of_nat i + 1 in
    match find (fun q => sq_num q =? qNum) (cd_questions firstCategory) with
    | Some q => expected q
    | None =>
      match find (fun q => sq_num q =? qNum) otherSlots with
      | Some q => negb (expected q)
      | None => false
      end
    end).

(** A 233-field row whose Штепа block spells [scenarioAnswers]; the
    other fields are empty. *)
Definition scenarioRow : list jsstring :=
  repeat Js.empty 33
    ++ map (fun b : bool => if b then u "Так" else u "Ні") scenarioAnswers
    ++ repeat Js.empty 133.

(** The values of a list lie on the scale [lo..hi]. *)
Definition onScale (lo hi : Z) (answers : list Z) : Prop :=
  Forall (fun a => lo <= a <= hi) answers.

(** A non-empty string of decimal digits. *)
Definition isDecimal (s : jsstring) : Prop :=
  s <> [] /\ Forall (fun c => Js.isDigit c = true) s.

(** The negative САН keywords that contain a positive keyword. *)
Definition shadowedNegativeKeywords : list jsstring :=
  [u "малорухливий"; u "малопрацездатний"; u "маловитривалий";
   u "неуважний"; u "незадоволений"].

(** The string is not empty and does not begin with a decimal digit. *)
Definition startsWithNonDigit (s : jsstring) : bool :=
  match s with
  | [] => false
  | c :: _ => negb (Js.isDigit c)
  end.

(** The text is trimmed and holds no quote character. *)
Definition cleanField (field : jsstring) : Prop :=
  Js.trim field = field /\ ~ In 34%N field.

(** [fields.join(',')] *)
Fixpoint joinFields (fields : list jsstring) : jsstring :=
  match fields with
  | [] => []
  | [field] => field
  | field :: rest => field ++ 44%N :: joinFields rest
  end.

(** A field as it is written in a line: between quotes, or plain. *)
Definition writeField (quoted : bool) (field : jsstring) : jsstring :=
  if quoted then 34%N :: field ++ [34%N] else field.

(** A field that can be written that way and read back: trimmed, free of
    quotes and, when written plain, free of commas. *)
Definition writable (quoted : bool) (field : jsstring) : Prop :=
  cleanField field /\ (quoted = false -> ~ In 44%N field).

(** Every character is white space. *)
Definition blank (s : jsstring) : Prop :=
  Forall (fun c => Js.isWhiteSpace c = true) s.

(** The content with every line feed turned into carriage return, line
    feed. *)
Fixpoint crlf (content : jsstring) : jsstring :=
  match content with
  | [] => []
  | c :: content' =>
    if (c =? 10)%N then 13%N :: 10%N :: crlf content' else c :: crlf content'
  end.

(** The answers with every "Так" turned into "Ні" and back. *)
Definition oppositeAnswers (answers : list bool) : list bool :=
  map negb answers.

(** The answers mirrored on the six-point scale: 1 for 6, 2 for 5, ... *)
Definition mirroredAnswers (answers : list Z) : list Z :=
  map (fun a => 7 - a) answers.

(** What the slot [q] of a Ryff category adds for a complete answer
    array. *)
Definition finalOf (answers : list Z) (q : RyffQuestion) : Z :=
  if isReversed q then 7 - answerTo answers (rq_num q)
  else answerTo answers (rq_num q).

(** The slots of the six Ryff categories, category after category, and
    the numbers of the reversed questions among them. *)
Definition ryffSlots : list RyffQuestion :=
  List.concat (map rcd_questions ryffCategoryList).

Definition ryffReversedQuestions : list Z :=
  map rq_num (filter isReversed ryffSlots).

(** Every slot of [questions] has an entry in an array of [n] answers. *)
Definition slotsWithin (n : nat) (questions : list Z) : bool :=
  forallb (fun qNum => (1 <=? qNum) && (qNum <=? Z.of_nat n)) questions.

(** The score is a number within [lo..hi]. *)
Definition numberWithin (lo hi : Z) (score : number) : Prop :=
  exists s, score = Num s /\ lo <= s <= hi.

(** What holds of every record the assembler builds: the five answer
    arrays have their fixed lengths and stay on their scales, the results
    are those of the stored answers, and every total is a number within
    the range of its test. *)
Record wellFormed (r : Respondent) : Prop := {
  wf_san : List.length (sanAnswers r) = 30%nat /\ onScale 1 7 (sanAnswers r);
  wf_shtepa : List.length (shtepaAnswers r) = 67%nat;
  wf_basicPh :
    List.length (basicPhAnswers r) = 36%nat /\ onScale 0 6 (basicPhAnswers r);
  wf_personalResource :
    List.length (personalResourceAnswers r) = 13%nat
    /\ onScale 1 5 (personalResourceAnswers r);
  wf_ryff : List.length (ryffAnswers r) = 84%nat /\ onScale 1 6 (ryffAnswers r);
  wf_shtepa_result : shtepa r = calculateShtepaResults (shtepaAnswers r);
  wf_basicPh_result : basicPh r = calculateBasicPhResults (basicPhAnswers r);
  wf_personalResource_result :
    personalResource r
    = calculatePersonalResourceResults (personalResourceAnswers r);
  wf_ryff_result : ryff r = calculateRyffResults (ryffAnswers r);
  wf_shtepa_total : 0 <= shtepa_totalScore (shtepa r) <= 112;
  wf_basicPh_total : numberWithin 0 216 (bph_totalScore (basicPh r));
  wf_personalResource_total :
    numberWithin (-5) 47 (pr_totalScore (personalResource r));
  wf_ryff_total : numberWithin 84 504 (ryff_totalScore (ryff r))
}.

(** The category of a Ryff result that a key of [ryffCategories] names. *)
Definition ryffResultEntries (r : RyffResult) : list (jsstring * RyffCategory) :=
  [(u "relationships", relationships r);
   (u "autonomy", autonomy r);
   (u "environment", environment r);
   (u "growth", growth r);
   (u "purpose", purpose r);
   (u "selfAcceptance", selfAcceptance r)].

(* ================================================================== *)
(** * Properties *)
(* ================================================================== *)

(** ** Strings *)

Lemma js_eqb_spec (a b : jsstring) : reflect (a = b) (Js.eqb a b).
Proof.
  revert b; induction a as [|x a IH]; intros [|y b]; simpl;
    try (constructor; congruence).
  destruct (N.eqb_spec x y) as [->|Hxy]; simpl.
  - destruct (IH b) as [->|Hab]; constructor; congruence.
  - constructor; congruence.
Qed.

Lemma js_eqb_neq (a b : jsstring) : a <> b -> Js.eqb a b = false.
Proof. intros H; destruct (js_eqb_spec a b); congruence. Qed.

(** Stripping removes a character exactly when some character is not a
    digit. *)
Lemma strip_shorter_iff_marker (s : jsstring) :
  (Js.length (Js.stripNonDigits s) <? Js.length s)
  = existsb (fun c => negb (Js.isDigit c)) s.
Proof.
  unfold Js.length, Js.stripNonDigits.
  induction s as [|c s IH]; [reflexivity|].
  simpl filter; simpl existsb.
  destruct (Js.isDigit c); simpl negb; simpl orb.
  - rewrite <- IH. simpl List.length.
    destruct (Z.ltb_spec (Z.of_nat (List.length (filter Js.isDigit s)))
                         (Z.of_nat (List.length s)));
    destruct (Z.ltb_spec
                (Z.of_nat (S (List.length (filter Js.isDigit s))))
                (Z.of_nat (S (List.length s)))); try reflexivity; lia.
  - pose proof (filter_length_le Js.isDigit s) as Hle.
    apply Z.ltb_lt. simpl List.length. lia.
Qed.

(** [trimStart] leaves a string alone exactly when it does not begin
    with white space. *)
Lemma trimStart_length (s : jsstring) :
  (List.length (Js.trimStart s) <= List.length s)%nat.
Proof.
  induction s as [|c s IH]; simpl; [lia|].
  destruct (Js.isWhiteSpace c); simpl; lia.
Qed.

Lemma trimStart_fixed_iff (c : N) (s : jsstring) :
  Js.trimStart (c :: s) = c :: s <-> Js.isWhiteSpace c = false.
Proof.
  simpl. destruct (Js.isWhiteSpace c); split; try congruence.
  intros H. pose proof (trimStart_length s) as Hl. rewrite H in Hl.
  simpl in Hl. lia.
Qed.

Lemma trimStart_idempotent (s : jsstring) :
  Js.trimStart (Js.trimStart s) = Js.trimStart s.
Proof.
  induction s as [|c s IH]; [reflexivity|].
  simpl. destruct (Js.isWhiteSpace c) eqn:E; [exact IH|].
  now apply trimStart_fixed_iff.
Qed.

Lemma trimStart_suffix (s : jsstring) :
  exists ws, s = ws ++ Js.trimStart s.
Proof.
  induction s as [|c s [ws IH]]; [now exists []|].
  simpl. destruct (Js.isWhiteSpace c).
  - exists (c :: ws). simpl. now rewrite <- IH.
  - now exists [].
Qed.

(** Trimming the end keeps a string free of leading white space. *)
Lemma trimEnd_keeps_start (t : jsstring) :
  Js.trimStart t = t -> Js.trimStart (Js.trimEnd t) = Js.trimEnd t.
Proof.
  intros Ht. unfold Js.trimEnd.
  destruct (trimStart_suffix (rev t)) as [ws Hws].
  set (r := Js.trimStart (rev t)) in *.
  assert (Et : t = rev r ++ rev ws).
  { rewrite <- rev_app_distr, <- Hws. now rewrite rev_involutive. }
  destruct (rev r) as [|c k]; [reflexivity|].
  apply trimStart_fixed_iff.
  rewrite Et in Ht. simpl app in Ht. now apply trimStart_fixed_iff in Ht.
Qed.

(** [trim] is idempotent, so a field that was trimmed by the tokenizer is
    the [normalized] text of the decoders. *)
Lemma trim_idempotent (s : jsstring) : Js.trim (Js.trim s) = Js.trim s.
Proof.
  unfold Js.trim.
  rewrite (trimEnd_keeps_start (Js.trimStart s) (trimStart_idempotent s)).
  unfold Js.trimEnd at 1 2.
  rewrite rev_involutive, trimStart_idempotent. reflexivity.
Qed.

Lemma parseCSVLine_fields_trimmed (line : jsstring) :
  Forall (fun field => Js.trim field = field) (parseCSVLine line).
Proof.
  unfold parseCSVLine.
  set (st0 := {| result := []; current := []; inQuotes := false |}).
  assert (G : forall st,
             Forall (fun field => Js.trim field = field) (result st) ->
             Forall (fun field => Js.trim field = field)
                    (result (fold_left parseCSVStep line st))).
  { induction line as [|c line IH]; intros st Hst; [exact Hst|].
    cbn [fold_left]. apply IH. unfold parseCSVStep.
    destruct (c =? 34)%N; [exact Hst|].
    destruct ((c =? 44)%N && negb (inQuotes st)); [|exact Hst].
    cbn [result]. apply Forall_app. split; [exact Hst|].
    constructor; [apply trim_idempotent | constructor]. }
  apply Forall_app. split.
  - apply G. constructor.
  - constructor; [apply trim_idempotent | constructor].
Qed.

(** ** Numbers *)

Lemma nadd_Num (x y : Z) : nadd (Num x) (Num y) = Num (x + y).
Proof. reflexivity. Qed.

Lemma at_index_in_range {A : Type} (arr : list A) (i : Z) (d : A) :
  0 <= i < Z.of_nat (List.length arr) ->
  at_index arr i = Some (nth (Z.to_nat i) arr d).
Proof.
  intros [H0 H1]. unfold at_index.
  destruct (Z.ltb_spec i 0); [lia|].
  apply nth_error_nth'. lia.
Qed.

Lemma num_at_in_range (answers : list Z) (i : Z) :
  0 <= i < Z.of_nat (List.length answers) ->
  num_at answers i = Num (nth (Z.to_nat i) answers 0).
Proof.
  intros H. unfold num_at. now rewrite (at_index_in_range answers i 0 H).
Qed.

(** ** Sums over question lists *)

Lemma addAnswers_in_range (answers : list Z) (questions : list Z) (s : Z) :
  inRange answers questions ->
  addAnswers answers questions (Num s)
  = Num (s + sumOver answers questions).
Proof.
  unfold inRange, addAnswers, sumOver. revert s.
  induction questions as [|q qs IH]; intros s Hr.
  - cbn. f_equal. lia.
  - inversion Hr as [|? ? Hq Hqs]; subst.
    cbn [fold_left]. rewrite num_at_in_range by lia. rewrite nadd_Num.
    rewrite IH by assumption. f_equal.
    change (sumZ (map (answerTo answers) (q :: qs)))
      with (answerTo answers q + sumZ (map (answerTo answers) qs)).
    unfold answerTo at 2. lia.
Qed.

Ltac in_range_by_length H :=
  unfold inRange; rewrite H; repeat constructor; lia.

(** ** The decoders on the answers of the questionnaire *)

(** The conversion table of САН, on a question that is not reversed. *)
Example san_table :
  map (fun rawValue =>
         convertSanAnswer Js.toLowerCaseUk rawValue false 1 (u "a@b"))
      [u "3 (самопочуття добре)"; u "2ㅤ"; u "1ㅤ"; u "0"; u "1"; u "2";
       u "3 (самопочуття погане)"]
  = [7; 6; 5; 4; 3; 2; 1].
Proof. reflexivity. Qed.

(** On a reversed question the inner points swap sides. *)
Example san_table_reversed :
  map (fun rawValue =>
         convertSanAnswer Js.toLowerCaseUk rawValue true 3 (u "a@b"))
      [u "2ㅤ"; u "1ㅤ"; u "0"; u "1"; u "2"]
  = [2; 3; 4; 5; 6].
Proof. reflexivity. Qed.

Example shtepa_answers :
  map (fun rawValue => convertShtepaAnswer Js.toLowerCaseUk rawValue 1 (u "a@b"))
      [u "Так"; u "+"; u "Ні"; u "-"; u "може"]
  = [true; true; false; false; false].
Proof. reflexivity. Qed.

Example basicPh_answers :
  map (fun rawValue => convertBasicPhAnswer Js.toLowerCaseUk rawValue 1 (u "a@b"))
      [u "Ніколи не користуюся цим способом, щоб впоратися зі складною ситуацією";
       u "Майже завжди користуюся цим способом, щоб впоратися зі складною ситуацією";
       u "Завжди користуюся цим способом, щоб впоратися зі складною ситуацією";
       u "Завжди"; u "4"; u "7"; Js.empty]
  = [0; 5; 6; 6; 4; 0; 0].
Proof. reflexivity. Qed.

Example personalResource_answers :
  map (fun rawValue =>
         convertPersonalResourceAnswer Js.toLowerCaseUk rawValue 1 (u "a@b"))
      [u "Повністю не погоджуюсь"; u "Частково не погоджусь";
       u "Важко визначитися"; u "Частково погоджуюсь";
       u "Повністю погоджуюсь"; u "2"; u "9"]
  = [1; 2; 3; 4; 5; 2; 3].
Proof. reflexivity. Qed.

Example ryff_answers :
  map (fun rawValue => convertRyffAnswer Js.toLowerCaseUk rawValue 1 (u "a@b"))
      [u "Повністю не згоден"; u "Здебільшого не згоден";
       u "Де в чому не згоден"; u "Де в чому згоден"; u "Швидше згоден";
       u "Повністю згоден"; u "6"; u "0"]
  = [1; 2; 3; 4; 5; 6; 6; 3].
Proof. reflexivity. Qed.

(** A quoted field keeps its comma; every field is trimmed. *)
Example parseCSVLine_quoted :
  parseCSVLine (u "2024-01-01, a@b ," ++ [34%N] ++ u "3 (добре, так)"
                  ++ [34%N] ++ u ",0")
  = [u "2024-01-01"; u "a@b"; u "3 (добре, так)"; u "0"].
Proof. reflexivity. Qed.

(** ** САН decoder *)

Section SanDecoder.

Variable toLowerCase : jsstring -> jsstring.

(** Whatever the text, the decoded САН answer is one of the seven scale
    points. *)
Lemma convertSanAnswer_range (rawValue : jsstring) (isReversed : bool)
    (questionNum : Z) (email : jsstring) :
  1 <= convertSanAnswer toLowerCase rawValue isReversed questionNum email <= 7.
Proof.
  unfold convertSanAnswer.
  repeat match goal with
         | |- context [if ?b then _ else _] => destruct b
         end; lia.
Qed.

(** C1. For a САН field whose trimmed text does not begin with "3 (" or
    "3(", let [bare] be the text with every non-digit character removed
    and let [marker] say whether the text holds a character that is not a
    digit.  Then a bare "0" decodes to 4; a bare "1" decodes to 3 without
    marker and to 5 with it (5 and 3 on a reversed question); a bare "2"
    decodes to 2 without marker and to 6 with it (6 and 2 when reversed);
    anything else, a bare "3" included, decodes to the default 4.  The
    result always lies in 1..7. *)
Theorem convertSanAnswer_bare_digit (rawValue : jsstring) (isReversed : bool)
    (questionNum : Z) (email : jsstring) :
  let normalized := Js.trim rawValue in
  let bare := Js.stripNonDigits normalized in
  let marker := existsb (fun c => negb (Js.isDigit c)) normalized in
  let decoded :=
    convertSanAnswer toLowerCase rawValue isReversed questionNum email in
  Js.startsWith normalized (u "3 (") = false ->
  Js.startsWith normalized (u "3(") = false ->
  (bare = u "0" -> decoded = 4) /\
  (bare = u "1" ->
   decoded = match marker, isReversed with
             | false, false => 3
             | true, false => 5
             | false, true => 5
             | true, true => 3
             end) /\
  (bare = u "2" ->
   decoded = match marker, isReversed with
             | false, false => 2
             | true, false => 6
             | false, true => 6
             | true, true => 2
             end) /\
  (bare = u "3" -> decoded = 4) /\
  (bare <> u "0" -> bare <> u "1" -> bare <> u "2" -> decoded = 4) /\
  1 <= decoded <= 7.
Proof.
  intros normalized bare marker decoded H1 H2.
  assert (Hd : decoded =
    if Js.eqb bare (u "0") then 4
    else if Js.eqb bare (u "1") then
      if marker && (0 <? Js.length bare)
      then (if isReversed then 3 else 5)
      else if isReversed then 5 else 3
    else if Js.eqb bare (u "2") then
      if marker && (0 <? Js.length bare)
      then (if isReversed then 2 else 6)
      else if isReversed then 6 else 2
    else 4).
  { subst decoded. unfold convertSanAnswer.
    fold normalized. rewrite H1, H2. simpl orb. cbv iota.
    fold bare. unfold marker.
    rewrite <- (strip_shorter_iff_marker normalized). fold bare.
    destruct (Js.eqb bare (u "3")); reflexivity. }
  repeat split.
  - intros Hb. rewrite Hd, Hb. reflexivity.
  - intros Hb. rewrite Hd, Hb.
    change (Js.eqb (u "1") (u "0")) with false.
    change (Js.eqb (u "1") (u "1")) with true.
    change (0 <? Js.length (u "1")) with true.
    rewrite andb_true_r. destruct marker, isReversed; reflexivity.
  - intros Hb. rewrite Hd, Hb.
    change (Js.eqb (u "2") (u "0")) with false.
    change (Js.eqb (u "2") (u "1")) with false.
    change (Js.eqb (u "2") (u "2")) with true.
    change (0 <? Js.length (u "2")) with true.
    rewrite andb_true_r. destruct marker, isReversed; reflexivity.
  - intros Hb. rewrite Hd, Hb. reflexivity.
  - intros H0' H1' H2'. rewrite Hd.
    rewrite (js_eqb_neq _ _ H0'), (js_eqb_neq _ _ H1'), (js_eqb_neq _ _ H2').
    reflexivity.
  - apply convertSanAnswer_range.
  - apply convertSanAnswer_range.
Qed.

End SanDecoder.

(** The text "1ㅤ" (digit one followed by the Hangul filler U+3164) on a
    question that is not reversed decodes to 5. *)
Lemma convertSanAnswer_bare_digit_witness :
  convertSanAnswer Js.toLowerCaseUk (u "1ㅤ") false 1 (u "a@b") = 5.
Proof.
  exact (proj1 (proj2
    (convertSanAnswer_bare_digit Js.toLowerCaseUk (u "1ㅤ") false 1 (u "a@b")
       eq_refl eq_refl)) eq_refl).
Defined.

(** ** Personal Resources: the total formula *)

(** C3. For a 13-element answer array the three subtotals are the sums
    of the answers to the questions of their category, and the total is
    Sufficiency + Coping - Exhaustion.  A total in 15..30 is classified
    "Середній" (class medium); in particular subtotals 25, 10 and 5 give
    the total 30, which is "Середній". *)
Theorem personalResource_total_formula (answers : list Z) :
  let r := calculatePersonalResourceResults answers in
  List.length answers = 13%nat ->
  exists s c e : Z,
    s = sumOver answers personalResourceSufficiencyQuestions
    /\ c = sumOver answers personalResourceCopingQuestions
    /\ e = sumOver answers personalResourceExhaustionQuestions
    /\ pr_score (sufficiency r) = Num s
    /\ pr_score (copingStrategies r) = Num c
    /\ pr_score (emotionalExhaustion r) = Num e
    /\ pr_totalScore r = Num (s + c - e)
    /\ (15 <= s + c - e <= 30 ->
        pr_totalLevel r = u "Середній" /\ pr_totalLevelClass r = u "medium")
    /\ (s = 25 -> c = 10 -> e = 5 ->
        pr_totalScore r = Num 30
        /\ pr_totalLevel r = u "Середній"
        /\ pr_totalLevelClass r = u "medium").
Proof.
  intros r Hlen.
  exists (sumOver answers personalResourceSufficiencyQuestions),
         (sumOver answers personalResourceCopingQuestions),
         (sumOver answers personalResourceExhaustionQuestions).
  assert (Hs : addAnswers answers personalResourceSufficiencyQuestions (Num 0)
               = Num (sumOver answers personalResourceSufficiencyQuestions)).
  { rewrite addAnswers_in_range; [reflexivity|].
    unfold personalResourceSufficiencyQuestions. in_range_by_length Hlen. }
  assert (Hc : addAnswers answers personalResourceCopingQuestions (Num 0)
               = Num (sumOver answers personalResourceCopingQuestions)).
  { rewrite addAnswers_in_range; [reflexivity|].
    unfold personalResourceCopingQuestions. in_range_by_length Hlen. }
  assert (He : addAnswers answers personalResourceExhaustionQuestions (Num 0)
               = Num (sumOver answers personalResourceExhaustionQuestions)).
  { rewrite addAnswers_in_range; [reflexivity|].
    unfold personalResourceExhaustionQuestions. in_range_by_length Hlen. }
  set (s := sumOver answers personalResourceSufficiencyQuestions) in *.
  set (c := sumOver answers personalResourceCopingQuestions) in *.
  set (e := sumOver answers personalResourceExhaustionQuestions) in *.
  assert (Ht : pr_totalScore r = Num (s + c - e)).
  { subst r. unfold calculatePersonalResourceResults.
    cbn [pr_totalScore]. rewrite Hs, Hc, He. reflexivity. }
  assert (Hl : 15 <= s + c - e <= 30 ->
               pr_totalLevel r = u "Середній"
               /\ pr_totalLevelClass r = u "medium").
  { intros Hb. subst r. unfold calculatePersonalResourceResults.
    cbn [pr_totalLevel pr_totalLevelClass]. rewrite Hs, Hc, He.
    cbn [nadd nsub]. unfold personalResourceTotalLevel. cbn [nltb nleb].
    destruct (Z.ltb_spec (s + c - e) 15); [lia|].
    destruct (Z.leb_spec (s + c - e) 30); [|lia].
    split; reflexivity. }
  split; [reflexivity|]. split; [reflexivity|]. split; [reflexivity|].
  split; [exact Hs|]. split; [exact Hc|]. split; [exact He|].
  split; [exact Ht|]. split; [exact Hl|].
  intros E1 E2 E3. split.
  - rewrite Ht. f_equal. lia.
  - apply Hl. lia.
Qed.

(** Answers with Sufficiency 25, Coping 10 and Exhaustion 5. *)
Lemma personalResource_total_formula_witness :
  let r := calculatePersonalResourceResults [5; 4; 3; 4; 4; 3; 2; 2; 4; 4; 2; 2; 1] in
  pr_score (sufficiency r) = Num 25
  /\ pr_score (copingStrategies r) = Num 10
  /\ pr_score (emotionalExhaustion r) = Num 5
  /\ pr_totalScore r = Num 30
  /\ pr_totalLevel r = u "Середній".
Proof.
  destruct (personalResource_total_formula
              [5; 4; 3; 4; 4; 3; 2; 2; 4; 4; 2; 2; 1] eq_refl)
    as (s & c & e & Hs & Hc & He & H1 & H2 & H3 & _ & _ & H).
  vm_compute in Hs, Hc, He. subst s c e.
  destruct (H eq_refl eq_refl eq_refl) as (Ht & Hl & _).
  repeat split; assumption.
Defined.

(** ** Штепа: a fully matched first category *)

Lemma shtepaScore_sum (answers : list bool) (questions : list ShtepaQuestion) :
  shtepaScore answers questions = sumZ (map (slotPoint answers) questions).
Proof.
  unfold shtepaScore.
  assert (G : forall score,
             fold_left
               (fun score q =>
                  let answerIndex := sq_num q - 1 in
                  match at_index answers answerIndex with
                  | Some actualAnswer =>
                    if Bool.eqb actualAnswer (expected q)
                    then score + 1 else score
                  | None => score
                  end) questions score
             = score + sumZ (map (slotPoint answers) questions)).
  { induction questions as [|q qs IH]; intros score.
    - cbn. lia.
    - cbn [fold_left map]. rewrite IH.
      change (sumZ (?x :: ?l)) with (x + sumZ l).
      unfold slotPoint at 2. cbv zeta.
      destruct (at_index answers (sq_num q - 1)) as [a|]; [|lia].
      destruct (Bool.eqb a (expected q)); lia. }
  rewrite G. lia.
Qed.

Lemma slotPoint_bounds (answers : list bool) (q : ShtepaQuestion) :
  0 <= slotPoint answers q <= 1.
Proof.
  unfold slotPoint. destruct (at_index _ _) as [a|]; [|lia].
  destruct (Bool.eqb a (expected q)); lia.
Qed.

Lemma slotPoint_matches (answers : list bool) (q : ShtepaQuestion) :
  matchesSlot answers q -> slotPoint answers q = 1.
Proof.
  unfold matchesSlot, slotPoint. intros ->. now rewrite Bool.eqb_reflx.
Qed.

Lemma slotPoint_mismatches (answers : list bool) (q : ShtepaQuestion) :
  mismatchesSlot answers q -> slotPoint answers q = 0.
Proof.
  unfold mismatchesSlot, slotPoint. intros ->.
  now destruct (expected q).
Qed.

(** The category loop yields the category scores in order and their sum. *)
Lemma calculateShtepaResults_scores (answers : list bool) :
  let r := calculateShtepaResults answers in
  let scores :=
    map (fun catDef => shtepaScore answers (cd_questions catDef))
        shtepaCategories in
  map shtepa_score (shtepa_categories r) = scores
  /\ shtepa_totalScore r = sumZ scores
  /\ shtepa_totalLevel r = level (shtepaTotalLevel (sumZ scores))
  /\ shtepa_totalLevelClass r = class (shtepaTotalLevel (sumZ scores)).
Proof.
  cbv zeta. unfold calculateShtepaResults.
  set (step := fun '(categories, totalScore) catDef => _).
  set (mk := fun catDef : CategoryDefinition =>
               shtepaScore answers (cd_questions catDef)).
  assert (G : forall cats acc total,
             map shtepa_score (fst (fold_left step cats (acc, total)))
             = map shtepa_score acc ++ map mk cats
             /\ snd (fold_left step cats (acc, total))
                = total + sumZ (map mk cats)).
  { induction cats as [|c cats IH]; intros acc total.
    - cbn. rewrite app_nil_r. split; [reflexivity|lia].
    - cbn [fold_left].
      change (step (acc, total) c)
        with (acc ++
                [{| shtepa_name := cd_name c;
                    shtepa_score := shtepaScore answers (cd_questions c);
                    shtepa_maxScore :=
                      Z.of_nat (List.length (cd_questions c)) |}],
              total + shtepaScore answers (cd_questions c)).
      destruct (IH (acc ++
                      [{| shtepa_name := cd_name c;
                          shtepa_score := shtepaScore answers (cd_questions c);
                          shtepa_maxScore :=
                            Z.of_nat (List.length (cd_questions c)) |}])
                   (total + shtepaScore answers (cd_questions c)))
        as [E1 E2].
      rewrite E1, E2. rewrite map_app, <- app_assoc. cbn [map app].
      change (sumZ (?x :: ?l)) with (x + sumZ l).
      split; [reflexivity|]. unfold mk. cbv beta. lia. }
  specialize (G shtepaCategories [] 0).
  destruct (fold_left step shtepaCategories ([], 0)) as [categories total].
  cbn [fst snd map app] in G. destruct G as [G1 G2].
  cbn [shtepa_categories shtepa_totalScore shtepa_totalLevel
       shtepa_totalLevelClass].
  rewrite G1, G2. repeat split.
Qed.

(** Splits a [Forall] over an explicit list into its facts, turning each
    into the point its slot contributes. *)
Ltac slot_facts :=
  repeat match goal with
         | H : Forall (matchesSlot _) (_ :: _) |- _ =>
           let Hq := fresh "Hq" in
           let Hl := fresh "Hl" in
           apply Forall_cons_iff in H; destruct H as [Hq Hl];
           apply slotPoint_matches in Hq
         | H : Forall (fun q => inFirstCategory q = false -> _) (_ :: _)
           |- _ =>
           let Hq := fresh "Hq" in
           let Hl := fresh "Hl" in
           apply Forall_cons_iff in H; destruct H as [Hq Hl];
           first [ specialize (Hq eq_refl); apply slotPoint_mismatches in Hq
                 | clear Hq ]
         end.

Ltac rewrite_slot_facts :=
  repeat match goal with
         | H : slotPoint _ _ = _ |- _ => rewrite !H; clear H
         end.

Ltac bound_slots :=
  repeat match goal with
         | |- context [slotPoint ?a ?q] =>
           let p := fresh "p" in
           pose proof (slotPoint_bounds a q);
           set (p := slotPoint a q) in *; clearbody p
         end.

(** Matching the first category forces points in the categories that
    share questions 11, 12, 22 and 55 with it. *)
Lemma first_category_matched (answers : list bool) :
  let scores :=
    map (fun catDef => shtepaScore answers (cd_questions catDef))
        shtepaCategories in
  Forall (matchesSlot answers) (cd_questions firstCategory) ->
  nth 0 scores 0 = 8
  /\ 2 <= nth 3 scores 0
  /\ 1 <= nth 4 scores 0
  /\ 1 <= nth 7 scores 0
  /\ 1 <= nth 8 scores 0
  /\ 1 <= nth 9 scores 0
  /\ 1 <= nth 10 scores 0
  /\ 15 <= sumZ scores
  /\ (Forall (fun q => inFirstCategory q = false -> mismatchesSlot answers q)
             otherSlots ->
      scores = [8; 0; 0; 2; 1; 0; 0; 1; 1; 1; 1; 0; 0; 0]).
Proof.
  intros scores Hm. subst scores.
  unfold firstCategory, shtepaCategories in Hm. cbn [hd cd_questions] in Hm.
  slot_facts.
  unfold shtepaCategories. cbn [map cd_questions].
  rewrite !shtepaScore_sum. cbn [map sumZ fold_right nth].
  repeat split.
  1-8: rewrite_slot_facts; bound_slots; lia.
  intros Hmis.
  unfold otherSlots, otherCategories, shtepaCategories in Hmis.
  cbn [tl map cd_questions List.concat app] in Hmis.
  slot_facts. rewrite_slot_facts. reflexivity.
Qed.

Lemma forEachIndex_length {A : Type} (n : nat) (f : nat -> A) :
  List.length (forEachIndex n f) = n.
Proof. unfold forEachIndex. now rewrite length_map, length_seq. Qed.

(** X26. Take a row of at least 233 fields whose 67
    decoded Штепа answers match the 8 expected values of the first
    category.  Then the first category's subtotal is 8; because questions
    11, 12, 22 and 55 also belong to other categories with the same
    expected value, the categories "Успіх", "Любов", "Прагнення до
    мудрості", "Робота над собою", "Самореалізація у професії" and
    "Відповідальність" score at least 2, 1, 1, 1, 1 and 1, so the total is
    at least 15 and never 8.  When every question outside the first
    category is answered against the expectation of its slots, the 14
    subtotals are 8, 0, 0, 2, 1, 0, 0, 1, 1, 1, 1, 0, 0, 0 and the total
    is 15.  Every total up to 56 is classified "Психологічна ресурсність
    не діагностується" (class not-diagnosed). *)
Theorem shtepa_first_category_matched
    (toLowerCase : jsstring -> jsstring) (columns : list jsstring) :
  let r := buildRespondent toLowerCase columns in
  let answers := shtepaAnswers r in
  let scores := map shtepa_score (shtepa_categories (shtepa r)) in
  let total := shtepa_totalScore (shtepa r) in
  minColumns <= Z.of_nat (List.length columns) ->
  Forall (matchesSlot answers) (cd_questions firstCategory) ->
  List.length answers = 67%nat
  /\ List.length scores = 14%nat
  /\ total = sumZ scores
  /\ nth 0 scores 0 = 8
  /\ 2 <= nth 3 scores 0
  /\ 1 <= nth 4 scores 0
  /\ 1 <= nth 7 scores 0
  /\ 1 <= nth 8 scores 0
  /\ 1 <= nth 9 scores 0
  /\ 1 <= nth 10 scores 0
  /\ 15 <= total
  /\ (total <= 56 ->
      shtepa_totalLevel (shtepa r)
      = u "Психологічна ресурсність не діагностується"
      /\ shtepa_totalLevelClass (shtepa r) = u "not-diagnosed")
  /\ (Forall (fun q => inFirstCategory q = false -> mismatchesSlot answers q)
             otherSlots ->
      scores = [8; 0; 0; 2; 1; 0; 0; 1; 1; 1; 1; 0; 0; 0]
      /\ total = 15
      /\ shtepa_totalLevel (shtepa r)
         = u "Психологічна ресурсність не діагностується").
Proof.
  intros r answers scores total Hcols Hm.
  assert (Er : shtepa r = calculateShtepaResults answers) by reflexivity.
  assert (Hlen : List.length answers = 67%nat)
    by apply forEachIndex_length.
  subst scores total. rewrite Er. clear Er.
  generalize dependent answers. intros answers Hm Hlen.
  destruct (calculateShtepaResults_scores answers) as (Es & Et & El & Ec).
  rewrite Es, Et, El, Ec.
  destruct (first_category_matched answers Hm)
    as (F0 & F3 & F4 & F7 & F8 & F9 & F10 & Fsum & Fall).
  assert (Hlevel : forall t, t <= 56 ->
            level (shtepaTotalLevel t)
            = u "Психологічна ресурсність не діагностується"
            /\ class (shtepaTotalLevel t) = u "not-diagnosed").
  { intros t Ht. unfold shtepaTotalLevel.
    destruct (Z.leb_spec t 56); [split; reflexivity | lia]. }
  repeat (split; [first [assumption | reflexivity | now apply Hlevel]|]).
  intros Hmis. specialize (Fall Hmis). rewrite Fall.
  split; [reflexivity|]. split; [reflexivity|].
  apply Hlevel. cbn. lia.
Qed.

(** X27. The categories of the questionnaire overlap, so a respondent
    cannot score in the first category alone.  On the row [scenarioRow],
    whose Штепа answers match the 8 expected values of the first category
    and go against the expectation of every question outside it, the
    subtotals of six other categories are not 0 and the total is 15, not
    8.  No answer array at all matches the first category and mismatches
    every slot of every other category, since the slots 12- and 55+ of
    "Успіх" are slots of the first category too. *)
Lemma shtepa_scenario_total_is_15 :
  let r := buildRespondent Js.toLowerCaseUk scenarioRow in
  List.length scenarioRow = 233%nat
  /\ shtepaAnswers r = scenarioAnswers
  /\ Forall (matchesSlot (shtepaAnswers r)) (cd_questions firstCategory)
  /\ Forall (fun q => inFirstCategory q = false ->
                      mismatchesSlot (shtepaAnswers r) q) otherSlots
  /\ map shtepa_score (shtepa_categories (shtepa r))
     = [8; 0; 0; 2; 1; 0; 0; 1; 1; 1; 1; 0; 0; 0]
  /\ shtepa_totalScore (shtepa r) = 15
  /\ shtepa_totalScore (shtepa r) <> 8
  /\ ~ (exists answers : list bool,
          Forall (matchesSlot answers) (cd_questions firstCategory)
          /\ Forall (mismatchesSlot answers) otherSlots).
Proof.
  cbv zeta.
  assert (Ea : shtepaAnswers (buildRespondent Js.toLowerCaseUk scenarioRow)
               = scenarioAnswers) by (vm_compute; reflexivity).
  rewrite Ea.
  split; [reflexivity|]. split; [reflexivity|].
  split; [repeat constructor|].
  split.
  { unfold otherSlots, otherCategories, shtepaCategories.
    cbn [tl map cd_questions List.concat app].
    repeat (constructor; [intros H; first [reflexivity | discriminate H]|]).
    constructor. }
  split; [vm_compute; reflexivity|].
  split; [vm_compute; reflexivity|].
  split; [vm_compute; discriminate|].
  intros (answers & Hm & Hmis).
  assert (H1 : matchesSlot answers (sq 12 false)).
  { eapply Forall_forall in Hm; [exact Hm|]. cbn. tauto. }
  assert (H2 : mismatchesSlot answers (sq 12 false)).
  { eapply Forall_forall in Hmis; [exact Hmis|]. cbn. tauto. }
  unfold matchesSlot, mismatchesSlot in H1, H2. rewrite H1 in H2.
  discriminate H2.
Qed.

(** The row [scenarioRow] has 233 fields and matches the first category:
    its total is 15. *)
Lemma shtepa_first_category_matched_witness :
  shtepa_totalScore (shtepa (buildRespondent Js.toLowerCaseUk scenarioRow))
  = 15.
Proof.
  assert (Hcols : minColumns <= Z.of_nat (List.length scenarioRow)).
  { vm_compute. discriminate. }
  assert (Hm : Forall (matchesSlot
                         (shtepaAnswers
                            (buildRespondent Js.toLowerCaseUk scenarioRow)))
                      (cd_questions firstCategory)).
  { repeat constructor. }
  assert (Hmis : Forall (fun q => inFirstCategory q = false ->
                          mismatchesSlot
                            (shtepaAnswers
                               (buildRespondent Js.toLowerCaseUk scenarioRow))
                            q) otherSlots).
  { unfold otherSlots, otherCategories, shtepaCategories.
    cbn [tl map cd_questions List.concat app].
    repeat (constructor; [intros H; first [reflexivity | discriminate H]|]).
    constructor. }
  destruct (shtepa_first_category_matched Js.toLowerCaseUk scenarioRow
              Hcols Hm)
    as (_ & _ & _ & _ & _ & _ & _ & _ & _ & _ & _ & _ & Hall).
  exact (proj1 (proj2 (Hall Hmis))).
Defined.

(** ** Level classifiers *)

Lemma calculateCategoryScore_score (answers : list Z)
    (categoryDef : RyffCategoryDefinition) :
  ryff_score (calculateCategoryScore answers categoryDef)
  = ryffScore answers (rcd_questions categoryDef) (Num 0).
Proof.
  unfold calculateCategoryScore.
  destruct (nltb _ _); [reflexivity|]. destruct (ngtb _ _); reflexivity.
Qed.

Lemma calculateCategoryScore_level (answers : list Z)
    (categoryDef : RyffCategoryDefinition) :
  let r := calculateCategoryScore answers categoryDef in
  let l := getRyffCategoryLevel (ryff_score r) (lowThreshold categoryDef)
                                (highThreshold categoryDef) in
  ryff_level r = level l /\ ryff_levelClass r = class l.
Proof.
  cbv zeta. rewrite calculateCategoryScore_score.
  unfold calculateCategoryScore, getRyffCategoryLevel.
  destruct (nltb _ _); [split; reflexivity|].
  destruct (ngtb _ _); split; reflexivity.
Qed.

Lemma calculateRyffResults_totalScore (answers : list Z) :
  ryff_totalScore (calculateRyffResults answers)
  = fold_left
      (fun total categoryDef =>
         nadd total (ryff_score (calculateCategoryScore answers categoryDef)))
      (tl ryffCategoryList)
      (ryff_score (calculateCategoryScore answers ryffCategories.relationships)).
Proof.
  unfold calculateRyffResults. set (t := nadd _ _).
  destruct (nltb t _); [reflexivity|]. destruct (ngtb t _); reflexivity.
Qed.

Lemma calculateRyffResults_totalLevel (answers : list Z) :
  let r := calculateRyffResults answers in
  let l := getRyffCategoryLevel (ryff_totalScore r) ryffTotalLowThreshold
                                ryffTotalHighThreshold in
  ryff_totalLevel r = level l /\ ryff_totalLevelClass r = class l.
Proof.
  cbv zeta. rewrite calculateRyffResults_totalScore.
  unfold calculateRyffResults, getRyffCategoryLevel.
  cbn [fold_left tl ryffCategoryList]. set (t := nadd _ _).
  destruct (nltb t _); [split; reflexivity|].
  destruct (ngtb t _); split; reflexivity.
Qed.

(** Decides the conjuncts of [threeWay] once the comparisons are settled:
    an equation between two names is closed by evaluation, an impossible
    one by its bounds. *)
Ltac settle_band :=
  lazymatch goal with
  | |- @eq jsstring _ _ => first [vm_compute; reflexivity | exfalso; lia]
  | H : @eq jsstring _ _ |- _ =>
    first [lia | exfalso; vm_compute in H; discriminate H]
  | |- _ => lia
  end.

Ltac three_way :=
  cbv [threeWay bandLabels bandClasses fst snd level class];
  split; [|split; [|split; [|split]]];
  [intros ? | intros ? | split; intros ? | split; intros ? | split; intros ?];
  settle_band.

Lemma getRyffCategoryLevel_threeWay (score low high : Z) :
  low <= high ->
  let l := getRyffCategoryLevel (Num score) low high in
  threeWay bandLabels (level l) score low high
  /\ threeWay bandClasses (class l) score low high.
Proof.
  intros Hlh. cbv zeta. unfold getRyffCategoryLevel, ngtb. cbn [nltb].
  destruct (Z.ltb_spec score low); [split; three_way|].
  destruct (Z.ltb_spec high score); split; three_way.
Qed.

Lemma personalResource_threeWay (score low high : Z) (inverted : bool) :
  let names := if inverted then (u "high", u "medium", u "low")
               else bandClasses in
  let l :=
    if nltb (Num score) (Num low) then
      {| level := u "Низький"; class := fst (fst names) |}
    else if nleb (Num score) (Num high) then
      {| level := u "Середній"; class := snd (fst names) |}
    else {| level := u "Високий"; class := snd names |} in
  low <= high ->
  threeWay bandLabels (level l) score low high
  /\ threeWay names (class l) score low high.
Proof.
  intros names l Hlh. subst l names. cbn [nltb nleb].
  destruct (Z.ltb_spec score low);
    [destruct inverted; split; three_way|].
  destruct (Z.leb_spec score high); destruct inverted; split; three_way.
Qed.

(** C5. Wherever a score is classified against a (low, high) pair, the
    score equal to the low bound and the score equal to the high bound are
    both "Середній"; the label is "Низький" exactly for scores below the
    low bound and "Високий" exactly for scores above the high bound.  This
    holds for the helper [getRyffCategoryLevel] with any ordered pair of
    bounds, for each of the six Ryff categories with its own thresholds,
    for the Ryff total (315, 413), and for the Personal Resources
    categories (13, 21), (13, 18), (8, 12) and total (15, 30).  The level
    classes low / medium / high follow the same rule (the class of the
    Exhaustion category apart). *)
Theorem bounds_classify_as_medium (score : Z) :
  (forall low high, low <= high ->
     let l := getRyffCategoryLevel (Num score) low high in
     threeWay bandLabels (level l) score low high
     /\ threeWay bandClasses (class l) score low high)
  /\ (forall categoryDef answers,
        In categoryDef ryffCategoryList ->
        let r := calculateCategoryScore answers categoryDef in
        ryff_score r = Num score ->
        threeWay bandLabels (ryff_level r) score
                 (lowThreshold categoryDef) (highThreshold categoryDef)
        /\ threeWay bandClasses (ryff_levelClass r) score
                    (lowThreshold categoryDef) (highThreshold categoryDef))
  /\ (forall answers,
        let r := calculateRyffResults answers in
        ryff_totalScore r = Num score ->
        threeWay bandLabels (ryff_totalLevel r) score 315 413
        /\ threeWay bandClasses (ryff_totalLevelClass r) score 315 413)
  /\ (forall answers,
        let r := calculatePersonalResourceResults answers in
        (pr_score (sufficiency r) = Num score ->
         threeWay bandLabels (pr_level (sufficiency r)) score 13 21
         /\ threeWay bandClasses (pr_levelClass (sufficiency r)) score 13 21)
        /\ (pr_score (copingStrategies r) = Num score ->
            threeWay bandLabels (pr_level (copingStrategies r)) score 13 18
            /\ threeWay bandClasses (pr_levelClass (copingStrategies r))
                        score 13 18)
        /\ (pr_score (emotionalExhaustion r) = Num score ->
            threeWay bandLabels (pr_level (emotionalExhaustion r)) score 8 12)
        /\ (pr_totalScore r = Num score ->
            threeWay bandLabels (pr_totalLevel r) score 15 30
            /\ threeWay bandClasses (pr_totalLevelClass r) score 15 30)).
Proof.
  split; [|split; [|split]].
  - intros low high Hlh. apply getRyffCategoryLevel_threeWay, Hlh.
  - intros categoryDef answers Hin r Hs.
    destruct (calculateCategoryScore_level answers categoryDef) as [Hl Hc].
    fold r in Hl, Hc. rewrite Hl, Hc, Hs.
    apply getRyffCategoryLevel_threeWay.
    unfold ryffCategoryList in Hin. cbn [In] in Hin.
    repeat (destruct Hin as [<-|Hin]; [cbn; lia|]). contradiction.
  - intros answers r Hs.
    destruct (calculateRyffResults_totalLevel answers) as [Hl Hc].
    fold r in Hl, Hc. rewrite Hl, Hc, Hs.
    apply (getRyffCategoryLevel_threeWay score 315 413). lia.
  - intros answers r. subst r. unfold calculatePersonalResourceResults.
    cbn [sufficiency copingStrategies emotionalExhaustion pr_score pr_level
         pr_levelClass pr_totalScore pr_totalLevel pr_totalLevelClass].
    split; [|split; [|split]]; intros ->.
    + apply (personalResource_threeWay score 13 21 false). lia.
    + apply (personalResource_threeWay score 13 18 false). lia.
    + apply (personalResource_threeWay score 8 12 true). lia.
    + apply (personalResource_threeWay score 15 30 false). lia.
Qed.

(** With [ryffAnswersAtLowBound] the "Відносини" subtotal is exactly its
    low threshold 53, and the category is "Середній". *)
Lemma bounds_classify_as_medium_witness :
  ryff_score
    (calculateCategoryScore ryffAnswersAtLowBound ryffCategories.relationships)
  = Num 53
  /\ ryff_level
       (calculateCategoryScore ryffAnswersAtLowBound
                               ryffCategories.relationships)
     = u "Середній".
Proof.
  split; [reflexivity|].
  destruct (proj1 (proj2 (bounds_classify_as_medium 53))
              ryffCategories.relationships ryffAnswersAtLowBound
              (or_introl eq_refl) eq_refl) as [Hl _].
  exact (proj1 Hl eq_refl).
Defined.

(** ** Row validity *)

Section RowLoop.

Variable toLowerCase : jsstring -> jsstring.

Lemma processRow_accepts (acc : list Respondent) (line : jsstring) :
  processRow toLowerCase acc line
  = if hasEnoughColumns line
    then acc ++ [buildRespondent toLowerCase (parseCSVLine line)]
    else acc.
Proof.
  unfold processRow, hasEnoughColumns.
  destruct (Z.ltb_spec (Z.of_nat (List.length (parseCSVLine line))) minColumns);
    destruct (Z.leb_spec minColumns
                (Z.of_nat (List.length (parseCSVLine line))));
    try reflexivity; lia.
Qed.

(** The row loop appends, in order, one record for each row that has
    enough columns and nothing for the others. *)
Lemma processRows_filter (dataRows : list jsstring) (acc : list Respondent) :
  fold_left (processRow toLowerCase) dataRows acc
  = acc ++ map (fun line => buildRespondent toLowerCase (parseCSVLine line))
               (filter hasEnoughColumns dataRows).
Proof.
  revert acc. induction dataRows as [|line rows IH]; intros acc.
  - cbn. now rewrite app_nil_r.
  - cbn [fold_left filter]. rewrite IH, processRow_accepts.
    destruct (hasEnoughColumns line); [|reflexivity].
    cbn [map]. now rewrite <- app_assoc.
Qed.

Lemma parseAndTransformCSV_respondents (content : jsstring)
    (this : AppComponent) :
  (2 <= List.length (nonBlankLines content))%nat ->
  respondents (parseAndTransformCSV toLowerCase content this)
  = fold_left (processRow toLowerCase) (tl (nonBlankLines content)) [].
Proof.
  intros H. unfold parseAndTransformCSV.
  destruct (Z.ltb_spec (Z.of_nat (List.length (nonBlankLines content))) 2);
    [lia|].
  destruct (Z.of_nat _ =? 0); reflexivity.
Qed.

(** C6. When the content has a header and at least one data line, the
    respondent list after the load holds, in the order of the file, one
    record for each data row whose tokenized field count is at least 233
    and none for any other row: a short row is skipped and the rows after
    it are still processed. *)
Theorem record_iff_233_fields (content : jsstring) (this : AppComponent) :
  let dataRows := tl (nonBlankLines content) in
  let loaded := respondents (parseAndTransformCSV toLowerCase content this) in
  (2 <= List.length (nonBlankLines content))%nat ->
  minColumns = 233
  /\ loaded = map (fun line => buildRespondent toLowerCase (parseCSVLine line))
                  (filter (fun line =>
                             233 <=? Z.of_nat (List.length (parseCSVLine line)))
                          dataRows)
  /\ (forall before line after,
        dataRows = before ++ line :: after ->
        fold_left (processRow toLowerCase) (before ++ [line]) []
        = fold_left (processRow toLowerCase) before []
          ++ (if 233 <=? Z.of_nat (List.length (parseCSVLine line))
              then [buildRespondent toLowerCase (parseCSVLine line)]
              else [])
        /\ loaded
           = fold_left (processRow toLowerCase) after
               (fold_left (processRow toLowerCase) (before ++ [line]) [])).
Proof.
  intros dataRows loaded H.
  split; [reflexivity|]. split.
  - subst loaded. rewrite parseAndTransformCSV_respondents by exact H.
    rewrite processRows_filter. reflexivity.
  - intros before line after E. split.
    + rewrite fold_left_app. cbn [fold_left]. rewrite processRow_accepts.
      unfold hasEnoughColumns. change minColumns with 233.
      destruct (233 <=? _); [reflexivity | now rewrite app_nil_r].
    + subst loaded. rewrite parseAndTransformCSV_respondents by exact H.
      fold dataRows. rewrite E.
      rewrite <- fold_left_app, <- app_assoc. reflexivity.
Qed.

End RowLoop.

(** [sampleContent] has three data rows; the two with 233 fields give the
    two records, the 3-field row between them gives none. *)
Lemma record_iff_233_fields_witness :
  List.length
    (respondents
       (parseAndTransformCSV Js.toLowerCaseUk sampleContent initialComponent))
  = 2%nat
  /\ map (fun line => List.length (parseCSVLine line))
         (tl (nonBlankLines sampleContent))
     = [233; 3; 233]%nat.
Proof.
  split; [|reflexivity].
  assert (H : (2 <= List.length (nonBlankLines sampleContent))%nat).
  { vm_compute. lia. }
  rewrite (proj1 (proj2 (record_iff_233_fields Js.toLowerCaseUk
                           sampleContent initialComponent H))).
  rewrite length_map. reflexivity.
Defined.

(** ** Empty input *)

Section EmptyInput.

Variable toLowerCase : jsstring -> jsstring.

(** C7, as the code has it.  Content with fewer than 2 non-blank lines
    sets the message "CSV file must have a header and at least one data
    row", which is not the message "No valid data rows found in CSV", and
    creates no record: a component that holds no respondent holds none
    afterwards.  The message "No valid data rows found in CSV" is the one
    reported when there are data lines and none of them has 233 fields;
    the respondent list is then empty. *)
Theorem header_only_reports_missing_data_row (content : jsstring)
    (this : AppComponent) :
  let loaded := parseAndTransformCSV toLowerCase content this in
  let dataRows := tl (nonBlankLines content) in
  ((List.length (nonBlankLines content) < 2)%nat ->
   errorMessage loaded
   = u "CSV file must have a header and at least one data row"
   /\ errorMessage loaded <> u "No valid data rows found in CSV"
   /\ (respondents this = [] -> respondents loaded = []))
  /\ ((2 <= List.length (nonBlankLines content))%nat ->
      forallb (fun line => negb (hasEnoughColumns line)) dataRows = true ->
      errorMessage loaded = u "No valid data rows found in CSV"
      /\ respondents loaded = []).
Proof.
  intros loaded dataRows. split.
  - intros H. subst loaded. unfold parseAndTransformCSV.
    destruct (Z.ltb_spec (Z.of_nat (List.length (nonBlankLines content))) 2);
      [|lia].
    cbn [errorMessage respondents].
    split; [reflexivity|]. split; [discriminate|]. auto.
  - intros H Hall.
    assert (E : fold_left (processRow toLowerCase) dataRows [] = []).
    { rewrite processRows_filter. cbn [app].
      replace (filter hasEnoughColumns dataRows) with (@nil jsstring);
        [reflexivity|].
      clear H. induction dataRows as [|line rows IH]; [reflexivity|].
      cbn [forallb] in Hall. apply andb_true_iff in Hall as [Hl Hr].
      cbn [filter]. destruct (hasEnoughColumns line); [discriminate|].
      now apply IH. }
    subst loaded. unfold parseAndTransformCSV.
    destruct (Z.ltb_spec (Z.of_nat (List.length (nonBlankLines content))) 2);
      [lia|].
    fold dataRows. rewrite E. cbn. split; reflexivity.
Qed.

End EmptyInput.

(** A header line alone, loaded into a fresh component. *)
Lemma header_only_reports_missing_data_row_witness :
  let loaded :=
    parseAndTransformCSV Js.toLowerCaseUk headerOnlyContent initialComponent in
  errorMessage loaded
  = u "CSV file must have a header and at least one data row"
  /\ respondents loaded = [].
Proof.
  assert (H : (List.length (nonBlankLines headerOnlyContent) < 2)%nat).
  { vm_compute. lia. }
  destruct (proj1 (header_only_reports_missing_data_row Js.toLowerCaseUk
                     headerOnlyContent initialComponent) H)
    as (Hm & _ & Hr).
  split; [exact Hm | exact (Hr eq_refl)].
Defined.

(** Counterexample to C7 as the specification words it: for a file that
    holds a header line only, the message is not the "no valid data" one
    ("No valid data rows found in CSV") but "CSV file must have a header
    and at least one data row". *)
Lemma header_only_is_not_no_valid_data :
  let loaded :=
    handleFile Js.toLowerCaseUk (u "answers.csv") headerOnlyContent
               initialComponent in
  List.length (nonBlankLines headerOnlyContent) = 1%nat
  /\ errorMessage loaded
     = u "CSV file must have a header and at least one data row"
  /\ errorMessage loaded <> u "No valid data rows found in CSV".
Proof.
  cbv zeta. split; [reflexivity|]. split; [reflexivity|].
  vm_compute. discriminate.
Qed.

(** ** Basic Ph decoder: keyword order *)

Lemma startsWith_iff (s p : jsstring) :
  Js.startsWith s p = true <-> exists post, s = p ++ post.
Proof.
  revert s. induction p as [|y p IH]; intros s; simpl.
  - split; [intros _; now exists s | reflexivity].
  - destruct s as [|x s].
    + split; [discriminate | intros [post H]; discriminate].
    + destruct (N.eqb_spec x y) as [->|Hxy]; simpl.
      * rewrite IH. split; intros [post H]; exists post; congruence.
      * split; [discriminate | intros [post H]; congruence].
Qed.

Lemma includes_iff (s p : jsstring) :
  Js.includes s p = true <-> exists pre post, s = pre ++ p ++ post.
Proof.
  induction s as [|x s IH].
  - simpl. rewrite orb_false_r, startsWith_iff. split.
    + intros [post H]. now exists [], post.
    + intros (pre & post & H). destruct pre; [now exists post|discriminate].
  - cbn [Js.includes]. rewrite orb_true_iff, IH, startsWith_iff. split.
    + intros [[post H]|(pre & post & H)].
      * now exists [], post.
      * exists (x :: pre), post. now rewrite H.
    + intros (pre & post & H). destruct pre as [|x' pre].
      * left. now exists post.
      * right. exists pre, post. simpl in H. congruence.
Qed.

(** A string that includes a phrase includes every part of the phrase. *)
Lemma includes_part (s a p b : jsstring) :
  Js.includes s (a ++ p ++ b) = true -> Js.includes s p = true.
Proof.
  rewrite !includes_iff. intros (pre & post & H).
  exists (pre ++ a), (b ++ post). rewrite H, <- !app_assoc. reflexivity.
Qed.

Lemma ownProperty_None (m : list (jsstring * Z)) (key : jsstring) :
  ownProperty m key = None <-> ~ In key (map fst m).
Proof.
  induction m as [|[k v] m IH]; simpl.
  - tauto.
  - destruct (js_eqb_spec key k) as [->|Hk].
    + split; [discriminate | intros H; exfalso; apply H; now left].
    + rewrite IH. split; intros H; [intros [E|E]; [congruence|tauto] | tauto].
Qed.

(** C8. Let [normalized] be the trimmed, lower-cased text of a Basic Ph
    field.  When it is none of the seven full answers, includes
    "майже завжди" and includes none of "ніколи", "рідко", "іноді",
    "періодично", "часто", the field decodes to 5 and not to 6, although
    the text then includes the shorter keyword "завжди" as well: the
    longer phrase is tested first. *)
Theorem convertBasicPhAnswer_almost_always
    (toLowerCase : jsstring -> jsstring) (rawValue : jsstring)
    (questionNum : Z) (email : jsstring) :
  let normalized := toLowerCase (Js.trim rawValue) in
  ~ In normalized (map fst answerMap) ->
  Js.includes normalized (u "майже завжди") = true ->
  Js.includes normalized (u "ніколи") = false ->
  Js.includes normalized (u "рідко") = false ->
  Js.includes normalized (u "іноді") = false ->
  Js.includes normalized (u "періодично") = false ->
  Js.includes normalized (u "часто") = false ->
  convertBasicPhAnswer toLowerCase rawValue questionNum email = 5
  /\ convertBasicPhAnswer toLowerCase rawValue questionNum email <> 6
  /\ Js.includes normalized (u "завжди") = true.
Proof.
  intros normalized Hmap H5 H0 H1 H2 H3 H4.
  assert (E : convertBasicPhAnswer toLowerCase rawValue questionNum email = 5).
  { unfold convertBasicPhAnswer. fold normalized.
    apply ownProperty_None in Hmap. rewrite Hmap, H0, H1, H2, H3, H4, H5.
    reflexivity. }
  split; [exact E|]. split; [rewrite E; discriminate|].
  apply (includes_part normalized (u "майже ") (u "завжди") []).
  exact H5.
Qed.

(** The short answer "Майже завжди" decodes to 5. *)
Lemma convertBasicPhAnswer_almost_always_witness :
  convertBasicPhAnswer Js.toLowerCaseUk (u "Майже завжди") 1 (u "a@b") = 5.
Proof.
  refine (proj1 (convertBasicPhAnswer_almost_always
                   Js.toLowerCaseUk (u "Майже завжди") 1 (u "a@b")
                   _ eq_refl eq_refl eq_refl eq_refl eq_refl eq_refl)).
  apply ownProperty_None. reflexivity.
Defined.

(** ** Exhaustion: inverted class *)

(** C9. For the Exhaustion category the label follows the common
    three-way rule with the bounds 8 and 12, while the class is inverted:
    a score below 8 is "Низький" with class high, a score in 8..12 is
    "Середній" with class medium, a score above 12 is "Високий" with
    class low. *)
Theorem exhaustion_class_inverted (answers : list Z) (score : Z) :
  let r := calculatePersonalResourceResults answers in
  pr_score (emotionalExhaustion r) = Num score ->
  (score < 8 ->
   pr_level (emotionalExhaustion r) = u "Низький"
   /\ pr_levelClass (emotionalExhaustion r) = u "high")
  /\ (8 <= score <= 12 ->
      pr_level (emotionalExhaustion r) = u "Середній"
      /\ pr_levelClass (emotionalExhaustion r) = u "medium")
  /\ (12 < score ->
      pr_level (emotionalExhaustion r) = u "Високий"
      /\ pr_levelClass (emotionalExhaustion r) = u "low")
  /\ pr_level (emotionalExhaustion r)
     = level (getRyffCategoryLevel (Num score) 8 12).
Proof.
  intros r. subst r. unfold calculatePersonalResourceResults.
  cbn [emotionalExhaustion pr_score pr_level pr_levelClass].
  intros ->. unfold getExhaustionLevel, getRyffCategoryLevel, ngtb.
  cbn [nltb nleb].
  destruct (Z.ltb_spec score 8); [|destruct (Z.leb_spec score 12)];
    destruct (Z.ltb_spec 12 score); try lia;
    (split; [|split; [|split]];
     [intros ?; first [exfalso; lia | split; reflexivity] ..
     | reflexivity]).
Qed.

(** Exhaustion answers 2, 2 and 1 (questions 7, 11 and 13) sum to 5:
    label "Низький", class high. *)
Lemma exhaustion_class_inverted_witness :
  let r := calculatePersonalResourceResults
             [5; 4; 3; 4; 4; 3; 2; 2; 4; 4; 2; 2; 1] in
  pr_level (emotionalExhaustion r) = u "Низький"
  /\ pr_levelClass (emotionalExhaustion r) = u "high".
Proof.
  refine (proj1 (exhaustion_class_inverted
                   [5; 4; 3; 4; 4; 3; 2; 2; 4; 4; 2; 2; 1] 5 eq_refl) _).
  lia.
Defined.

(** ** Basic Ph: the categories partition the questions *)

Lemma removeFirst_Permutation (x : Z) (l r : list Z) :
  removeFirst x l = Some r -> Permutation l (x :: r).
Proof.
  revert r. induction l as [|y l IH]; intros r; simpl; [discriminate|].
  destruct (Z.eqb_spec x y) as [->|Hxy].
  - intros [= ->]. apply Permutation_refl.
  - destruct (removeFirst x l) as [r'|]; [|discriminate].
    intros [= <-]. apply perm_trans with (y :: x :: r').
    + apply perm_skip, IH. reflexivity.
    + apply perm_swap.
Qed.

Lemma samePartition_Permutation (l l' : list Z) :
  samePartition l l' = true -> Permutation l l'.
Proof.
  revert l'. induction l as [|x l IH]; intros l'; simpl.
  - destruct l'; [constructor|discriminate].
  - destruct (removeFirst x l') as [r|] eqn:E; [|discriminate].
    intros H. apply Permutation_sym.
    apply perm_trans with (x :: r).
    + apply removeFirst_Permutation, E.
    + apply perm_skip, Permutation_sym, IH, H.
Qed.

Lemma sumZ_Permutation (l l' : list Z) :
  Permutation l l' -> sumZ l = sumZ l'.
Proof.
  induction 1; simpl; lia.
Qed.

(** Summing the answers question by question is summing the array. *)
Lemma sumOver_all_questions (answers : list Z) :
  sumOver answers (questionNumbers (List.length answers)) = sumZ answers.
Proof.
  unfold sumOver, questionNumbers. rewrite map_map.
  induction answers as [|a answers IH]; [reflexivity|].
  cbn [List.length seq map]. rewrite <- seq_shift, map_map.
  change (sumZ (?x :: ?l)) with (x + sumZ l).
  change (sumZ (a :: answers)) with (a + sumZ answers).
  rewrite <- IH. f_equal.
  f_equal. apply map_ext. intros i. unfold answerTo.
  replace (Z.to_nat (Z.of_nat (S i) + 1 - 1)) with (S i) by lia.
  replace (Z.to_nat (Z.of_nat i + 1 - 1)) with i by lia.
  reflexivity.
Qed.

Lemma sumZ_bounds (l : list Z) (lo hi : Z) :
  Forall (fun a => lo <= a <= hi) l ->
  lo * Z.of_nat (List.length l) <= sumZ l <= hi * Z.of_nat (List.length l).
Proof.
  intros H. induction H as [|a l Ha Hl IH].
  - cbn. lia.
  - change (sumZ (a :: l)) with (a + sumZ l).
    change (List.length (a :: l)) with (S (List.length l)). lia.
Qed.

Lemma basicPh_totalScore_unfold (answers : list Z) :
  bph_totalScore (calculateBasicPhResults answers)
  = fold_left
      (fun total catDef =>
         nadd total (addAnswers answers (bcd_questions catDef) (Num 0)))
      basicPhCategories (Num 0).
Proof. reflexivity. Qed.

(** C10. The six Basic Ph question lists together hold each question
    number 1..36 exactly once, so every question belongs to exactly one
    category; hence for a 36-element answer array the total score is the
    sum of the 36 answers.  With answers on the scale 0..6 the total is at
    most 216, and it is 216 when every answer is 6. *)
Theorem basicPh_categories_partition_questions :
  Permutation basicPhQuestionNumbers (questionNumbers 36)
  /\ (forall qNum, 1 <= qNum <= 36 -> categoriesOf qNum = 1%nat)
  /\ (forall answers,
        List.length answers = 36%nat ->
        bph_totalScore (calculateBasicPhResults answers)
        = Num (sumZ answers))
  /\ (forall answers,
        List.length answers = 36%nat ->
        Forall (fun a => 0 <= a <= 6) answers ->
        exists total,
          bph_totalScore (calculateBasicPhResults answers) = Num total
          /\ 0 <= total <= 216)
  /\ bph_totalScore (calculateBasicPhResults (repeat 6 36)) = Num 216.
Proof.
  assert (Hperm : Permutation basicPhQuestionNumbers (questionNumbers 36)).
  { apply samePartition_Permutation. reflexivity. }
  assert (Hsum : forall answers,
             List.length answers = 36%nat ->
             bph_totalScore (calculateBasicPhResults answers)
             = Num (sumZ answers)).
  { intros answers Hlen. rewrite basicPh_totalScore_unfold.
    unfold basicPhCategories. cbn [fold_left bcd_questions].
    repeat (rewrite addAnswers_in_range by in_range_by_length Hlen;
            rewrite nadd_Num).
    f_equal. rewrite <- sumOver_all_questions, Hlen.
    unfold sumOver. rewrite <- (sumZ_Permutation _ _
      (Permutation_map (answerTo answers) Hperm)).
    unfold basicPhQuestionNumbers, basicPhCategories.
    cbn [map bcd_questions List.concat app sumZ fold_right]. lia. }
  split; [exact Hperm|]. split; [|split; [exact Hsum|split]].
  - intros qNum Hq.
    assert (Hcases : In qNum (questionNumbers 36)).
    { unfold questionNumbers. apply in_map_iff.
      exists (Z.to_nat (qNum - 1)). split; [lia|]. apply in_seq. lia. }
    cbv in Hcases.
    repeat (destruct Hcases as [<-|Hcases]; [reflexivity|]). contradiction.
  - intros answers Hlen Hall. exists (sumZ answers).
    split; [apply Hsum, Hlen|].
    pose proof (sumZ_bounds answers 0 6 Hall) as Hb. rewrite Hlen in Hb. lia.
  - rewrite Hsum by reflexivity. reflexivity.
Qed.

(* ================================================================== *)
(** * Further properties of the code *)
(* ================================================================== *)

(** ** Decoders *)

Lemma ownProperty_In (m : list (jsstring * Z)) (key : jsstring) (v : Z) :
  ownProperty m key = Some v -> In v (map snd m).
Proof.
  induction m as [|[k w] m IH]; simpl; [discriminate|].
  destruct (Js.eqb key k); [intros [= ->]; now left | auto].
Qed.

Lemma numericAnswer_range (normalized : jsstring) (lo hi v : Z) :
  numericAnswer normalized lo hi = Some v -> lo <= v <= hi.
Proof.
  unfold numericAnswer. destruct (Js.parseInt normalized) as [n|]; [|discriminate].
  destruct (Z.leb_spec lo n); destruct (Z.leb_spec n hi); simpl;
    try discriminate.
  intros [= <-]. lia.
Qed.

Section DecoderRanges.

Variable toLowerCase : jsstring -> jsstring.

Lemma convertBasicPhAnswer_range (rawValue : jsstring) (questionNum : Z)
    (email : jsstring) :
  0 <= convertBasicPhAnswer toLowerCase rawValue questionNum email <= 6.
Proof.
  unfold convertBasicPhAnswer.
  destruct (ownProperty answerMap _) as [v|] eqn:E.
  - apply ownProperty_In in E. cbn [answerMap map snd In] in E.
    repeat (destruct E as [<-|E]; [lia|]). contradiction.
  - repeat match goal with
           | |- context [if ?b then _ else _] => destruct b; [lia|]
           end.
    destruct (numericAnswer _ 0 6) as [n|] eqn:En; [|lia].
    now apply numericAnswer_range in En.
Qed.

Lemma convertPersonalResourceAnswer_range (rawValue : jsstring)
    (questionNum : Z) (email : jsstring) :
  1 <= convertPersonalResourceAnswer toLowerCase rawValue questionNum email
  <= 5.
Proof.
  unfold convertPersonalResourceAnswer.
  repeat match goal with
         | |- context [if ?b then _ else _] => destruct b; [lia|]
         end.
  destruct (numericAnswer _ 1 5) as [n|] eqn:En; [|lia].
  now apply numericAnswer_range in En.
Qed.

Lemma convertRyffAnswer_range (rawValue : jsstring) (questionNum : Z)
    (email : jsstring) :
  1 <= convertRyffAnswer toLowerCase rawValue questionNum email <= 6.
Proof.
  unfold convertRyffAnswer.
  repeat match goal with
         | |- context [if ?b then _ else _] => destruct b; [lia|]
         end.
  destruct (numericAnswer _ 1 6) as [n|] eqn:En; [|lia].
  now apply numericAnswer_range in En.
Qed.

(** X1. Whatever the text of a field and whatever the case mapping, each
    decoder answers on its own scale: САН in 1..7, Basic Ph in 0..6,
    Personal Resources in 1..5, Ryff in 1..6. *)
Theorem decoders_stay_on_scale (rawValue : jsstring) (isReversed : bool)
    (questionNum : Z) (email : jsstring) :
  1 <= convertSanAnswer toLowerCase rawValue isReversed questionNum email <= 7
  /\ 0 <= convertBasicPhAnswer toLowerCase rawValue questionNum email <= 6
  /\ 1 <= convertPersonalResourceAnswer toLowerCase rawValue questionNum email
     <= 5
  /\ 1 <= convertRyffAnswer toLowerCase rawValue questionNum email <= 6.
Proof.
  split; [apply convertSanAnswer_range|].
  split; [apply convertBasicPhAnswer_range|].
  split; [apply convertPersonalResourceAnswer_range|].
  apply convertRyffAnswer_range.
Qed.

End DecoderRanges.

Lemma digit_is_plain (c : N) :
  Js.isDigit c = true ->
  Js.isWhiteSpace c = false /\ (c =? 45)%N = false /\ (c =? 43)%N = false.
Proof.
  unfold Js.isDigit, Js.isWhiteSpace. intros H.
  apply andb_true_iff in H as [H1 H2]. apply N.leb_le in H1, H2.
  split; [|split].
  - apply not_true_iff_false. intros W.
    rewrite !orb_true_iff, !andb_true_iff, !N.leb_le, !N.eqb_eq in W. lia.
  - apply N.eqb_neq. lia.
  - apply N.eqb_neq. lia.
Qed.

Lemma decimal_includes_no_keyword (s kw : jsstring) :
  Forall (fun c => Js.isDigit c = true) s ->
  startsWithNonDigit kw = true ->
  Js.includes s kw = false.
Proof.
  intros Hs Hkw. destruct kw as [|k kw]; [discriminate|].
  cbn [startsWithNonDigit] in Hkw. apply negb_true_iff in Hkw.
  induction Hs as [|c s Hc Hs IH]; [reflexivity|].
  cbn [Js.includes Js.startsWith]. rewrite IH, orb_false_r.
  destruct (N.eqb_spec c k) as [->|]; [congruence | reflexivity].
Qed.

Lemma decimal_is_no_key (m : list (jsstring * Z)) (s : jsstring) :
  isDecimal s ->
  forallb (fun kv => startsWithNonDigit (fst kv)) m = true ->
  ownProperty m s = None.
Proof.
  intros [Hne Hs] Hm. induction m as [|[k v] m IH]; [reflexivity|].
  cbn [forallb fst] in Hm. apply andb_true_iff in Hm as [Hk Hm].
  cbn [ownProperty]. destruct (js_eqb_spec s k) as [<-|_]; [|now apply IH].
  destruct s as [|c s]; [contradiction|].
  inversion Hs as [|? ? Hc _]; subst. cbn in Hk. now rewrite Hc in Hk.
Qed.

Lemma parseInt_decimal (s : jsstring) :
  isDecimal s -> Js.parseInt s = Some (Js.digits_value 0 s).
Proof.
  intros [Hne Hs]. destruct s as [|c s]; [contradiction|].
  inversion Hs as [|? ? Hc _]; subst.
  destruct (digit_is_plain c Hc) as (Hw & Hm & Hp).
  unfold Js.parseInt. cbn [Js.trimStart]. rewrite Hw, Hm, Hp.
  cbn [Js.starts_with_digit]. now rewrite Hc.
Qed.

Lemma numericAnswer_decimal (s : jsstring) (lo hi : Z) :
  isDecimal s ->
  numericAnswer s lo hi
  = if (lo <=? Js.digits_value 0 s) && (Js.digits_value 0 s <=? hi)
    then Some (Js.digits_value 0 s) else None.
Proof.
  intros H. unfold numericAnswer. now rewrite parseInt_decimal.
Qed.

(** X2. A field whose trimmed, lower-cased text is a string of decimal
    digits holds no keyword, so it is read as a number: it decodes to that
    number when the number is on the scale of the test, and to the default
    of the test (0 for Basic Ph, 3 for Personal Resources and Ryff)
    otherwise. *)
Theorem decimal_field_decodes_to_its_number
    (toLowerCase : jsstring -> jsstring) (rawValue digits : jsstring)
    (questionNum : Z) (email : jsstring) :
  let n := Js.digits_value 0 digits in
  toLowerCase (Js.trim rawValue) = digits ->
  isDecimal digits ->
  convertBasicPhAnswer toLowerCase rawValue questionNum email
  = (if (0 <=? n) && (n <=? 6) then n else 0)
  /\ convertPersonalResourceAnswer toLowerCase rawValue questionNum email
     = (if (1 <=? n) && (n <=? 5) then n else 3)
  /\ convertRyffAnswer toLowerCase rawValue questionNum email
     = (if (1 <=? n) && (n <=? 6) then n else 3).
Proof.
  intros n Hn Hd.
  assert (K : forall kw, startsWithNonDigit kw = true ->
                         Js.includes digits kw = false).
  { intros kw. apply decimal_includes_no_keyword, Hd. }
  split; [|split].
  - unfold convertBasicPhAnswer. rewrite Hn.
    rewrite (decimal_is_no_key answerMap digits Hd) by reflexivity.
    rewrite !K by reflexivity. rewrite numericAnswer_decimal by exact Hd.
    fold n. destruct ((0 <=? n) && (n <=? 6)); reflexivity.
  - unfold convertPersonalResourceAnswer. rewrite Hn.
    rewrite !K by reflexivity. cbn [orb].
    rewrite numericAnswer_decimal by exact Hd.
    fold n. destruct ((1 <=? n) && (n <=? 5)); reflexivity.
  - unfold convertRyffAnswer. rewrite Hn.
    rewrite !K by reflexivity. rewrite numericAnswer_decimal by exact Hd.
    fold n. destruct ((1 <=? n) && (n <=? 6)); reflexivity.
Qed.

(** The field " 4 " decodes to 4 in the three tests; "12" is off every
    scale. *)
Lemma decimal_field_decodes_to_its_number_witness :
  convertBasicPhAnswer Js.toLowerCaseUk (u " 4 ") 1 (u "a@b") = 4
  /\ convertRyffAnswer Js.toLowerCaseUk (u "12") 1 (u "a@b") = 3.
Proof.
  split.
  - refine (proj1 (decimal_field_decodes_to_its_number
                     Js.toLowerCaseUk (u " 4 ") (u "4") 1 (u "a@b")
                     eq_refl _)).
    split; [discriminate | repeat constructor].
  - refine (proj2 (proj2 (decimal_field_decodes_to_its_number
                     Js.toLowerCaseUk (u "12") (u "12") 1 (u "a@b")
                     eq_refl _))).
    split; [discriminate | repeat constructor].
Defined.

(** X3. On a bare-digit answer (a text that does not begin with "3 (" or
    "3(") the reversed flag mirrors the scale around its centre: the score
    on a reversed question is 8 minus the score on a direct one.  On a
    described extreme the flag is not consulted at all. *)
Theorem san_reversal_mirrors_inner_points
    (toLowerCase : jsstring -> jsstring) (rawValue : jsstring)
    (questionNum : Z) (email : jsstring) :
  let normalized := Js.trim rawValue in
  let described :=
    Js.startsWith normalized (u "3 (") || Js.startsWith normalized (u "3(") in
  let direct := convertSanAnswer toLowerCase rawValue false questionNum email in
  let reversed := convertSanAnswer toLowerCase rawValue true questionNum email in
  (described = false -> reversed = 8 - direct)
  /\ (described = true -> reversed = direct).
Proof.
  cbv zeta. unfold convertSanAnswer.
  destruct (Js.startsWith _ (u "3 (") || Js.startsWith _ (u "3(")).
  - split; [discriminate | reflexivity].
  - split; [intros _ | discriminate].
    repeat match goal with
           | |- context [if ?b then _ else _] => destruct b
           end; reflexivity.
Qed.

(** The marked "2" is 6 on a direct question and 2 on a reversed one. *)
Lemma san_reversal_mirrors_inner_points_witness :
  convertSanAnswer Js.toLowerCaseUk (u "2ㅤ") true 3 (u "a@b")
  = 8 - convertSanAnswer Js.toLowerCaseUk (u "2ㅤ") false 3 (u "a@b").
Proof.
  exact (proj1 (san_reversal_mirrors_inner_points
                  Js.toLowerCaseUk (u "2ㅤ") 3 (u "a@b")) eq_refl).
Defined.

Lemma in_by_eqb (x : jsstring) (l : list jsstring) :
  existsb (Js.eqb x) l = true -> In x l.
Proof.
  intros H. apply existsb_exists in H as (y & Hy & E).
  destruct (js_eqb_spec x y); [now subst | discriminate].
Qed.

Lemma includes_one_of (s kw : jsstring) (kws : list jsstring) :
  existsb (Js.eqb kw) kws = true ->
  Js.includes s kw = true ->
  existsb (fun kw => Js.includes s kw) kws = true.
Proof.
  intros Hin H. apply existsb_exists. exists kw.
  split; [now apply in_by_eqb | exact H].
Qed.

(** X4. The positive keywords are looked for first, and five negative
    keywords contain one ("малорухливий" contains "рухливий", and so on):
    a described extreme whose text includes one of these five decodes to
    7, never to 1. *)
Theorem san_positive_keyword_shadows_negative
    (toLowerCase : jsstring -> jsstring) (rawValue : jsstring)
    (isReversed : bool) (questionNum : Z) (email : jsstring)
    (kw : jsstring) :
  let normalized := Js.trim rawValue in
  Js.startsWith normalized (u "3 (") || Js.startsWith normalized (u "3(")
  = true ->
  In kw shadowedNegativeKeywords ->
  Js.includes (toLowerCase normalized) kw = true ->
  In kw negativeKeywords
  /\ convertSanAnswer toLowerCase rawValue isReversed questionNum email = 7.
Proof.
  intros normalized Hd Hkw Hinc.
  assert (Hpos : existsb (fun p => Js.includes (toLowerCase normalized) p)
                         positiveKeywords = true).
  { unfold shadowedNegativeKeywords in Hkw. cbn [In] in Hkw.
    destruct Hkw as [<-|[<-|[<-|[<-|[<-|[]]]]]].
    - apply (includes_one_of _ (u "рухливий")); [reflexivity|].
      exact (includes_part _ (u "мало") (u "рухливий") [] Hinc).
    - apply (includes_one_of _ (u "працездатний")); [reflexivity|].
      exact (includes_part _ (u "мало") (u "працездатний") [] Hinc).
    - apply (includes_one_of _ (u "витривалий")); [reflexivity|].
      exact (includes_part _ (u "мало") (u "витривалий") [] Hinc).
    - apply (includes_one_of _ (u "уважний")); [reflexivity|].
      exact (includes_part _ (u "не") (u "уважний") [] Hinc).
    - apply (includes_one_of _ (u "задоволений")); [reflexivity|].
      exact (includes_part _ (u "не") (u "задоволений") [] Hinc). }
  split.
  - apply in_by_eqb. unfold shadowedNegativeKeywords in Hkw. cbn [In] in Hkw.
    destruct Hkw as [<-|[<-|[<-|[<-|[<-|[]]]]]]; reflexivity.
  - unfold convertSanAnswer. fold normalized. rewrite Hd, Hpos. reflexivity.
Qed.

(** "3 (малорухливий)" is the negative pole of its question, and decodes
    to 7. *)
Lemma san_positive_keyword_shadows_negative_witness :
  convertSanAnswer Js.toLowerCaseUk (u "3 (малорухливий)") false 4 (u "a@b")
  = 7.
Proof.
  refine (proj2 (san_positive_keyword_shadows_negative
                   Js.toLowerCaseUk (u "3 (малорухливий)") false 4 (u "a@b")
                   (u "малорухливий") eq_refl _ eq_refl)).
  left. reflexivity.
Defined.

(** ** Row tokenizer *)

Lemma fold_invariant {A B : Type} (f : A -> B -> A) (P : A -> Prop)
    (Q : B -> Prop) :
  (forall a b, Q b -> P a -> P (f a b)) ->
  forall l a, Forall Q l -> P a -> P (fold_left f l a).
Proof.
  intros Hstep l. induction l as [|b l IH]; intros a Hl Ha; [exact Ha|].
  inversion Hl; subst. cbn [fold_left]. apply IH; auto.
Qed.

Lemma Forall_True {A : Type} (l : list A) : Forall (fun _ => True) l.
Proof. induction l; constructor; auto. Qed.

Lemma In_trimStart (x : N) (s : jsstring) : In x (Js.trimStart s) -> In x s.
Proof.
  induction s as [|c s IH]; simpl; [tauto|].
  destruct (Js.isWhiteSpace c); simpl; tauto.
Qed.

Lemma In_trim (x : N) (s : jsstring) : In x (Js.trim s) -> In x s.
Proof.
  unfold Js.trim, Js.trimEnd. intros H.
  apply in_rev, In_trimStart in H. apply in_rev in H.
  now apply In_trimStart.
Qed.

Lemma parseCSVLine_clean (line : jsstring) :
  Forall cleanField (parseCSVLine line).
Proof.
  unfold parseCSVLine.
  set (P := fun st => Forall cleanField (result st) /\ ~ In 34%N (current st)).
  assert (H : P (fold_left parseCSVStep line
                   {| result := []; current := []; inQuotes := false |})).
  { apply (fold_invariant parseCSVStep P (fun _ => True)).
    - intros st c _ [Hr Hc]. unfold parseCSVStep.
      destruct (N.eqb_spec c 34) as [->|Hq]; [split; assumption|].
      destruct ((c =? 44)%N && negb (inQuotes st)); cbn [result current].
      + split; [|tauto]. apply Forall_app. split; [exact Hr|].
        constructor; [|constructor]. split; [apply trim_idempotent|].
        intros Hin. apply Hc. now apply In_trim.
      + split; [exact Hr|]. intros Hin. apply in_app_or in Hin as [Hin|Hin];
          [tauto|]. destruct Hin as [->|[]]. congruence.
    - apply Forall_True.
    - split; [constructor | tauto]. }
  destruct H as [Hr Hc]. apply Forall_app. split; [exact Hr|].
  constructor; [|constructor]. split; [apply trim_idempotent|].
  intros Hin. apply Hc. now apply In_trim.
Qed.

Lemma parseCSVLine_plain (line : jsstring) :
  ~ In 34%N line ->
  Forall (fun field => ~ In 44%N field) (parseCSVLine line)
  /\ List.length (parseCSVLine line) = S (count_occ N.eq_dec line 44%N).
Proof.
  intros Hq. unfold parseCSVLine.
  set (P := fun st =>
              inQuotes st = false
              /\ Forall (fun field => ~ In 44%N field) (result st)
              /\ ~ In 44%N (current st)).
  assert (H : P (fold_left parseCSVStep line
                   {| result := []; current := []; inQuotes := false |})).
  { apply (fold_invariant parseCSVStep P (fun c => c <> 34%N)).
    - intros st c Hc (Hi & Hr & Hcur). unfold parseCSVStep.
      destruct (N.eqb_spec c 34); [contradiction|].
      rewrite Hi. cbn [negb]. rewrite andb_true_r.
      destruct (N.eqb_spec c 44) as [->|Hcomma]; cbn [result current inQuotes].
      + split; [reflexivity|]. split; [|tauto].
        apply Forall_app. split; [exact Hr|]. constructor; [|constructor].
        intros Hin. apply Hcur. now apply In_trim.
      + split; [reflexivity|]. split; [exact Hr|].
        intros Hin. apply in_app_or in Hin as [Hin|Hin]; [tauto|].
        destruct Hin as [->|[]]. congruence.
    - apply Forall_forall. intros c Hin ->. contradiction.
    - split; [reflexivity|]. split; [constructor | tauto]. }
  destruct H as (_ & Hr & Hcur). split.
  - apply Forall_app. split; [exact Hr|]. constructor; [|constructor].
    intros Hin. apply Hcur. now apply In_trim.
  - rewrite length_app. cbn [List.length].
    assert (G : forall st,
               inQuotes st = false ->
               List.length
                 (result (fold_left parseCSVStep line st))
               = (List.length (result st) + count_occ N.eq_dec line 44%N)%nat).
    { clear Hr Hcur. induction line as [|c line IH]; intros st Hi.
      - cbn. lia.
      - cbn [fold_left count_occ].
        assert (Hc : c <> 34%N) by (intros ->; apply Hq; now left).
        assert (Hl : ~ In 34%N line) by (intros Hin; apply Hq; now right).
        rewrite (IH Hl).
        + unfold parseCSVStep.
          destruct (N.eqb_spec c 34); [contradiction|].
          rewrite Hi. cbn [negb]. rewrite andb_true_r.
          destruct (N.eqb_spec c 44) as [->|Hcomma]; cbn [result].
          * rewrite length_app. cbn [List.length].
            destruct (N.eq_dec 44 44); [lia | congruence].
          * destruct (N.eq_dec c 44); [congruence | lia].
        + unfold parseCSVStep.
          destruct (N.eqb_spec c 34); [contradiction|].
          rewrite Hi. cbn [negb]. rewrite andb_true_r.
          destruct (c =? 44)%N; reflexivity. }
    rewrite G by reflexivity. cbn [result List.length]. lia.
Qed.

(** X5. The tokenizer returns at least one field; every field is trimmed
    (trimming it again changes nothing) and holds no quote character.
    When the line holds no quote character, no field holds a comma and the
    number of fields is the number of commas plus one. *)
Theorem parseCSVLine_fields (line : jsstring) :
  parseCSVLine line <> []
  /\ Forall cleanField (parseCSVLine line)
  /\ (~ In 34%N line ->
      Forall (fun field => ~ In 44%N field) (parseCSVLine line)
      /\ List.length (parseCSVLine line) = S (count_occ N.eq_dec line 44%N)).
Proof.
  split; [|split].
  - unfold parseCSVLine. intros H. apply app_eq_nil in H as [_ H].
    discriminate H.
  - apply parseCSVLine_clean.
  - apply parseCSVLine_plain.
Qed.

(** A plain line with two commas has three fields. *)
Lemma parseCSVLine_fields_witness :
  List.length (parseCSVLine (u "2024-01-01, a@b ,30")) = 3%nat.
Proof.
  refine (proj2 (proj2 (proj2 (parseCSVLine_fields (u "2024-01-01, a@b ,30")))
                  _)).
  vm_compute. intuition discriminate.
Defined.

(** Characters that neither toggle the quote state nor split are
    appended to the current field. *)
Lemma parseCSV_run (s : jsstring) (st : LineState) :
  ~ In 34%N s ->
  (inQuotes st = true \/ ~ In 44%N s) ->
  fold_left parseCSVStep s st
  = {| result := result st; current := current st ++ s;
       inQuotes := inQuotes st |}.
Proof.
  revert st. induction s as [|c s IH]; intros st Hq Hc.
  - cbn. rewrite app_nil_r. now destruct st.
  - cbn [fold_left].
    assert (Hc34 : (c =? 34)%N = false)
      by (apply N.eqb_neq; intros ->; apply Hq; now left).
    assert (Hsplit : (c =? 44)%N && negb (inQuotes st) = false).
    { destruct Hc as [->|Hc]; [apply andb_false_r|].
      replace (c =? 44)%N with false; [reflexivity|].
      symmetry. apply N.eqb_neq. intros ->. apply Hc. now left. }
    unfold parseCSVStep at 2. rewrite Hc34, Hsplit.
    rewrite IH; cbn [result current inQuotes].
    + now rewrite <- app_assoc.
    + intros Hin. apply Hq. now right.
    + destruct Hc as [Hc|Hc]; [now left | right].
      intros Hin. apply Hc. now right.
Qed.

Lemma parseCSV_written_field (quoted : bool) (field : jsstring)
    (fields : list jsstring) :
  writable quoted field ->
  fold_left parseCSVStep (writeField quoted field)
            {| result := fields; current := []; inQuotes := false |}
  = {| result := fields; current := field; inQuotes := false |}.
Proof.
  intros [[_ Hq] Hc]. destruct quoted; cbn [writeField].
  - cbn [fold_left]. unfold parseCSVStep at 2. cbn [N.eqb Pos.eqb].
    cbn [result current inQuotes negb].
    rewrite fold_left_app.
    rewrite (parseCSV_run field); [|exact Hq | now left].
    reflexivity.
  - rewrite parseCSV_run; [reflexivity | exact Hq | right; now apply Hc].
Qed.

(** X6. Writing and reading a row is a round trip: when each field of a
    non-empty row is trimmed and free of quote characters, and is written
    either between quotes or, if it holds no comma, plain, then joining
    the written fields with commas and tokenizing the line gives the
    fields back. *)
Theorem parseCSVLine_reads_back (fields : list (bool * jsstring)) :
  fields <> [] ->
  Forall (fun qf => writable (fst qf) (snd qf)) fields ->
  parseCSVLine
    (joinFields (map (fun qf => writeField (fst qf) (snd qf)) fields))
  = map snd fields.
Proof.
  intros Hne Hw. unfold parseCSVLine.
  enough (G : forall done,
             let st :=
               fold_left parseCSVStep
                 (joinFields
                    (map (fun qf => writeField (fst qf) (snd qf)) fields))
                 {| result := done; current := []; inQuotes := false |} in
             result st ++ [Js.trim (current st)] = done ++ map snd fields)
    by exact (G []).
  cbv zeta.
  induction fields as [|[q f] rest IH]; [contradiction|]. intros done.
  inversion Hw as [|? ? Hf Hrest]; subst. cbn [fst snd] in Hf.
  destruct rest as [|qf' rest'].
  - cbn [map joinFields fst snd].
    rewrite parseCSV_written_field by exact Hf. cbn [result current].
    destruct Hf as [[Ht _] _]. now rewrite Ht.
  - change (joinFields
              (map (fun qf => writeField (fst qf) (snd qf))
                   ((q, f) :: qf' :: rest')))
      with (writeField q f
              ++ 44%N :: joinFields
                   (map (fun qf => writeField (fst qf) (snd qf))
                        (qf' :: rest'))).
    rewrite fold_left_app. rewrite parseCSV_written_field by exact Hf.
    cbn [fold_left]. unfold parseCSVStep at 2 4.
    cbn [N.eqb Pos.eqb inQuotes negb andb result current].
    destruct Hf as [[Ht _] _]. rewrite Ht.
    rewrite (IH ltac:(discriminate) Hrest (done ++ [f])).
    cbn [map snd]. now rewrite <- app_assoc.
Qed.

(** A quoted field with a comma between two plain fields. *)
Lemma parseCSVLine_reads_back_witness :
  parseCSVLine (u "a@b," ++ [34%N] ++ u "3 (добре, так)" ++ [34%N] ++ u ",0")
  = [u "a@b"; u "3 (добре, так)"; u "0"].
Proof.
  refine (parseCSVLine_reads_back
            [(false, u "a@b"); (true, u "3 (добре, так)"); (false, u "0")]
            _ _).
  - discriminate.
  - repeat constructor; cbn [fst snd]; try discriminate;
      vm_compute; intuition discriminate.
Defined.

Lemma blank_plain (ws : jsstring) :
  blank ws -> ~ In 34%N ws /\ ~ In 44%N ws.
Proof.
  intros H. split; intros Hin;
    (eapply Forall_forall in H; [|exact Hin]); discriminate H.
Qed.

Lemma trimStart_blank_app (ws s : jsstring) :
  blank ws -> Js.trimStart (ws ++ s) = Js.trimStart s.
Proof.
  induction 1 as [|c ws Hc Hws IH]; [reflexivity|].
  cbn [app Js.trimStart]. now rewrite Hc.
Qed.

Lemma trimEnd_app_blank (s ws : jsstring) :
  blank ws -> Js.trimEnd (s ++ ws) = Js.trimEnd s.
Proof.
  intros H. unfold Js.trimEnd. rewrite rev_app_distr.
  rewrite trimStart_blank_app; [reflexivity|].
  unfold blank. now apply Forall_rev.
Qed.

Lemma trim_blank (ws : jsstring) : blank ws -> Js.trim ws = [].
Proof.
  intros H. unfold Js.trim.
  rewrite <- (app_nil_r ws), trimStart_blank_app by exact H. reflexivity.
Qed.

Lemma trim_blank_app (ws s : jsstring) :
  blank ws -> Js.trim (ws ++ s) = Js.trim s.
Proof.
  intros H. unfold Js.trim. now rewrite trimStart_blank_app.
Qed.

Lemma trim_app_blank (s ws : jsstring) :
  blank ws -> Js.trim (s ++ ws) = Js.trim s.
Proof.
  intros H. unfold Js.trim. induction s as [|c s IH].
  - cbn [app]. fold (Js.trim ws). now rewrite trim_blank.
  - cbn [app Js.trimStart]. destruct (Js.isWhiteSpace c); [exact IH|].
    change (c :: s ++ ws) with ((c :: s) ++ ws).
    now apply trimEnd_app_blank.
Qed.

Lemma parseCSVStep_eq (fields : list jsstring) (cur : jsstring) (q : bool)
    (c : N) :
  parseCSVStep {| result := fields; current := cur; inQuotes := q |} c
  = if (c =? 34)%N then
      {| result := fields; current := cur; inQuotes := negb q |}
    else if (c =? 44)%N && negb q then
      {| result := fields ++ [Js.trim cur]; current := []; inQuotes := q |}
    else {| result := fields; current := cur ++ [c]; inQuotes := q |}.
Proof. reflexivity. Qed.

(** White space in front of the current field does not show in the
    fields. *)
Lemma parseCSV_leading_blank (ws line : jsstring) (fields : list jsstring)
    (cur : jsstring) (q : bool) :
  blank ws ->
  let st := fold_left parseCSVStep line
              {| result := fields; current := ws ++ cur; inQuotes := q |} in
  let st' := fold_left parseCSVStep line
               {| result := fields; current := cur; inQuotes := q |} in
  result st ++ [Js.trim (current st)] = result st' ++ [Js.trim (current st')].
Proof.
  intros Hws. cbv zeta. revert fields cur q.
  induction line as [|c line IH]; intros fields cur q.
  - cbn [fold_left result current]. now rewrite trim_blank_app.
  - cbn [fold_left]. rewrite !parseCSVStep_eq.
    destruct (c =? 34)%N; [apply IH|].
    destruct ((c =? 44)%N && negb q).
    + now rewrite trim_blank_app.
    + rewrite <- app_assoc. apply IH.
Qed.

Lemma parseCSVLine_app_blank (line ws : jsstring) :
  blank ws -> parseCSVLine (line ++ ws) = parseCSVLine line.
Proof.
  intros Hws. unfold parseCSVLine. rewrite fold_left_app.
  destruct (blank_plain ws Hws) as [Hq Hc].
  rewrite (parseCSV_run ws); [|exact Hq | now right].
  cbn [result current]. now rewrite trim_app_blank.
Qed.

Lemma parseCSVLine_blank_app (ws line : jsstring) :
  blank ws -> parseCSVLine (ws ++ line) = parseCSVLine line.
Proof.
  intros Hws. unfold parseCSVLine. rewrite fold_left_app.
  destruct (blank_plain ws Hws) as [Hq Hc].
  rewrite (parseCSV_run ws); [|exact Hq | now right].
  cbn [result current inQuotes app].
  rewrite <- (app_nil_r ws).
  apply (parseCSV_leading_blank ws line [] [] false Hws).
Qed.

(** X7. White space around a line does not change its fields; in
    particular a carriage return left at the end of a line by a CRLF file
    is harmless. *)
Theorem parseCSVLine_ignores_surrounding_blanks (before line after : jsstring) :
  blank before -> blank after ->
  parseCSVLine (before ++ line ++ after) = parseCSVLine line
  /\ parseCSVLine (line ++ [13%N]) = parseCSVLine line.
Proof.
  intros Hb Ha. split.
  - rewrite app_assoc, parseCSVLine_app_blank by exact Ha.
    now apply parseCSVLine_blank_app.
  - apply parseCSVLine_app_blank. repeat constructor.
Qed.

(** A row with a space in front and a carriage return behind. *)
Lemma parseCSVLine_ignores_surrounding_blanks_witness :
  parseCSVLine (u " " ++ u "a@b, 30" ++ [13%N]) = [u "a@b"; u "30"].
Proof.
  refine (eq_trans
    (proj1 (parseCSVLine_ignores_surrounding_blanks
              (u " ") (u "a@b, 30") [13%N] _ _)) eq_refl);
    repeat constructor.
Defined.

Lemma parseCSV_inQuotes (line : jsstring) (st : LineState) :
  inQuotes (fold_left parseCSVStep line st)
  = if Nat.even (count_occ N.eq_dec line 34%N) then inQuotes st
    else negb (inQuotes st).
Proof.
  revert st. induction line as [|c line IH]; intros st; [reflexivity|].
  cbn [fold_left count_occ]. rewrite IH. unfold parseCSVStep.
  destruct (N.eq_dec c 34) as [->|Hc].
  - cbn [N.eqb Pos.eqb inQuotes]. rewrite Nat.even_succ, <- Nat.negb_even.
    destruct (Nat.even _); cbn [negb]; [reflexivity | apply negb_involutive].
  - replace (c =? 34)%N with false by (symmetry; now apply N.eqb_neq).
    destruct ((c =? 44)%N && negb (inQuotes st)); reflexivity.
Qed.

(** X8. A quote that is never closed swallows the rest of the line: when
    the text before it has its quotes paired and the text after it holds
    no quote, the commas after it split nothing, and all that follows
    ends up in the field that was being read. *)
Theorem unclosed_quote_swallows_rest (before after : jsstring) :
  Nat.even (count_occ N.eq_dec before 34%N) = true ->
  ~ In 34%N after ->
  exists fields last,
    parseCSVLine before = fields ++ [Js.trim last]
    /\ parseCSVLine (before ++ 34%N :: after)
       = fields ++ [Js.trim (last ++ after)].
Proof.
  intros Heven Hq. unfold parseCSVLine.
  set (st0 := {| result := []; current := []; inQuotes := false |}).
  pose proof (parseCSV_inQuotes before st0) as Hi. rewrite Heven in Hi.
  destruct (fold_left parseCSVStep before st0) as [fields last q] eqn:E.
  cbn [inQuotes st0] in Hi. subst q.
  exists fields, last. split; [reflexivity|].
  rewrite fold_left_app, E. cbn [fold_left]. rewrite parseCSVStep_eq.
  cbn [N.eqb Pos.eqb negb].
  rewrite (parseCSV_run after); [reflexivity | exact Hq | now left].
Qed.

(** After the stray quote the two commas no longer split. *)
Lemma unclosed_quote_swallows_rest_witness :
  List.length (parseCSVLine (u "a,b" ++ 34%N :: u "c,d,e")) = 2%nat.
Proof.
  destruct (unclosed_quote_swallows_rest (u "a,b") (u "c,d,e") eq_refl)
    as (fields & last & H1 & H2).
  - vm_compute. intuition discriminate.
  - rewrite H2.
    assert (L : List.length (parseCSVLine (u "a,b")) = 2%nat) by reflexivity.
    rewrite H1 in L. rewrite length_app in *. exact L.
Defined.

(** ** Loading a file *)

Lemma split_lines_aux_app (cur before after : jsstring) :
  Js.split_lines_aux cur (before ++ 10%N :: after)
  = Js.split_lines_aux cur before ++ Js.split_lines after.
Proof.
  revert cur. induction before as [|c before IH]; intros cur.
  - reflexivity.
  - cbn [app Js.split_lines_aux]. destruct (c =? 10)%N.
    + cbn [app]. f_equal. apply IH.
    + apply IH.
Qed.

Lemma nonBlankLines_app (before after : jsstring) :
  nonBlankLines (before ++ 10%N :: after)
  = nonBlankLines before ++ nonBlankLines after.
Proof.
  unfold nonBlankLines, Js.split_lines.
  now rewrite split_lines_aux_app, filter_app.
Qed.

Lemma split_lines_aux_blank (cur ws : jsstring) :
  blank cur -> blank ws -> Forall blank (Js.split_lines_aux cur ws).
Proof.
  intros Hcur Hws. revert cur Hcur.
  induction Hws as [|c ws Hc Hws IH]; intros cur Hcur.
  - constructor; [|constructor]. unfold blank. now apply Forall_rev.
  - cbn [Js.split_lines_aux]. destruct (c =? 10)%N.
    + constructor; [unfold blank; now apply Forall_rev|].
      apply IH. constructor.
    + apply IH. now constructor.
Qed.

Lemma nonBlankLines_blank (ws : jsstring) : blank ws -> nonBlankLines ws = [].
Proof.
  intros H. unfold nonBlankLines, Js.split_lines.
  pose proof (split_lines_aux_blank [] ws (Forall_nil _) H) as Hall.
  induction Hall as [|piece pieces Hp _ IH]; [reflexivity|].
  cbn [filter]. rewrite (trim_blank piece Hp). exact IH.
Qed.

Section Load.

Variable toLowerCase : jsstring -> jsstring.

Lemma processRow_by_tokens (acc : list Respondent) (line line' : jsstring) :
  parseCSVLine line = parseCSVLine line' ->
  processRow toLowerCase acc line = processRow toLowerCase acc line'.
Proof. intros H. unfold processRow. now rewrite H. Qed.

Lemma processRows_by_tokens (rows rows' : list jsstring)
    (acc : list Respondent) :
  map parseCSVLine rows = map parseCSVLine rows' ->
  fold_left (processRow toLowerCase) rows acc
  = fold_left (processRow toLowerCase) rows' acc.
Proof.
  revert rows' acc. induction rows as [|r rows IH]; intros [|r' rows'] acc H;
    try discriminate; [reflexivity|].
  cbn [map] in H. injection H as Hr Hrows. cbn [fold_left].
  rewrite (processRow_by_tokens acc r r' Hr). now apply IH.
Qed.

(** The load reads the content only through the fields of its non-blank
    lines. *)
Lemma load_by_tokens (content content' : jsstring) (this : AppComponent) :
  map parseCSVLine (nonBlankLines content)
  = map parseCSVLine (nonBlankLines content') ->
  parseAndTransformCSV toLowerCase content this
  = parseAndTransformCSV toLowerCase content' this.
Proof.
  intros H. unfold parseAndTransformCSV.
  assert (Hlen : List.length (nonBlankLines content)
                 = List.length (nonBlankLines content')).
  { rewrite <- (length_map parseCSVLine), H. apply length_map. }
  rewrite Hlen.
  rewrite (processRows_by_tokens (tl (nonBlankLines content))
                                 (tl (nonBlankLines content')) []).
  - reflexivity.
  - destruct (nonBlankLines content), (nonBlankLines content');
      try discriminate; [reflexivity|].
    cbn [map] in H. now injection H.
Qed.

(** X9. Blank lines do not count: a content with a white-space-only
    stretch of lines inserted after any line break loads exactly as the
    content without it. *)
Theorem load_ignores_blank_lines (before ws after : jsstring)
    (this : AppComponent) :
  blank ws ->
  parseAndTransformCSV toLowerCase (before ++ 10%N :: ws ++ 10%N :: after) this
  = parseAndTransformCSV toLowerCase (before ++ 10%N :: after) this.
Proof.
  intros Hws. apply load_by_tokens. f_equal.
  rewrite !nonBlankLines_app, (nonBlankLines_blank ws Hws). reflexivity.
Qed.

End Load.

(** [sampleContent] with an empty line and a line of spaces after the
    header still gives two records. *)
Lemma load_ignores_blank_lines_witness :
  List.length
    (respondents
       (parseAndTransformCSV Js.toLowerCaseUk
          (u "Timestamp,Email,Age" ++ 10%N :: (10%N :: u "   ")
             ++ 10%N :: emptyRow ++ 10%N :: u "2024-01-01,a@b,30"
             ++ 10%N :: emptyRow)
          initialComponent))
  = 2%nat.
Proof.
  rewrite (load_ignores_blank_lines Js.toLowerCaseUk
             (u "Timestamp,Email,Age") (10%N :: u "   ")
             (emptyRow ++ 10%N :: u "2024-01-01,a@b,30" ++ 10%N :: emptyRow)
             initialComponent).
  - reflexivity.
  - repeat constructor.
Defined.

(** A line, or the same line with a carriage return behind. *)
Lemma split_lines_aux_crlf (cur content : jsstring) :
  Forall2 (fun line' line => line' = line \/ line' = line ++ [13%N])
          (Js.split_lines_aux cur (crlf content))
          (Js.split_lines_aux cur content).
Proof.
  revert cur. induction content as [|c content IH]; intros cur.
  - repeat constructor.
  - cbn [crlf Js.split_lines_aux]. destruct (N.eqb_spec c 10) as [->|Hc].
    + cbn [Js.split_lines_aux N.eqb Pos.eqb]. constructor; [|apply IH].
      right. reflexivity.
    + cbn [Js.split_lines_aux].
      replace (c =? 10)%N with false by (symmetry; now apply N.eqb_neq).
      apply IH.
Qed.

Lemma tokens_crlf (content : jsstring) :
  map parseCSVLine (nonBlankLines (crlf content))
  = map parseCSVLine (nonBlankLines content).
Proof.
  unfold nonBlankLines, Js.split_lines.
  pose proof (split_lines_aux_crlf [] content) as H.
  induction H as [|line' line lines' lines Hl _ IH]; [reflexivity|].
  assert (Ht : Js.trim line' = Js.trim line).
  { destruct Hl as [->| ->]; [reflexivity|].
    apply trim_app_blank. repeat constructor. }
  assert (Hp : parseCSVLine line' = parseCSVLine line).
  { destruct Hl as [->| ->]; [reflexivity|].
    apply parseCSVLine_app_blank. repeat constructor. }
  cbn [filter]. rewrite Ht.
  destruct (negb (Js.eqb (Js.trim line) Js.empty)); [|exact IH].
  cbn [map]. now rewrite Hp, IH.
Qed.

(** X10. A file with CRLF line endings loads exactly as the same file
    with LF line endings. *)
Theorem load_ignores_carriage_returns (toLowerCase : jsstring -> jsstring)
    (content : jsstring) (this : AppComponent) :
  parseAndTransformCSV toLowerCase (crlf content) this
  = parseAndTransformCSV toLowerCase content this.
Proof.
  apply load_by_tokens, tokens_crlf.
Qed.

Section LoadState.

Variable toLowerCase : jsstring -> jsstring.

Lemma filter_nil_iff {A : Type} (p : A -> bool) (l : list A) :
  filter p l = [] <-> existsb p l = false.
Proof.
  induction l as [|a l IH]; [tauto|].
  cbn [filter existsb]. destruct (p a); cbn [orb]; [|exact IH].
  split; discriminate.
Qed.

(** X11. Loads do not accumulate.  A content with a header and a data
    line replaces whatever was loaded before: the records after the load
    do not depend on the earlier state, and there are at most as many as
    data lines.  A content with fewer than 2 non-blank lines leaves the
    records of the earlier load in place. *)
Theorem load_replaces_previous_result (earlier content : jsstring)
    (this : AppComponent) :
  let before := parseAndTransformCSV toLowerCase earlier this in
  let after := parseAndTransformCSV toLowerCase content before in
  ((2 <= List.length (nonBlankLines content))%nat ->
   respondents after
   = respondents (parseAndTransformCSV toLowerCase content initialComponent)
   /\ (List.length (respondents after)
       <= List.length (nonBlankLines content) - 1)%nat)
  /\ ((List.length (nonBlankLines content) < 2)%nat ->
      respondents after = respondents before).
Proof.
  intros before after. split.
  - intros H. subst after.
    rewrite !parseAndTransformCSV_respondents by exact H.
    split; [reflexivity|].
    rewrite processRows_filter. cbn [app]. rewrite length_map.
    etransitivity; [apply filter_length_le|].
    destruct (nonBlankLines content); cbn [tl List.length]; lia.
  - intros H. subst after. unfold parseAndTransformCSV at 1.
    destruct (Z.ltb_spec (Z.of_nat (List.length (nonBlankLines content))) 2);
      [reflexivity | lia].
Qed.

(** X12. Loading a file through [handleFile] ends with an empty error
    message exactly when the name ends in ".csv", the content has a header
    and at least one data line, and some data row has at least 233
    fields.  A file with another name is refused with "Please upload a
    CSV file" and the records are left as they were. *)
Theorem handleFile_message (name content : jsstring) (this : AppComponent) :
  let loaded := handleFile toLowerCase name content this in
  (errorMessage loaded = Js.empty <->
   Js.endsWith name (u ".csv") = true
   /\ (2 <= List.length (nonBlankLines content))%nat
   /\ existsb hasEnoughColumns (tl (nonBlankLines content)) = true)
  /\ (Js.endsWith name (u ".csv") = false ->
      errorMessage loaded = u "Please upload a CSV file"
      /\ respondents loaded = respondents this).
Proof.
  intros loaded. subst loaded. unfold handleFile.
  destruct (Js.endsWith name (u ".csv")); cbn [negb].
  - split; [|discriminate].
    unfold parseAndTransformCSV.
    destruct (Z.ltb_spec (Z.of_nat (List.length (nonBlankLines content))) 2)
      as [Hlt|Hge].
    + cbn [errorMessage]. split; [discriminate|].
      intros (_ & H & _). lia.
    + rewrite processRows_filter. cbn [app]. rewrite length_map.
      destruct (filter hasEnoughColumns (tl (nonBlankLines content)))
        as [|row rows] eqn:E.
      * cbn [List.length Z.of_nat Z.eqb errorMessage].
        apply filter_nil_iff in E.
        split; [discriminate|]. intros (_ & _ & H). congruence.
      * cbn [List.length]. rewrite Nat2Z.inj_succ.
        replace (Z.succ (Z.of_nat (List.length rows)) =? 0) with false
          by (symmetry; apply Z.eqb_neq; lia).
        cbn [errorMessage]. split; [intros _|reflexivity].
        split; [reflexivity|]. split; [lia|].
        destruct (existsb hasEnoughColumns (tl (nonBlankLines content)))
          eqn:Ex; [reflexivity|].
        apply filter_nil_iff in Ex. congruence.
  - cbn [errorMessage respondents]. split.
    + split; [discriminate | intros [H _]; discriminate H].
    + intros _. split; reflexivity.
Qed.

End LoadState.

(** After [sampleContent], a header-only file leaves the two records. *)
Lemma load_replaces_previous_result_witness :
  List.length
    (respondents
       (parseAndTransformCSV Js.toLowerCaseUk headerOnlyContent
          (parseAndTransformCSV Js.toLowerCaseUk sampleContent
                                initialComponent)))
  = 2%nat.
Proof.
  rewrite (proj2 (load_replaces_previous_result Js.toLowerCaseUk
                    sampleContent headerOnlyContent initialComponent)).
  - reflexivity.
  - vm_compute. lia.
Defined.

(** A text file is refused by its name. *)
Lemma handleFile_message_witness :
  errorMessage
    (handleFile Js.toLowerCaseUk (u "answers.txt") sampleContent
                initialComponent)
  = u "Please upload a CSV file".
Proof.
  exact (proj1 (proj2 (handleFile_message Js.toLowerCaseUk (u "answers.txt")
                         sampleContent initialComponent) eq_refl)).
Defined.

(** ** Штепа aggregation *)

Lemma calculateShtepaResults_categories (answers : list bool) :
  shtepa_categories (calculateShtepaResults answers)
  = map (fun catDef =>
           {| shtepa_name := cd_name catDef;
              shtepa_score := shtepaScore answers (cd_questions catDef);
              shtepa_maxScore :=
                Z.of_nat (List.length (cd_questions catDef)) |})
        shtepaCategories.
Proof. reflexivity. Qed.

Lemma shtepaScore_bounds (answers : list bool)
    (questions : list ShtepaQuestion) :
  0 <= shtepaScore answers questions <= Z.of_nat (List.length questions).
Proof.
  rewrite shtepaScore_sum.
  pose proof (sumZ_bounds (map (slotPoint answers) questions) 0 1) as H.
  rewrite length_map in H. 
  assert (Hall : Forall (fun a => 0 <= a <= 1)
                        (map (slotPoint answers) questions)).
  { apply Forall_map, Forall_forall. intros q _. apply slotPoint_bounds. }
  specialize (H Hall). lia.
Qed.

(** X13. Whatever the answers, even an incomplete array, each of the 14
    Штепа categories scores between 0 and its maximum 8, the total is the
    sum of the 14 category scores, and it lies between 0 and 112. *)
Theorem shtepa_scores_within_bounds (answers : list bool) :
  let r := calculateShtepaResults answers in
  map shtepa_name (shtepa_categories r) = map cd_name shtepaCategories
  /\ Forall (fun c => 0 <= shtepa_score c <= shtepa_maxScore c
                      /\ shtepa_maxScore c = 8)
            (shtepa_categories r)
  /\ shtepa_totalScore r = sumZ (map shtepa_score (shtepa_categories r))
  /\ 0 <= shtepa_totalScore r <= 112.
Proof.
  intros r.
  assert (Hcats : Forall (fun c => 0 <= shtepa_score c <= shtepa_maxScore c
                                   /\ shtepa_maxScore c = 8)
                         (shtepa_categories r)).
  { subst r. rewrite calculateShtepaResults_categories.
    apply Forall_map. unfold shtepaCategories.
    repeat (constructor;
            [cbn [shtepa_score shtepa_maxScore cd_questions];
             split; [apply shtepaScore_bounds | reflexivity]|]).
    constructor. }
  destruct (calculateShtepaResults_scores answers) as (Es & Et & _).
  fold r in Es, Et.
  split; [subst r; rewrite calculateShtepaResults_categories;
          now rewrite map_map|].
  split; [exact Hcats|]. split; [now rewrite Es|].
  rewrite Et, <- Es.
  pose proof (sumZ_bounds (map shtepa_score (shtepa_categories r)) 0 8) as Hb.
  rewrite length_map in Hb.
  replace (List.length (shtepa_categories r)) with 14%nat in Hb
    by (subst r; rewrite calculateShtepaResults_categories; reflexivity).
  apply Hb. apply Forall_map. revert Hcats. apply Forall_impl.
  intros c [H1 H2]. lia.
Qed.

Lemma slotPoint_opposite (answers : list bool) (q : ShtepaQuestion) :
  1 <= sq_num q <= Z.of_nat (List.length answers) ->
  slotPoint (oppositeAnswers answers) q = 1 - slotPoint answers q.
Proof.
  intros Hq. unfold slotPoint, oppositeAnswers.
  rewrite (at_index_in_range answers (sq_num q - 1) false) by lia.
  rewrite (at_index_in_range (map negb answers) (sq_num q - 1) true)
    by (rewrite length_map; lia).
  change true with (negb false). rewrite map_nth.
  destruct (nth _ answers false), (expected q); reflexivity.
Qed.

Lemma shtepaScore_opposite (answers : list bool)
    (questions : list ShtepaQuestion) :
  Forall (fun q => 1 <= sq_num q <= Z.of_nat (List.length answers)) questions ->
  shtepaScore (oppositeAnswers answers) questions
  = Z.of_nat (List.length questions) - shtepaScore answers questions.
Proof.
  intros H. rewrite !shtepaScore_sum.
  induction H as [|q qs Hq _ IH]; [reflexivity|].
  cbn [map List.length]. change (sumZ (?x :: ?l)) with (x + sumZ l).
  rewrite IH, slotPoint_opposite by exact Hq. lia.
Qed.

Lemma sumZ_mirror (k : Z) (l : list Z) :
  sumZ (map (fun s => k - s) l) = k * Z.of_nat (List.length l) - sumZ l.
Proof.
  induction l as [|a l IH]; [cbn; lia|].
  cbn [map List.length]. change (sumZ (?x :: ?l)) with (x + sumZ l).
  rewrite IH. lia.
Qed.

(** X14. Turning every answer of a complete array into its opposite
    turns every category score [s] into [8 - s] and the total [t] into
    [112 - t]: each slot is won by exactly one of the two answers. *)
Theorem shtepa_opposite_answers (answers : list bool) :
  let r := calculateShtepaResults answers in
  let r' := calculateShtepaResults (oppositeAnswers answers) in
  List.length answers = 67%nat ->
  map shtepa_score (shtepa_categories r')
  = map (fun s => 8 - s) (map shtepa_score (shtepa_categories r))
  /\ shtepa_totalScore r' = 112 - shtepa_totalScore r.
Proof.
  intros r r' Hlen.
  assert (Hs : map shtepa_score (shtepa_categories r')
               = map (fun s => 8 - s) (map shtepa_score (shtepa_categories r))).
  { subst r r'. rewrite !calculateShtepaResults_categories, !map_map.
    cbn [shtepa_score]. unfold shtepaCategories. cbn [map cd_questions].
    repeat rewrite shtepaScore_opposite
      by (rewrite Hlen; repeat constructor; cbn; lia).
    reflexivity. }
  split; [exact Hs|].
  destruct (calculateShtepaResults_scores answers) as (Es & Et & _).
  destruct (calculateShtepaResults_scores (oppositeAnswers answers))
    as (Es' & Et' & _).
  fold r in Es, Et. fold r' in Es', Et'.
  rewrite Et', Et, <- Es', <- Es, Hs.
  assert (Hl : List.length (map shtepa_score (shtepa_categories r)) = 14%nat).
  { subst r. rewrite calculateShtepaResults_categories. reflexivity. }
  rewrite sumZ_mirror, Hl. lia.
Qed.

(** The opposite of [scenarioAnswers], whose total is 15, totals 97. *)
Lemma shtepa_opposite_answers_witness :
  shtepa_totalScore (calculateShtepaResults (oppositeAnswers scenarioAnswers))
  = 97.
Proof.
  rewrite (proj2 (shtepa_opposite_answers scenarioAnswers eq_refl)).
  reflexivity.
Defined.

(** Settles one side of a band equivalence once the comparisons of the
    classifier are decided. *)
Ltac settle_shtepa_band :=
  lazymatch goal with
  | |- @eq jsstring _ _ => first [vm_compute; reflexivity | exfalso; lia]
  | H : @eq jsstring _ _ |- _ =>
    first [lia | exfalso; vm_compute in H; discriminate H]
  | |- _ => lia
  end.

Lemma shtepaTotalLevel_bands (t : Z) :
  let l := shtepaTotalLevel t in
  (level l = u "Психологічна ресурсність не діагностується" <-> t <= 56)
  /\ (level l = u "Низький рівень" <-> 57 <= t <= 69)
  /\ (level l = u "Середній рівень" <-> 70 <= t <= 92)
  /\ (level l = u "Високий рівень" <-> 93 <= t <= 106)
  /\ (level l = u "Сумнівні дані" <-> 107 <= t)
  /\ (class l = u "not-diagnosed" <-> t <= 56)
  /\ (class l = u "low" <-> 57 <= t <= 69)
  /\ (class l = u "medium" <-> 70 <= t <= 92)
  /\ (class l = u "high" <-> 93 <= t <= 106)
  /\ (class l = u "doubtful" <-> 107 <= t).
Proof.
  cbv zeta. unfold shtepaTotalLevel.
  destruct (Z.leb_spec t 56); [|destruct (Z.leb_spec t 69);
    [|destruct (Z.leb_spec t 92); [|destruct (Z.leb_spec t 106)]]];
    cbn [level class];
    repeat match goal with
           | |- _ /\ _ => split
           | |- _ <-> _ => split; intros ?
           end; settle_shtepa_band.
Qed.

(** X15. The five bands of the Штепа total are contiguous and cover
    every total: up to 56 "не діагностується", 57..69 "Низький рівень",
    70..92 "Середній рівень", 93..106 "Високий рівень", from 107
    "Сумнівні дані", each with its own class. *)
Theorem shtepa_total_bands (answers : list bool) :
  let r := calculateShtepaResults answers in
  let t := shtepa_totalScore r in
  (shtepa_totalLevel r = u "Психологічна ресурсність не діагностується"
   <-> t <= 56)
  /\ (shtepa_totalLevel r = u "Низький рівень" <-> 57 <= t <= 69)
  /\ (shtepa_totalLevel r = u "Середній рівень" <-> 70 <= t <= 92)
  /\ (shtepa_totalLevel r = u "Високий рівень" <-> 93 <= t <= 106)
  /\ (shtepa_totalLevel r = u "Сумнівні дані" <-> 107 <= t)
  /\ (shtepa_totalLevelClass r = u "not-diagnosed" <-> t <= 56)
  /\ (shtepa_totalLevelClass r = u "low" <-> 57 <= t <= 69)
  /\ (shtepa_totalLevelClass r = u "medium" <-> 70 <= t <= 92)
  /\ (shtepa_totalLevelClass r = u "high" <-> 93 <= t <= 106)
  /\ (shtepa_totalLevelClass r = u "doubtful" <-> 107 <= t).
Proof.
  intros r t.
  destruct (calculateShtepaResults_scores answers) as (_ & Et & El & Ec).
  fold r in Et, El, Ec. subst t. rewrite El, Ec, Et.
  apply shtepaTotalLevel_bands.
Qed.

(** ** Sum aggregators *)

Lemma answerTo_onScale (lo hi : Z) (answers : list Z) (qNum : Z) :
  onScale lo hi answers ->
  1 <= qNum <= Z.of_nat (List.length answers) ->
  lo <= answerTo answers qNum <= hi.
Proof.
  intros Hs Hq. unfold answerTo.
  assert (Hin : In (nth (Z.to_nat (qNum - 1)) answers 0) answers)
    by (apply nth_In; lia).
  unfold onScale in Hs. rewrite Forall_forall in Hs. now apply Hs.
Qed.

Lemma sumOver_bounds (lo hi : Z) (answers : list Z) (questions : list Z) :
  onScale lo hi answers ->
  inRange answers questions ->
  lo * Z.of_nat (List.length questions)
  <= sumOver answers questions
  <= hi * Z.of_nat (List.length questions).
Proof.
  intros Hs Hr. unfold sumOver.
  pose proof (sumZ_bounds (map (answerTo answers) questions) lo hi) as H.
  rewrite length_map in H. apply H. apply Forall_map.
  unfold inRange in Hr. revert Hr. apply Forall_impl.
  intros q Hq. now apply (answerTo_onScale lo hi).
Qed.

Lemma calculateBasicPhResults_categories (answers : list Z) :
  bph_categories (calculateBasicPhResults answers)
  = map (fun catDef =>
           {| bph_code := bcd_code catDef;
              bph_name := bcd_name catDef;
              bph_score := addAnswers answers (bcd_questions catDef) (Num 0);
              bph_maxScore := 36 |})
        basicPhCategories.
Proof. reflexivity. Qed.

(** X16. For 36 answers on the scale 0..6 the six Basic Ph categories
    come out in the order B, A, S, I, C, Ph; each score is the sum of the
    six answers of the category and lies between 0 and the maximum 36,
    which is reached when the six answers are 6. *)
Theorem basicPh_category_scores (answers : list Z) :
  let r := calculateBasicPhResults answers in
  List.length answers = 36%nat ->
  onScale 0 6 answers ->
  map bph_code (bph_categories r)
  = [u "B"; u "A"; u "S"; u "I"; u "C"; u "Ph"]
  /\ map bph_score (bph_categories r)
     = map (fun catDef => Num (sumOver answers (bcd_questions catDef)))
           basicPhCategories
  /\ Forall (fun catDef => 0 <= sumOver answers (bcd_questions catDef) <= 36)
            basicPhCategories
  /\ Forall (fun c => bph_maxScore c = 36) (bph_categories r)
  /\ (answers = repeat 6 36 ->
      map bph_score (bph_categories r) = repeat (Num 36) 6).
Proof.
  intros r Hlen Hs. subst r. rewrite calculateBasicPhResults_categories.
  split; [reflexivity|]. split; [|split; [|split]].
  - rewrite map_map. cbn [bph_score]. unfold basicPhCategories.
    cbn [map bcd_questions].
    repeat rewrite addAnswers_in_range by in_range_by_length Hlen.
    reflexivity.
  - unfold basicPhCategories.
    repeat (constructor;
            [cbn [bcd_questions];
             match goal with
             | |- _ <= sumOver _ ?qs <= _ =>
               pose proof (sumOver_bounds 0 6 answers qs Hs
                             ltac:(in_range_by_length Hlen)) as Hb;
               cbn [List.length] in Hb; lia
             end|]).
    constructor.
  - apply Forall_map. apply Forall_forall. intros cd _. reflexivity.
  - intros ->. reflexivity.
Qed.

(** Every answer 3: each category scores 18. *)
Lemma basicPh_category_scores_witness :
  map bph_score (bph_categories (calculateBasicPhResults (repeat 3 36)))
  = repeat (Num 18) 6.
Proof.
  refine (eq_trans
    (proj1 (proj2 (basicPh_category_scores (repeat 3 36) eq_refl _)))
    eq_refl).
  repeat constructor; lia.
Defined.

(** X17. For 13 answers on the scale 1..5 the Personal Resources
    subtotals are numbers within 6..30 (Sufficiency), 4..20 (Coping) and
    3..15 (Exhaustion), the upper bounds being the stored maxima, and the
    total lies within -5..47. *)
Theorem personalResource_scores_within_bounds (answers : list Z) :
  let r := calculatePersonalResourceResults answers in
  List.length answers = 13%nat ->
  onScale 1 5 answers ->
  exists s c e : Z,
    pr_score (sufficiency r) = Num s /\ 6 <= s <= pr_maxScore (sufficiency r)
    /\ pr_score (copingStrategies r) = Num c
    /\ 4 <= c <= pr_maxScore (copingStrategies r)
    /\ pr_score (emotionalExhaustion r) = Num e
    /\ 3 <= e <= pr_maxScore (emotionalExhaustion r)
    /\ pr_maxScore (sufficiency r) = 30
    /\ pr_maxScore (copingStrategies r) = 20
    /\ pr_maxScore (emotionalExhaustion r) = 15
    /\ pr_totalScore r = Num (s + c - e)
    /\ -5 <= s + c - e <= 47.
Proof.
  intros r Hlen Hs. subst r. unfold calculatePersonalResourceResults.
  cbn [sufficiency copingStrategies emotionalExhaustion pr_score pr_maxScore
       pr_totalScore].
  rewrite !addAnswers_in_range
    by (first [unfold personalResourceSufficiencyQuestions
              |unfold personalResourceCopingQuestions
              |unfold personalResourceExhaustionQuestions];
        in_range_by_length Hlen).
  pose proof (sumOver_bounds 1 5 answers personalResourceSufficiencyQuestions
                Hs ltac:(unfold personalResourceSufficiencyQuestions;
                         in_range_by_length Hlen)) as H1.
  pose proof (sumOver_bounds 1 5 answers personalResourceCopingQuestions
                Hs ltac:(unfold personalResourceCopingQuestions;
                         in_range_by_length Hlen)) as H2.
  pose proof (sumOver_bounds 1 5 answers personalResourceExhaustionQuestions
                Hs ltac:(unfold personalResourceExhaustionQuestions;
                         in_range_by_length Hlen)) as H3.
  cbn [List.length personalResourceSufficiencyQuestions
       personalResourceCopingQuestions personalResourceExhaustionQuestions]
    in H1, H2, H3.
  eexists _, _, _. cbn [nadd nsub Z.add].
  repeat (split; [first [reflexivity | lia]|]). lia.
Qed.

(** The answers of the scenario with subtotals 25, 10 and 5. *)
Lemma personalResource_scores_within_bounds_witness :
  pr_totalScore
    (calculatePersonalResourceResults [5; 4; 3; 4; 4; 3; 2; 2; 4; 4; 2; 2; 1])
  = Num 30.
Proof.
  destruct (personalResource_scores_within_bounds
              [5; 4; 3; 4; 4; 3; 2; 2; 4; 4; 2; 2; 1] eq_refl)
    as (s & c & e & Hs & _ & Hc & _ & He & _ & _ & _ & _ & Ht & _).
  - repeat constructor; lia.
  - rewrite Ht. injection Hs. injection Hc. injection He.
    intros <- <- <-. reflexivity.
Defined.

(** ** Ryff aggregation *)

Lemma sumZ_app_distr (l l' : list Z) : sumZ (l ++ l') = sumZ l + sumZ l'.
Proof.
  induction l as [|a l IH]; [reflexivity|].
  cbn [app]. change (sumZ (?x :: ?l)) with (x + sumZ l). rewrite IH. lia.
Qed.

Lemma ryffScore_in_range (answers : list Z) (questions : list RyffQuestion)
    (s : Z) :
  inRange answers (map rq_num questions) ->
  ryffScore answers questions (Num s)
  = Num (s + sumZ (map (finalOf answers) questions)).
Proof.
  unfold inRange, ryffScore. revert s.
  induction questions as [|q qs IH]; intros s Hr.
  - cbn. f_equal. lia.
  - cbn [map] in Hr. inversion Hr as [|? ? Hq Hqs]; subst.
    cbn [fold_left]. rewrite num_at_in_range by lia.
    assert (E : finalAnswer q (Num (nth (Z.to_nat (rq_num q - 1)) answers 0))
                = Num (finalOf answers q)).
    { unfold finalAnswer, finalOf, answerTo. destruct (isReversed q);
        reflexivity. }
    rewrite E, nadd_Num, IH by assumption. f_equal.
    cbn [map]. change (sumZ (?x :: ?l)) with (x + sumZ l). lia.
Qed.

Lemma finalOf_onScale (answers : list Z) (q : RyffQuestion) :
  onScale 1 6 answers ->
  1 <= rq_num q <= Z.of_nat (List.length answers) ->
  1 <= finalOf answers q <= 6.
Proof.
  intros Hs Hq. pose proof (answerTo_onScale 1 6 answers (rq_num q) Hs Hq).
  unfold finalOf. destruct (isReversed q); lia.
Qed.

Lemma calculateRyffResults_categories (answers : list Z) :
  let r := calculateRyffResults answers in
  [relationships r; autonomy r; environment r; growth r; purpose r;
   selfAcceptance r]
  = map (calculateCategoryScore answers) ryffCategoryList.
Proof.
  cbv zeta. unfold calculateRyffResults. set (t := nadd _ _).
  destruct (nltb t _); [reflexivity|]. destruct (ngtb t _); reflexivity.
Qed.

(** Every Ryff category has 14 slots, all among the questions 1..84. *)
Lemma ryffCategoryList_shape :
  Forall (fun categoryDef =>
            List.length (rcd_questions categoryDef) = 14%nat
            /\ slotsWithin 84 (map rq_num (rcd_questions categoryDef)) = true)
         ryffCategoryList.
Proof. repeat constructor. Qed.

Lemma slotsWithin_inRange (answers : list Z) (n : nat) (questions : list Z) :
  List.length answers = n ->
  slotsWithin n questions = true ->
  inRange answers questions.
Proof.
  intros <- H. unfold slotsWithin in H. rewrite forallb_forall in H.
  apply Forall_forall. intros q Hq. specialize (H q Hq).
  apply andb_true_iff in H as [H1 H2].
  apply Z.leb_le in H1, H2. lia.
Qed.

Lemma ryff_category_sum (answers : list Z)
    (categoryDef : RyffCategoryDefinition) :
  List.length answers = 84%nat ->
  In categoryDef ryffCategoryList ->
  ryff_score (calculateCategoryScore answers categoryDef)
  = Num (sumZ (map (finalOf answers) (rcd_questions categoryDef)))
  /\ List.length (rcd_questions categoryDef) = 14%nat
  /\ inRange answers (map rq_num (rcd_questions categoryDef)).
Proof.
  intros Hlen Hin.
  pose proof ryffCategoryList_shape as Hshape.
  rewrite Forall_forall in Hshape. destruct (Hshape _ Hin) as [H14 Hw].
  pose proof (slotsWithin_inRange answers 84 _ Hlen Hw) as Hr.
  split; [|split; assumption].
  rewrite calculateCategoryScore_score, ryffScore_in_range by exact Hr.
  reflexivity.
Qed.

Lemma ryff_total_sum (answers : list Z) :
  List.length answers = 84%nat ->
  ryff_totalScore (calculateRyffResults answers)
  = Num (sumZ (map (finalOf answers) ryffSlots)).
Proof.
  intros Hlen. rewrite calculateRyffResults_totalScore.
  unfold ryffCategoryList. cbn [tl fold_left].
  assert (Hcat : forall categoryDef,
             In categoryDef ryffCategoryList ->
             ryff_score (calculateCategoryScore answers categoryDef)
             = Num (sumZ (map (finalOf answers) (rcd_questions categoryDef))))
    by (intros cd Hin; apply (ryff_category_sum answers cd Hlen Hin)).
  rewrite !Hcat by (unfold ryffCategoryList; cbn [In]; tauto).
  cbn [nadd]. f_equal. unfold ryffSlots, ryffCategoryList.
  cbn [map List.concat]. rewrite !map_app, !sumZ_app_distr.
  change (sumZ (map (finalOf answers) [])) with 0. lia.
Qed.

Lemma calculateCategoryScore_maxScore (answers : list Z)
    (categoryDef : RyffCategoryDefinition) :
  ryff_maxScore (calculateCategoryScore answers categoryDef) = 84.
Proof.
  unfold calculateCategoryScore.
  destruct (nltb _ _); [reflexivity|]. destruct (ngtb _ _); reflexivity.
Qed.

Lemma finalOf_sum_bounds (answers : list Z) (questions : list RyffQuestion) :
  onScale 1 6 answers ->
  inRange answers (map rq_num questions) ->
  Z.of_nat (List.length questions)
  <= sumZ (map (finalOf answers) questions)
  <= 6 * Z.of_nat (List.length questions).
Proof.
  intros Hs Hr.
  pose proof (sumZ_bounds (map (finalOf answers) questions) 1 6) as H.
  rewrite length_map in H.
  assert (Hall : Forall (fun a => 1 <= a <= 6)
                        (map (finalOf answers) questions)).
  { apply Forall_map. unfold inRange in Hr. rewrite Forall_map in Hr.
    revert Hr. apply Forall_impl. intros q Hq. now apply finalOf_onScale. }
  specialize (H Hall). lia.
Qed.

(** X18. For 84 answers on the scale 1..6 each of the six Ryff
    categories scores a number between 14 and its maximum 84, and the
    total lies between 84 and 504. *)
Theorem ryff_scores_within_bounds (answers : list Z) :
  let r := calculateRyffResults answers in
  List.length answers = 84%nat ->
  onScale 1 6 answers ->
  Forall (fun c => exists s, ryff_score c = Num s
                             /\ 14 <= s <= ryff_maxScore c
                             /\ ryff_maxScore c = 84)
         [relationships r; autonomy r; environment r; growth r; purpose r;
          selfAcceptance r]
  /\ exists t, ryff_totalScore r = Num t /\ 84 <= t <= 504.
Proof.
  intros r Hlen Hs. split.
  - subst r. rewrite calculateRyffResults_categories.
    apply Forall_map, Forall_forall. intros cd Hin.
    destruct (ryff_category_sum answers cd Hlen Hin) as (Esum & H14 & Hr).
    pose proof (finalOf_sum_bounds answers _ Hs Hr) as Hb. rewrite H14 in Hb.
    rewrite calculateCategoryScore_maxScore.
    eexists. split; [exact Esum|]. split; [lia | reflexivity].
  - subst r. rewrite ryff_total_sum by exact Hlen. eexists. split; [reflexivity|].
    assert (Hr : inRange answers (map rq_num ryffSlots))
      by (apply (slotsWithin_inRange answers 84); [exact Hlen | reflexivity]).
    pose proof (finalOf_sum_bounds answers ryffSlots Hs Hr) as Hb.
    change (List.length ryffSlots) with 84%nat in Hb. lia.
Qed.

(** Every answer 6: the total is 6 for each direct question and 1 for
    each of the 40 reversed ones. *)
Lemma ryff_scores_within_bounds_witness :
  ryff_totalScore (calculateRyffResults (repeat 6 84)) = Num 304.
Proof.
  destruct (ryff_scores_within_bounds (repeat 6 84) eq_refl) as [_ (t & Ht & _)].
  - repeat constructor; lia.
  - rewrite Ht. injection Ht. intros <-. reflexivity.
Defined.

Lemma answerTo_mirrored (answers : list Z) (qNum : Z) :
  1 <= qNum <= Z.of_nat (List.length answers) ->
  answerTo (mirroredAnswers answers) qNum = 7 - answerTo answers qNum.
Proof.
  intros Hq. unfold answerTo, mirroredAnswers.
  rewrite (nth_indep _ 0 (7 - 0)) by (rewrite length_map; lia).
  apply (map_nth (fun a => 7 - a)).
Qed.

Lemma finalOf_mirrored_sum (answers : list Z) (questions : list RyffQuestion) :
  inRange answers (map rq_num questions) ->
  sumZ (map (finalOf (mirroredAnswers answers)) questions)
  = 7 * Z.of_nat (List.length questions)
    - sumZ (map (finalOf answers) questions).
Proof.
  unfold inRange. rewrite Forall_map. intros H.
  induction H as [|q qs Hq _ IH]; [reflexivity|].
  cbn [map List.length]. change (sumZ (?x :: ?l)) with (x + sumZ l).
  rewrite IH. unfold finalOf at 1 3. rewrite answerTo_mirrored by exact Hq.
  destruct (isReversed q); lia.
Qed.

(** X19. Mirroring every answer of a complete array on the six-point
    scale (1 for 6, 2 for 5, ...) turns each category score [s] into
    [98 - s] and the total [t] into [588 - t]: reversed and direct slots
    are mirrored alike. *)
Theorem ryff_mirrored_answers (answers : list Z) :
  let r := calculateRyffResults answers in
  let r' := calculateRyffResults (mirroredAnswers answers) in
  List.length answers = 84%nat ->
  Forall2 (fun c c' => exists s, ryff_score c = Num s
                                 /\ ryff_score c' = Num (98 - s))
          [relationships r; autonomy r; environment r; growth r; purpose r;
           selfAcceptance r]
          [relationships r'; autonomy r'; environment r'; growth r';
           purpose r'; selfAcceptance r']
  /\ exists t, ryff_totalScore r = Num t
               /\ ryff_totalScore r' = Num (588 - t).
Proof.
  intros r r' Hlen.
  assert (Hlen' : List.length (mirroredAnswers answers) = 84%nat)
    by (unfold mirroredAnswers; now rewrite length_map).
  split.
  - subst r r'. rewrite !calculateRyffResults_categories.
    assert (G : forall cds,
               incl cds ryffCategoryList ->
               Forall2 (fun c c' => exists s, ryff_score c = Num s
                                              /\ ryff_score c' = Num (98 - s))
                       (map (calculateCategoryScore answers) cds)
                       (map (calculateCategoryScore (mirroredAnswers answers))
                            cds)).
    { induction cds as [|cd cds IH]; intros Hincl; [constructor|].
      cbn [map]. constructor.
      - assert (Hin : In cd ryffCategoryList) by (apply Hincl; now left).
        destruct (ryff_category_sum answers cd Hlen Hin) as (E & H14 & Hr).
        destruct (ryff_category_sum _ cd Hlen' Hin) as (E' & _ & _).
        eexists. split; [exact E|]. rewrite E'. f_equal.
        rewrite finalOf_mirrored_sum by exact Hr. rewrite H14. lia.
      - apply IH. intros x Hx. apply Hincl. now right. }
    apply G, incl_refl.
  - subst r r'. rewrite !ryff_total_sum by assumption.
    eexists. split; [reflexivity|]. f_equal.
    rewrite finalOf_mirrored_sum
      by (apply (slotsWithin_inRange answers 84); [exact Hlen | reflexivity]).
    change (List.length ryffSlots) with 84%nat. lia.
Qed.

(** All answers 1 mirror to all answers 6: 284 and 304 add up to 588. *)
Lemma ryff_mirrored_answers_witness :
  ryff_totalScore (calculateRyffResults (mirroredAnswers (repeat 1 84)))
  = Num 304.
Proof.
  destruct (ryff_mirrored_answers (repeat 1 84) eq_refl)
    as [_ (t & Ht & Ht')].
  rewrite Ht'. injection Ht. intros <-. reflexivity.
Defined.

Lemma finalOf_sum_split (answers : list Z) (questions : list RyffQuestion) :
  sumZ (map (finalOf answers) questions)
  = sumOver answers (map rq_num questions)
    + 7 * Z.of_nat (List.length (filter isReversed questions))
    - 2 * sumOver answers (map rq_num (filter isReversed questions)).
Proof.
  unfold sumOver. induction questions as [|q qs IH]; [reflexivity|].
  cbn [map filter]. change (sumZ (?x :: ?l)) with (x + sumZ l).
  rewrite IH. unfold finalOf at 1. destruct (isReversed q).
  - cbn [map List.length]. change (sumZ (?x :: ?l)) with (x + sumZ l). lia.
  - lia.
Qed.

(** X20. The six Ryff categories share out the questions 1..84, each
    question in exactly one slot, and 40 of the slots are reversed; so
    the total of a complete array is the sum of its answers, plus 280,
    minus twice the sum of the answers to the reversed questions. *)
Theorem ryff_total_counts_each_question_once :
  Permutation (map rq_num ryffSlots) (questionNumbers 84)
  /\ List.length ryffReversedQuestions = 40%nat
  /\ (forall answers,
        List.length answers = 84%nat ->
        ryff_totalScore (calculateRyffResults answers)
        = Num (sumZ answers + 280
               - 2 * sumOver answers ryffReversedQuestions)).
Proof.
  assert (Hperm : Permutation (map rq_num ryffSlots) (questionNumbers 84))
    by (apply samePartition_Permutation; reflexivity).
  split; [exact Hperm|]. split; [reflexivity|].
  intros answers Hlen. rewrite ryff_total_sum by exact Hlen. f_equal.
  rewrite finalOf_sum_split. fold ryffReversedQuestions.
  change (List.length (filter isReversed ryffSlots)) with 40%nat.
  rewrite <- (sumOver_all_questions answers), Hlen.
  unfold sumOver at 1 3.
  rewrite (sumZ_Permutation _ _ (Permutation_map (answerTo answers) Hperm)).
  lia.
Qed.

(** Every answer 6: 504 + 280 - 2 * 240. *)
Lemma ryff_total_counts_each_question_once_witness :
  ryff_totalScore (calculateRyffResults (repeat 6 84)) = Num 304.
Proof.
  exact (eq_trans
    (proj2 (proj2 ryff_total_counts_each_question_once) (repeat 6 84) eq_refl)
    eq_refl).
Defined.

(** ** Incomplete answer arrays *)

Lemma nadd_NaN_r (a : number) : nadd a NaN = NaN.
Proof. destruct a; reflexivity. Qed.

Lemma addAnswers_NaN (answers : list Z) (questions : list Z) :
  addAnswers answers questions NaN = NaN.
Proof.
  unfold addAnswers. induction questions as [|q qs IH]; [reflexivity|].
  cbn [fold_left nadd]. exact IH.
Qed.

Lemma addAnswers_missing (answers : list Z) (questions : list Z)
    (score : number) (qNum : Z) :
  In qNum questions ->
  Z.of_nat (List.length answers) < qNum ->
  addAnswers answers questions score = NaN.
Proof.
  intros Hin Hq. revert score.
  induction questions as [|q qs IH]; intros score; [contradiction|].
  unfold addAnswers. cbn [fold_left]. fold (addAnswers answers qs).
  destruct Hin as [->|Hin].
  - assert (E : num_at answers (qNum - 1) = NaN).
    { unfold num_at, at_index. destruct (Z.ltb_spec (qNum - 1) 0); [reflexivity|].
      replace (nth_error answers (Z.to_nat (qNum - 1))) with (@None Z);
        [reflexivity|].
      symmetry. apply nth_error_None. lia. }
    rewrite E. destruct score; cbn [nadd]; apply addAnswers_NaN.
  - now apply IH.
Qed.

Lemma ryffScore_NaN (answers : list Z) (questions : list RyffQuestion) :
  ryffScore answers questions NaN = NaN.
Proof.
  unfold ryffScore. induction questions as [|q qs IH]; [reflexivity|].
  cbn [fold_left nadd]. exact IH.
Qed.

Lemma ryffScore_missing (answers : list Z) (questions : list RyffQuestion)
    (score : number) (q : RyffQuestion) :
  In q questions ->
  Z.of_nat (List.length answers) < rq_num q ->
  ryffScore answers questions score = NaN.
Proof.
  intros Hin Hq. revert score.
  induction questions as [|q' qs IH]; intros score; [contradiction|].
  unfold ryffScore. cbn [fold_left]. fold (ryffScore answers qs).
  destruct Hin as [->|Hin].
  - assert (E : num_at answers (rq_num q - 1) = NaN).
    { unfold num_at, at_index.
      destruct (Z.ltb_spec (rq_num q - 1) 0); [reflexivity|].
      replace (nth_error answers (Z.to_nat (rq_num q - 1))) with (@None Z);
        [reflexivity|].
      symmetry. apply nth_error_None. lia. }
    rewrite E.
    replace (finalAnswer q NaN) with NaN
      by (unfold finalAnswer; destruct (isReversed q); reflexivity).
    destruct score; cbn [nadd]; apply ryffScore_NaN.
  - now apply IH.
Qed.

(** X21. An answer array that is too short is not refused.  With fewer
    than 36, 13 or 84 answers the Basic Ph, Personal Resources or Ryff
    total is [NaN]; the Personal Resources total is then labelled
    "Високий" (class high) and the Ryff total "Середній" (class medium),
    since every comparison with [NaN] fails.  The Штепа count gives no
    point for a missing answer: only the slots whose question has an
    answer are counted. *)
Theorem short_answer_arrays (answers : list Z) :
  ((List.length answers < 36)%nat ->
   bph_totalScore (calculateBasicPhResults answers) = NaN)
  /\ ((List.length answers < 13)%nat ->
      let r := calculatePersonalResourceResults answers in
      pr_totalScore r = NaN
      /\ pr_totalLevel r = u "Високий" /\ pr_totalLevelClass r = u "high")
  /\ ((List.length answers < 84)%nat ->
      let r := calculateRyffResults answers in
      ryff_totalScore r = NaN
      /\ ryff_totalLevel r = u "Середній"
      /\ ryff_totalLevelClass r = u "medium")
  /\ (forall (given : list bool) (questions : list ShtepaQuestion),
        shtepaScore given questions
        = shtepaScore given
            (filter (fun q => sq_num q <=? Z.of_nat (List.length given))
                    questions)).
Proof.
  split; [|split; [|split]].
  - intros H. rewrite basicPh_totalScore_unfold.
    unfold basicPhCategories. cbn [fold_left bcd_questions].
    rewrite (addAnswers_missing answers [6; 12; 18; 24; 30; 36] (Num 0) 36)
      by (cbn [In]; tauto || lia).
    apply nadd_NaN_r.
  - intros H r. subst r. unfold calculatePersonalResourceResults.
    cbn [pr_totalScore pr_totalLevel pr_totalLevelClass].
    rewrite (addAnswers_missing answers personalResourceExhaustionQuestions
               (Num 0) 13)
      by (unfold personalResourceExhaustionQuestions; cbn [In]; tauto || lia).
    replace (nsub (nadd _ _) NaN) with NaN
      by (symmetry; unfold nsub; now destruct (nadd _ _)).
    repeat split.
  - intros H r.
    assert (Et : ryff_totalScore r = NaN).
    { subst r. rewrite calculateRyffResults_totalScore.
      unfold ryffCategoryList. cbn [tl fold_left].
      rewrite (calculateCategoryScore_score answers
                 ryffCategories.selfAcceptance).
      rewrite (ryffScore_missing answers _ (Num 0) (rq 84 true))
        by (cbn; tauto || lia).
      apply nadd_NaN_r. }
    destruct (calculateRyffResults_totalLevel answers) as [El Ec].
    fold r in El, Ec. rewrite El, Ec, Et. repeat split.
  - intros given questions. rewrite !shtepaScore_sum.
    induction questions as [|q qs IH]; [reflexivity|].
    cbn [map filter]. change (sumZ (?x :: ?l)) with (x + sumZ l).
    destruct (Z.leb_spec (sq_num q) (Z.of_nat (List.length given))).
    + cbn [map]. change (sumZ (?x :: ?l)) with (x + sumZ l). now rewrite IH.
    + rewrite IH. unfold slotPoint at 1, at_index.
      destruct (Z.ltb_spec (sq_num q - 1) 0); [lia|].
      replace (nth_error given (Z.to_nat (sq_num q - 1))) with (@None bool);
        [lia|].
      symmetry. apply nth_error_None. lia.
Qed.

(** Twelve answers: the last Exhaustion question is missing. *)
Lemma short_answer_arrays_witness :
  pr_totalLevel (calculatePersonalResourceResults (repeat 1 12)) = u "Високий".
Proof.
  refine (proj1 (proj2 (proj1 (proj2 (short_answer_arrays (repeat 1 12))) _))).
  cbn. lia.
Defined.

(** ** Respondent assembler *)

Lemma forEachIndex_ext {A : Type} (n : nat) (f g : nat -> A) :
  (forall i, (i < n)%nat -> f i = g i) ->
  forEachIndex n f = forEachIndex n g.
Proof.
  intros H. unfold forEachIndex. apply map_ext_in.
  intros i Hi. apply in_seq in Hi. apply H. lia.
Qed.

Lemma forEachIndex_Forall {A : Type} (P : A -> Prop) (n : nat) (f : nat -> A) :
  (forall i, P (f i)) -> Forall P (forEachIndex n f).
Proof.
  intros H. unfold forEachIndex. apply Forall_map, Forall_forall.
  intros i _. apply H.
Qed.

Lemma column_app (columns extra : list jsstring) (i : nat) :
  (i < List.length columns)%nat ->
  column (columns ++ extra) i = column columns i.
Proof. intros H. unfold column. now apply app_nth1. Qed.

Section Assembled.

Variable toLowerCase : jsstring -> jsstring.

(** X22. Columns after the 233rd are never read: a row with extra
    columns gives the same record as the row cut after its first 233
    columns or anywhere later. *)
Theorem buildRespondent_ignores_extra_columns (columns extra : list jsstring) :
  minColumns <= Z.of_nat (List.length columns) ->
  buildRespondent toLowerCase (columns ++ extra)
  = buildRespondent toLowerCase columns.
Proof.
  intros H. change minColumns with 233 in H.
  unfold buildRespondent. cbv zeta.
  repeat match goal with
         | |- context [forEachIndex ?n ?f] =>
           lazymatch f with context [columns ++ extra] => idtac end;
           let g := eval pattern (columns ++ extra) in f in
           lazymatch g with
           | ?G _ =>
             rewrite (forEachIndex_ext n f (G columns))
               by (intros i Hi; cbv beta;
                   rewrite !column_app by lia; reflexivity);
             cbv beta
           end
         end.
  rewrite !column_app by lia. reflexivity.
Qed.

End Assembled.

(** [scenarioRow] with two more columns. *)
Lemma buildRespondent_ignores_extra_columns_witness :
  shtepa_totalScore
    (shtepa (buildRespondent Js.toLowerCaseUk
               (scenarioRow ++ [u "extra"; u "columns"])))
  = 15.
Proof.
  rewrite (buildRespondent_ignores_extra_columns Js.toLowerCaseUk
             scenarioRow [u "extra"; u "columns"]).
  - reflexivity.
  - vm_compute. discriminate.
Defined.

Lemma shtepa_total_within (answers : list bool) :
  0 <= shtepa_totalScore (calculateShtepaResults answers) <= 112.
Proof.
  destruct (calculateShtepaResults_scores answers) as (_ & Et & _).
  rewrite Et.
  pose proof (sumZ_bounds
                (map (fun catDef => shtepaScore answers (cd_questions catDef))
                     shtepaCategories) 0 8) as Hb.
  rewrite length_map in Hb. change (List.length shtepaCategories) with 14%nat in Hb.
  apply Hb. apply Forall_map. unfold shtepaCategories.
  repeat (constructor;
          [cbn [cd_questions];
           match goal with
           | |- _ <= shtepaScore _ ?qs <= _ =>
             pose proof (shtepaScore_bounds answers qs) as Hq;
             cbn [List.length] in Hq; lia
           end|]).
  constructor.
Qed.

Lemma basicPh_total_within (answers : list Z) :
  List.length answers = 36%nat ->
  onScale 0 6 answers ->
  numberWithin 0 216 (bph_totalScore (calculateBasicPhResults answers)).
Proof.
  intros Hlen Hs. rewrite basicPh_totalScore_unfold.
  unfold basicPhCategories. cbn [fold_left bcd_questions].
  repeat (rewrite addAnswers_in_range by in_range_by_length Hlen;
          rewrite nadd_Num).
  eexists. split; [reflexivity|].
  repeat match goal with
         | |- context [sumOver answers ?qs] =>
           let Hb := fresh "Hb" in
           pose proof (sumOver_bounds 0 6 answers qs Hs
                         ltac:(in_range_by_length Hlen)) as Hb;
           cbn [List.length] in Hb;
           let x := fresh "x" in
           set (x := sumOver answers qs) in *; clearbody x
         end.
  lia.
Qed.

Lemma personalResource_total_within (answers : list Z) :
  List.length answers = 13%nat ->
  onScale 1 5 answers ->
  numberWithin (-5) 47
    (pr_totalScore (calculatePersonalResourceResults answers)).
Proof.
  intros Hlen Hs. unfold calculatePersonalResourceResults.
  cbn [pr_totalScore].
  unfold personalResourceSufficiencyQuestions, personalResourceCopingQuestions,
    personalResourceExhaustionQuestions.
  rewrite !addAnswers_in_range by in_range_by_length Hlen.
  cbn [nadd nsub]. eexists. split; [reflexivity|].
  repeat match goal with
         | |- context [sumOver answers ?qs] =>
           let Hb := fresh "Hb" in
           pose proof (sumOver_bounds 1 5 answers qs Hs
                         ltac:(in_range_by_length Hlen)) as Hb;
           cbn [List.length] in Hb;
           let x := fresh "x" in
           set (x := sumOver answers qs) in *; clearbody x
         end.
  lia.
Qed.

Lemma ryff_total_within (answers : list Z) :
  List.length answers = 84%nat ->
  onScale 1 6 answers ->
  numberWithin 84 504 (ryff_totalScore (calculateRyffResults answers)).
Proof.
  intros Hlen Hs. rewrite ryff_total_sum by exact Hlen.
  eexists. split; [reflexivity|].
  assert (Hr : inRange answers (map rq_num ryffSlots))
    by (apply (slotsWithin_inRange answers 84); [exact Hlen | reflexivity]).
  pose proof (finalOf_sum_bounds answers ryffSlots Hs Hr) as Hb.
  change (List.length ryffSlots) with 84%nat in Hb. lia.
Qed.

Section WellFormed.

Variable toLowerCase : jsstring -> jsstring.

Lemma buildRespondent_wellFormed (columns : list jsstring) :
  wellFormed (buildRespondent toLowerCase columns).
Proof.
  set (r := buildRespondent toLowerCase columns).
  assert (Hsan : List.length (sanAnswers r) = 30%nat
                 /\ onScale 1 7 (sanAnswers r)).
  { split; [apply forEachIndex_length|].
    apply forEachIndex_Forall. intros i. apply convertSanAnswer_range. }
  assert (Hsh : List.length (shtepaAnswers r) = 67%nat)
    by apply forEachIndex_length.
  assert (Hb : List.length (basicPhAnswers r) = 36%nat
               /\ onScale 0 6 (basicPhAnswers r)).
  { split; [apply forEachIndex_length|].
    apply forEachIndex_Forall. intros i. apply convertBasicPhAnswer_range. }
  assert (Hp : List.length (personalResourceAnswers r) = 13%nat
               /\ onScale 1 5 (personalResourceAnswers r)).
  { split; [apply forEachIndex_length|].
    apply forEachIndex_Forall. intros i.
    apply convertPersonalResourceAnswer_range. }
  assert (Hr : List.length (ryffAnswers r) = 84%nat
               /\ onScale 1 6 (ryffAnswers r)).
  { split; [apply forEachIndex_length|].
    apply forEachIndex_Forall. intros i. apply convertRyffAnswer_range. }
  assert (E1 : shtepa r = calculateShtepaResults (shtepaAnswers r))
    by reflexivity.
  assert (E2 : basicPh r = calculateBasicPhResults (basicPhAnswers r))
    by reflexivity.
  assert (E3 : personalResource r
               = calculatePersonalResourceResults (personalResourceAnswers r))
    by reflexivity.
  assert (E4 : ryff r = calculateRyffResults (ryffAnswers r)) by reflexivity.
  constructor; try assumption.
  - rewrite E1. apply shtepa_total_within.
  - rewrite E2. now apply basicPh_total_within.
  - rewrite E3. now apply personalResource_total_within.
  - rewrite E4. now apply ryff_total_within.
Qed.

(** X23. Whatever the cells of the file hold, every record of a load is
    well formed: its five answer arrays have 30, 67, 36, 13 and 84 entries
    on the scales 1..7, yes/no, 0..6, 1..5 and 1..6, its results are those
    of these arrays, and its totals are numbers (never [NaN]) within
    0..112, 0..216, -5..47 and 84..504. *)
Theorem loaded_records_are_well_formed (content : jsstring)
    (this : AppComponent) :
  (2 <= List.length (nonBlankLines content))%nat ->
  Forall wellFormed
         (respondents (parseAndTransformCSV toLowerCase content this)).
Proof.
  intros H. rewrite parseAndTransformCSV_respondents by exact H.
  rewrite processRows_filter. cbn [app].
  apply Forall_map, Forall_forall. intros line _.
  apply buildRespondent_wellFormed.
Qed.

End WellFormed.

(** The two records of [sampleContent], built from empty cells, are well
    formed. *)
Lemma loaded_records_are_well_formed_witness :
  Forall wellFormed
         (respondents
            (parseAndTransformCSV Js.toLowerCaseUk sampleContent
                                  initialComponent)).
Proof.
  apply loaded_records_are_well_formed. vm_compute. lia.
Defined.

(** ** Ryff detail modal *)

Lemma calculateRyffResults_projections (answers : list Z) :
  let r := calculateRyffResults answers in
  relationships r
  = calculateCategoryScore answers ryffCategories.relationships
  /\ autonomy r = calculateCategoryScore answers ryffCategories.autonomy
  /\ environment r = calculateCategoryScore answers ryffCategories.environment
  /\ growth r = calculateCategoryScore answers ryffCategories.growth
  /\ purpose r = calculateCategoryScore answers ryffCategories.purpose
  /\ selfAcceptance r
     = calculateCategoryScore answers ryffCategories.selfAcceptance.
Proof.
  cbv zeta. unfold calculateRyffResults. set (t := nadd _ _).
  destruct (nltb t _); [|destruct (ngtb t _)];
    cbn [relationships autonomy environment growth purpose selfAcceptance];
    repeat split.
Qed.

Lemma ryffResultEntries_entry (answers : list Z) (key : jsstring)
    (categoryDef : RyffCategoryDefinition) :
  entryOf ryffCategoriesEntries key = Some categoryDef ->
  entryOf (ryffResultEntries (calculateRyffResults answers)) key
  = Some (calculateCategoryScore answers categoryDef)
  /\ In categoryDef ryffCategoryList.
Proof.
  destruct (calculateRyffResults_projections answers)
    as (E1 & E2 & E3 & E4 & E5 & E6).
  unfold ryffCategoriesEntries, ryffResultEntries, ryffCategoryList.
  cbn [entryOf In]. rewrite E1, E2, E3, E4, E5, E6.
  repeat (destruct (Js.eqb key _);
          [intros [= <-]; split; [reflexivity | tauto]|]).
  discriminate.
Qed.

Lemma detail_total (answers : list Z) (questions : list RyffQuestion)
    (score : number) :
  fold_left (fun sum q => nadd sum (dq_finalAnswer q))
            (map (fun q =>
                    {| dq_num := rq_num q;
                       dq_rawAnswer := at_index answers (rq_num q - 1);
                       dq_finalAnswer :=
                         finalAnswer q (num_at answers (rq_num q - 1));
                       dq_isReversed := isReversed q |})
                 questions)
            score
  = ryffScore answers questions score.
Proof.
  unfold ryffScore. revert score.
  induction questions as [|q qs IH]; intros score; [reflexivity|].
  cbn [map fold_left dq_finalAnswer]. apply IH.
Qed.

Lemma calculateCategoryScore_name (answers : list Z)
    (categoryDef : RyffCategoryDefinition) :
  ryff_name (calculateCategoryScore answers categoryDef)
  = rcd_name categoryDef.
Proof.
  unfold calculateCategoryScore.
  destruct (nltb _ _); [reflexivity|]. destruct (ngtb _ _); reflexivity.
Qed.

(** X24. The breakdown agrees with the table.  For a record whose Ryff
    result is that of its stored answers (every loaded record is such) and
    a key of [ryffCategories], [openRyffDetail] shows the modal for that
    record with the name of the category and one row for each of its 14
    questions, in order, and [ryffDetailTotal] is the score the result
    holds for the category.  Closing the modal afterwards restores the
    state the component starts with. *)
Theorem ryff_detail_agrees_with_result (respondent : Respondent)
    (categoryKey : jsstring) (categoryDef : RyffCategoryDefinition)
    (this : RyffDetail) :
  ryff respondent = calculateRyffResults (ryffAnswers respondent) ->
  entryOf ryffCategoriesEntries categoryKey = Some categoryDef ->
  exists opened category,
    openRyffDetail respondent categoryKey this = Returned opened
    /\ entryOf (ryffResultEntries (ryff respondent)) categoryKey
       = Some category
    /\ showRyffDetailModal opened = true
    /\ ryffDetailRespondent opened = Some respondent
    /\ ryffDetailCategory opened = ryff_name category
    /\ map dq_num (ryffDetailQuestions opened)
       = map rq_num (rcd_questions categoryDef)
    /\ List.length (ryffDetailQuestions opened) = 14%nat
    /\ ryffDetailTotal opened = ryff_score category
    /\ closeRyffDetail opened = initialRyffDetail.
Proof.
  intros Hr Hkey.
  destruct (ryffResultEntries_entry (ryffAnswers respondent) categoryKey
              categoryDef Hkey) as [Hcat Hin].
  unfold openRyffDetail. rewrite Hkey.
  eexists _, _. split; [reflexivity|]. rewrite Hr.
  split; [exact Hcat|].
  cbn [showRyffDetailModal ryffDetailRespondent ryffDetailCategory
       ryffDetailQuestions].
  split; [reflexivity|]. split; [reflexivity|].
  split; [now rewrite calculateCategoryScore_name|].
  split; [now rewrite map_map|].
  split.
  - rewrite length_map.
    pose proof ryffCategoryList_shape as Hshape.
    rewrite Forall_forall in Hshape. now destruct (Hshape _ Hin).
  - split; [|reflexivity].
    unfold ryffDetailTotal. cbn [ryffDetailQuestions].
    rewrite detail_total. now rewrite calculateCategoryScore_score.
Qed.

(** The "Відносини" breakdown of the first record of [sampleContent]:
    empty cells decode to 3, which gives 3 for each of the 7 direct
    questions and 4 for each of the 7 reversed ones. *)
Lemma ryff_detail_agrees_with_result_witness :
  let respondent := buildRespondent Js.toLowerCaseUk (parseCSVLine emptyRow) in
  exists opened,
    openRyffDetail respondent (u "relationships") initialRyffDetail
    = Returned opened
    /\ ryffDetailTotal opened = Num 49.
Proof.
  intros respondent.
  destruct (ryff_detail_agrees_with_result respondent (u "relationships")
              ryffCategories.relationships initialRyffDetail
              eq_refl eq_refl)
    as (opened & category & Ho & Hc & _ & _ & _ & _ & _ & Ht & _).
  exists opened. split; [exact Ho|].
  assert (Hs : option_map ryff_score (Some category) = Some (Num 49))
    by (rewrite <- Hc; vm_compute; reflexivity).
  cbn [option_map] in Hs. rewrite Ht. congruence.
Defined.

(** ** The level helper and the stored levels *)

(** X25. The level and class stored with a Ryff category or with the
    Ryff total are exactly what the helper [getRyffCategoryLevel] returns
    for the stored score and the thresholds of that category (315 and 413
    for the total), whatever the answers, an incomplete array included:
    the two copies of the three-way test never disagree. *)
Theorem ryff_levels_agree_with_helper (answers : list Z) :
  let r := calculateRyffResults answers in
  Forall2 (fun c categoryDef =>
             let l := getRyffCategoryLevel (ryff_score c)
                        (lowThreshold categoryDef)
                        (highThreshold categoryDef) in
             ryff_level c = level l /\ ryff_levelClass c = class l)
          [relationships r; autonomy r; environment r; growth r; purpose r;
           selfAcceptance r]
          ryffCategoryList
  /\ (let l := getRyffCategoryLevel (ryff_totalScore r) 315 413 in
      ryff_totalLevel r = level l /\ ryff_totalLevelClass r = class l).
Proof.
  intros r. split.
  - subst r. rewrite calculateRyffResults_categories.
    generalize ryffCategoryList as cds.
    induction cds as [|cd cds IH]; [constructor|].
    cbn [map]. constructor; [|exact IH].
    apply calculateCategoryScore_level.
  - apply calculateRyffResults_totalLevel.
Qed.

(** ** Ryff aggregation: reversed slots *)

(** C2. Take a complete array of 84 Ryff answers, one of the six
    categories, and a slot [q] of it whose answer is [v], with [v] in
    1..6.  The category sum returned by [calculateCategoryScore], which
    is the sum [calculateRyffResults] stores for that category, is the
    contribution of the slots before [q], plus [7 - v] when [q] is
    flagged reversed and [v] when it is not, plus the contribution of the
    slots after [q].  That addend is what [finalAnswer] makes of [v]; it
    stays within 1..6, sends 1, 2, 3, 4, 5, 6 to 6, 5, 4, 3, 2, 1 on a
    reversed slot, and reversing twice gives [v] back. *)
Theorem ryff_reversed_slot_adds_7_minus_v (answers : list Z)
    (categoryDef : RyffCategoryDefinition)
    (before after : list RyffQuestion) (q : RyffQuestion) (v : Z) :
  let r := calculateRyffResults answers in
  let category := calculateCategoryScore answers categoryDef in
  let added := if isReversed q then 7 - v else v in
  1 <= v <= 6 ->
  List.length answers = 84%nat ->
  In categoryDef ryffCategoryList ->
  rcd_questions categoryDef = before ++ q :: after ->
  at_index answers (rq_num q - 1) = Some v ->
  In category
     [relationships r; autonomy r; environment r; growth r; purpose r;
      selfAcceptance r]
  /\ ryff_score category
     = Num (sumZ (map (finalOf answers) before) + added
            + sumZ (map (finalOf answers) after))
  /\ finalAnswer q (Num v) = Num added
  /\ 1 <= added <= 6
  /\ (isReversed q = true ->
      added = 7 - v
      /\ finalAnswer q (finalAnswer q (Num v)) = Num v
      /\ (v = 1 /\ added = 6 \/ v = 2 /\ added = 5 \/ v = 3 /\ added = 4 \/
          v = 4 /\ added = 3 \/ v = 5 /\ added = 2 \/ v = 6 /\ added = 1))
  /\ (isReversed q = false -> added = v).
Proof.
  intros r category added Hv Hlen Hin Hq Hat.
  assert (Ea : answerTo answers (rq_num q) = v).
  { unfold answerTo. unfold at_index in Hat.
    destruct (rq_num q - 1 <? 0); [discriminate Hat|].
    now apply nth_error_nth. }
  assert (Ef : finalOf answers q = added).
  { unfold finalOf. subst added. now rewrite Ea. }
  split; [|split; [|split; [|split; [|split]]]].
  - subst r category.
    pose proof (calculateRyffResults_categories answers) as E.
    cbv zeta in E. rewrite E. now apply in_map.
  - subst category.
    destruct (ryff_category_sum answers categoryDef Hlen Hin) as [E _].
    rewrite E, Hq, map_app, sumZ_app_distr. cbn [map].
    change (sumZ (finalOf answers q :: map (finalOf answers) after))
      with (finalOf answers q + sumZ (map (finalOf answers) after)).
    rewrite Ef. f_equal. lia.
  - subst added. unfold finalAnswer. destruct (isReversed q); reflexivity.
  - subst added. destruct (isReversed q); lia.
  - intros Hr. subst added. unfold finalAnswer. rewrite Hr.
    split; [reflexivity|]. split; [cbn [nsub]; f_equal; lia | lia].
  - intros Hr. subst added. now rewrite Hr.
Qed.

(** In the category "Відносини" question 7 is reversed and comes after
    question 1.  With [ryffAnswersAtLowBound] question 1 is answered 2
    and every other question of the category 1, so question 7 adds 6 and
    the category sum is 2 + 6 + 45. *)
Lemma ryff_reversed_slot_adds_7_minus_v_witness :
  ryff_score
    (calculateCategoryScore ryffAnswersAtLowBound ryffCategories.relationships)
  = Num (2 + 6 + 45).
Proof.
  refine (proj1 (proj2
    (ryff_reversed_slot_adds_7_minus_v
       ryffAnswersAtLowBound ryffCategories.relationships
       [rq 1 false] (tl (tl (rcd_questions ryffCategories.relationships)))
       (rq 7 true) 1 _ eq_refl (or_introl eq_refl) eq_refl eq_refl))).
  lia.
Defined.
